(** * Tuvok GPU memory manager: dataset registry and volume cache entries

    A shallow embedding of [GPUMemMan::LoadDataset] / [GPUMemMan::FreeDataset]
    (GPUMemMan.cpp) and of [GLVolumeListElem] (GPUMemManDataStructs.cpp):
    [BestMatch], [Match], [Access], [LoadData], [PadData], [CreateTexture]
    and the constructor.

    Conventions.
    - [UINT32] and [UINT64] values are [Z] with the wrap-around written out
      ([wrap32], [wrap64]).
    - A byte buffer ([unsigned char*], [std::vector<unsigned char>]) is a
      [list byte] where a byte is a [Z] in [0, 256).
    - Offsets into buffers ([size_t iTarget], [iSource]) are [nat]; the
      buffers that fit into memory are far below the [size_t] wrap-around.
    - Reference parameters ([UINT64&], [std::vector<unsigned char>&]) are
      passed in and returned.
    - A [double] is the kernel's binary64 [float].
    - A call that does not return says how it ends ([Outcome]): with the
      [std::out_of_range] of [std::vector::at], or in behaviour the
      language leaves undefined. *)

From Stdlib Require Import PrimFloat FloatOps SpecFloat.
From Stdlib Require Uint63.
From Stdlib Require Import String ZArith List Bool Lia Arith.
Import ListNotations.

Set Warnings "-notation-for-abbreviation".

Local Open Scope Z_scope.

(** ** Machine integers *)

Definition wrap32 (z : Z) : Z := z mod 2 ^ 32.
Definition wrap64 (z : Z) : Z := z mod 2 ^ 64.

(** [UINT64_INVALID] is the all-ones 64-bit word. *)
Definition UINT64_INVALID : Z := 2 ^ 64 - 1.

(** A byte ([unsigned char]) is a [Z] in [0, 256). *)
Notation byte := Z (only parsing).

(** ** Doubles *)

(** An [unsigned short] widened to [double]; every such value is exact. *)
Definition double_of_ushort (v : Z) : float :=
  PrimFloat.of_uint63 (Uint63.of_Z v).

(** The integral part of a finite double, the fraction cut off; nothing
    for an infinity or a NaN. *)
Definition truncate (d : float) : option Z :=
  match Prim2SF d with
  | S754_zero _ => Some 0
  | S754_finite s m e =>
    let magnitude :=
      if 0 <=? e then Z.pos m * 2 ^ e else Z.pos m / 2 ^ (- e) in
    Some (if s then - magnitude else magnitude)
  | S754_infinity _ => None
  | S754_nan => None
  end.

(** The conversion [(unsigned char)d]. It cuts the fraction off; when the
    truncated value is not one of 0..255 the language gives the conversion
    no meaning, and there is no result. *)
Definition uchar_of_double (d : float) : option byte :=
  match truncate d with
  | Some t => if (0 <=? t) && (t <=? 255) then Some t else None
  | None => None
  end.

(** ** The dataset interface *)

(** [UINTVECTOR3]: three [unsigned int] components, indexed 0..2. *)
Definition UINTVECTOR3 : Type := (Z * Z * Z)%type.

Definition vx (v : UINTVECTOR3) : Z := fst (fst v).
Definition vy (v : UINTVECTOR3) : Z := snd (fst v).
Definition vz (v : UINTVECTOR3) : Z := snd v.

(** [BrickKey]: a pair of indices (level of detail, brick number). *)
Definition BrickKey : Type := (nat * nat)%type.

(** What the cache entry consumes from [Dataset]. [GetBrick] receives the
    vector it is to fill and yields the success flag with the vector's new
    contents. [ds_addr] stands for the object's address. *)
Record Dataset : Type := {
  ds_addr : nat;
  GetBrickVoxelCounts : BrickKey -> UINTVECTOR3;
  GetBitWidth : Z;
  GetComponentCount : Z;
  GetRange : float * float;
  IsSameEndianness : bool;
  GetBrick : BrickKey -> list byte -> bool * list byte
}.

(** [MasterController]: only [IOMan()->GetIncoresize()] is consulted. *)
Record MasterController : Type := {
  GetIncoresize : Z
}.

(** ** GPU resources *)

Inductive GLFormat : Type := GL_LUMINANCE | GL_RGB | GL_RGBA.

Inductive GLInternalFormat : Type :=
| GL_LUMINANCE8 | GL_RGB8 | GL_RGBA8
| GL_LUMINANCE16 | GL_RGB16 | GL_RGBA16
| GL_LUMINANCE32F_ARB.

Inductive GLType : Type := GL_UNSIGNED_BYTE | GL_UNSIGNED_SHORT | GL_FLOAT.

Inductive GLClamp : Type := GL_CLAMP_TO_EDGE | GL_CLAMP.

Inductive GLVolumeKind : Type := GLVolume2DTex | GLVolume3DTex.

(** A [GLVolume] as [CreateTexture] constructs it: the arguments of the
    constructor call, [vol_data] being the buffer whose address is handed
    over. *)
Record GLVolume : Type := {
  vol_kind : GLVolumeKind;
  vol_size : UINTVECTOR3;
  vol_internalformat : GLInternalFormat;
  vol_format : GLFormat;
  vol_type : GLType;
  vol_sizePerElement : Z;
  vol_data : list byte;
  vol_clamp : GLClamp
}.

(** ** Volume cache entries *)

Record GLVolumeListElem : Type := {
  pDataset : Dataset;
  iUserCount : Z;
  m_iIntraFrameCounter : Z;
  m_iFrameCounter : Z;
  m_pMasterController : MasterController;
  m_Key : BrickKey;
  m_bIsPaddedToPowerOfTwo : bool;
  m_bIsDownsampledTo8Bits : bool;
  m_bDisableBorder : bool;
  m_bEmulate3DWith2DStacks : bool;
  m_bUsingHub : bool;
  vData : list byte;
  volumes : list (option GLVolume)
}.

Definition set_counters (e : GLVolumeListElem) (intra frame users : Z)
  : GLVolumeListElem :=
  {| pDataset := pDataset e;
     iUserCount := users;
     m_iIntraFrameCounter := intra;
     m_iFrameCounter := frame;
     m_pMasterController := m_pMasterController e;
     m_Key := m_Key e;
     m_bIsPaddedToPowerOfTwo := m_bIsPaddedToPowerOfTwo e;
     m_bIsDownsampledTo8Bits := m_bIsDownsampledTo8Bits e;
     m_bDisableBorder := m_bDisableBorder e;
     m_bEmulate3DWith2DStacks := m_bEmulate3DWith2DStacks e;
     m_bUsingHub := m_bUsingHub e;
     vData := vData e;
     volumes := volumes e |}.

Definition set_buffers (e : GLVolumeListElem) (hubflag : bool)
  (data : list byte) (vols : list (option GLVolume)) : GLVolumeListElem :=
  {| pDataset := pDataset e;
     iUserCount := iUserCount e;
     m_iIntraFrameCounter := m_iIntraFrameCounter e;
     m_iFrameCounter := m_iFrameCounter e;
     m_pMasterController := m_pMasterController e;
     m_Key := m_Key e;
     m_bIsPaddedToPowerOfTwo := m_bIsPaddedToPowerOfTwo e;
     m_bIsDownsampledTo8Bits := m_bIsDownsampledTo8Bits e;
     m_bDisableBorder := m_bDisableBorder e;
     m_bEmulate3DWith2DStacks := m_bEmulate3DWith2DStacks e;
     m_bUsingHub := hubflag;
     vData := data;
     volumes := vols |}.

(** [volumes[0]]. *)
Definition volumes0 (e : GLVolumeListElem) : option GLVolume :=
  match volumes e with
  | v :: _ => v
  | [] => None
  end.

(** [GLVolumeListElem::Access]: stamps the entry, counts the user and
    returns [volumes[0]]. *)
Definition Access (e : GLVolumeListElem) (iIntraFrameCounter iFrameCounter : Z)
  : option GLVolume * GLVolumeListElem :=
  (volumes0 e,
   set_counters e iIntraFrameCounter iFrameCounter (iUserCount e + 1)).

(** [GLVolumeListElem::Match]. *)
Definition Match (e : GLVolumeListElem) (vDimension : UINTVECTOR3) : bool :=
  match volumes e with
  | [] => false
  | _ :: _ =>
    let vSize := GetBrickVoxelCounts (pDataset e) (m_Key e) in
    if negb (vx vSize =? vx vDimension) then false
    else if negb (vy vSize =? vy vDimension) then false
    else if negb (vz vSize =? vz vDimension) then false
    else true
  end.

(** [GLVolumeListElem::BestMatch]. The two [UINT64&] counters are returned
    next to the boolean. *)
Definition BestMatch (e : GLVolumeListElem) (vDimension : UINTVECTOR3)
  (bIsPaddedToPowerOfTwo bIsDownsampledTo8Bits bDisableBorder
   bEmulate3DWith2DStacks : bool)
  (iIntraFrameCounter iFrameCounter : Z) : bool * (Z * Z) :=
  if negb (Match e vDimension)
     || (0 <? iUserCount e)
     || negb (Bool.eqb (m_bIsPaddedToPowerOfTwo e) bIsPaddedToPowerOfTwo)
     || negb (Bool.eqb (m_bIsDownsampledTo8Bits e) bIsDownsampledTo8Bits)
     || negb (Bool.eqb (m_bDisableBorder e) bDisableBorder)
     || negb (Bool.eqb (m_bEmulate3DWith2DStacks e) bEmulate3DWith2DStacks)
  then (false, (iIntraFrameCounter, iFrameCounter))
  else if m_iFrameCounter e <? iFrameCounter
  then (true, (m_iIntraFrameCounter e, m_iFrameCounter e))
  else if (iFrameCounter =? m_iFrameCounter e)
          && (iIntraFrameCounter <? m_iIntraFrameCounter e)
  then (true, (m_iIntraFrameCounter e, m_iFrameCounter e))
  else (false, (iIntraFrameCounter, iFrameCounter)).

(** Modelled from the spec: the manager's best-match search, the loop that
    calls [BestMatch] on every entry of the brick list, is not part of the
    available sources. It walks the list once, threads the two target counters through the
    calls and remembers the position of the last entry that answered
    [true]. The counters the search starts from are parameters. *)
Fixpoint BestMatchLoop (l : list GLVolumeListElem) (pos : nat)
  (vDimension : UINTVECTOR3) (bPow2 b8Bit bBorder b2D : bool)
  (iBestMatch : option nat) (iTargetIntra iTargetFrame : Z) : option nat :=
  match l with
  | [] => iBestMatch
  | e :: rest =>
    let '(hit, (intra', frame')) :=
      BestMatch e vDimension bPow2 b8Bit bBorder b2D iTargetIntra iTargetFrame in
    BestMatchLoop rest (S pos) vDimension bPow2 b8Bit bBorder b2D
      (if hit then Some pos else iBestMatch) intra' frame'
  end.

Definition BestMatchSearch (l : list GLVolumeListElem)
  (vDimension : UINTVECTOR3) (bPow2 b8Bit bBorder b2D : bool)
  (iTargetIntra iTargetFrame : Z) : option nat :=
  BestMatchLoop l 0 vDimension bPow2 b8Bit bBorder b2D None
    iTargetIntra iTargetFrame.

(** ** The dataset registry of [GPUMemMan] *)

(** A requester ([AbstrRenderer*]) is known by its address. *)
Definition AbstrRenderer : Type := nat.

(** A [VolumeDataset*]: the object's address and the file it was opened
    from. *)
Record VolumeDataset : Type := {
  vd_addr : nat;
  Filename : string
}.

Record VolDataListElem : Type := {
  pVolumeDataset : VolumeDataset;
  qpUser : list AbstrRenderer
}.

(** The manager's registry, with the heap of [VolumeDataset] objects it
    allocates: [live] lists the addresses that were returned by [new] and
    not yet passed to [delete]; [next_addr] is the next address [new]
    hands out. *)
Record GPUMemMan : Type := {
  m_vpVolumeDatasets : list VolDataListElem;
  live : list nat;
  next_addr : nat
}.

Definition GPUMemMan_new : GPUMemMan :=
  {| m_vpVolumeDatasets := []; live := []; next_addr := 1 |}.

(** The first loop of [LoadDataset]: the first entry with this filename
    gets the requester appended to its users. *)
Fixpoint LoadDataset_reuse (l : list VolDataListElem) (strFilename : string)
  (requester : AbstrRenderer) : option (VolumeDataset * list VolDataListElem) :=
  match l with
  | [] => None
  | i :: rest =>
    if String.eqb (Filename (pVolumeDataset i)) strFilename
    then Some (pVolumeDataset i,
               {| pVolumeDataset := pVolumeDataset i;
                  qpUser := qpUser i ++ [requester] |} :: rest)
    else match LoadDataset_reuse rest strFilename requester with
         | Some (d, rest') => Some (d, i :: rest')
         | None => None
         end
  end.

(** [GPUMemMan::LoadDataset]. [IsLoaded] tells whether opening the file
    succeeds; [None] is the [NULL] result. *)
Definition LoadDataset (IsLoaded : string -> bool) (m : GPUMemMan)
  (strFilename : string) (requester : AbstrRenderer)
  : option VolumeDataset * GPUMemMan :=
  match LoadDataset_reuse (m_vpVolumeDatasets m) strFilename requester with
  | Some (d, l') =>
    (Some d, {| m_vpVolumeDatasets := l'; live := live m;
                next_addr := next_addr m |})
  | None =>
    let dataset := {| vd_addr := next_addr m; Filename := strFilename |} in
    if IsLoaded strFilename
    then (Some dataset,
          {| m_vpVolumeDatasets :=
               m_vpVolumeDatasets m ++
               [{| pVolumeDataset := dataset; qpUser := [requester] |}];
             live := next_addr m :: live m;
             next_addr := S (next_addr m) |})
    else (None,
          {| m_vpVolumeDatasets := m_vpVolumeDatasets m;
             live := next_addr m :: live m;
             next_addr := S (next_addr m) |})
  end.

Inductive FreeOutcome : Type :=
| Released        (* "Released Dataset" *)
| StillInUse      (* "Decreased access count but dataset is still in use" *)
| NotFound.       (* "not found or not being used by requester" *)

(** The loops of [FreeDataset]. The inner loop over [qpUser] ends in an
    unconditional [break], so its body runs for the first user only; when
    that user is not the requester the outer loop goes on with the next
    entry. [None]: both loops ran out. *)
Fixpoint FreeDataset_scan (l : list VolDataListElem) (p : VolumeDataset)
  (requester : AbstrRenderer) : option (FreeOutcome * list VolDataListElem) :=
  match l with
  | [] => None
  | i :: rest =>
    let next :=
      match FreeDataset_scan rest p requester with
      | Some (o, rest') => Some (o, i :: rest')
      | None => None
      end in
    if Nat.eqb (vd_addr (pVolumeDataset i)) (vd_addr p)
    then match qpUser i with
         | j :: users =>
           if Nat.eqb j requester
           then match users with
                | [] => Some (Released, rest)
                | _ :: _ =>
                  Some (StillInUse,
                        {| pVolumeDataset := pVolumeDataset i;
                           qpUser := users |} :: rest)
                end
           else next
         | [] => next
         end
    else next
  end.

(** [GPUMemMan::FreeDataset]; [delete] takes the address off the heap. *)
Definition FreeDataset (m : GPUMemMan) (p : VolumeDataset)
  (requester : AbstrRenderer) : FreeOutcome * GPUMemMan :=
  match FreeDataset_scan (m_vpVolumeDatasets m) p requester with
  | Some (Released, l') =>
    (Released,
     {| m_vpVolumeDatasets := l';
        live := filter (fun a => negb (Nat.eqb a (vd_addr p))) (live m);
        next_addr := next_addr m |})
  | Some (o, l') =>
    (o, {| m_vpVolumeDatasets := l'; live := live m;
           next_addr := next_addr m |})
  | None => (NotFound, m)
  end.

(** The dataset is in the registry. *)
Definition registered (m : GPUMemMan) (p : VolumeDataset) : bool :=
  existsb (fun i => Nat.eqb (vd_addr (pVolumeDataset i)) (vd_addr p))
          (m_vpVolumeDatasets m).

(** The dataset object is allocated. *)
Definition alive (m : GPUMemMan) (p : VolumeDataset) : bool :=
  existsb (Nat.eqb (vd_addr p)) (live m).

(** ** Byte buffers *)

Definition peek (buf : list byte) (i : nat) : byte := nth i buf 0.

Fixpoint poke (buf : list byte) (i : nat) (b : byte) : list byte :=
  match buf, i with
  | [], _ => []
  | _ :: t, O => b :: t
  | h :: t, S i' => h :: poke t i' b
  end.

(** [memcpy(dst + d, src + s, n)] for regions that do not overlap. *)
Definition memcpy (dst : list byte) (d : nat) (src : list byte) (s n : nat)
  : list byte :=
  firstn d dst ++ firstn n (skipn s src) ++ skipn (d + n) dst.

(** [memset(p, 0, n)] on a fresh array of [n] bytes. *)
Definition zeroed (n : nat) : list byte := repeat 0 n.

(** ** Powers of two *)

(** Modelled from the spec: [MathTools::IsPow2] (Basics/MathTools.h) is not
    part of the available sources; a positive size is a power of two when
    it equals two to the power of its binary logarithm. *)
Definition IsPow2 (n : nat) : bool := Nat.eqb n (2 ^ Nat.log2 n).

(** Modelled from the spec: [MathTools::NextPow2] (Basics/MathTools.h) is not
    part of the available sources; the spec has it leave a power of two as
    it is, and send any other size to the next power of two above it. *)
Definition NextPow2 (n : nat) : nat :=
  if IsPow2 n then n else 2 ^ S (Nat.log2 n).

(** ** The padding transform *)

Definition NATVECTOR3 : Type := (nat * nat * nat)%type.

(** The loop state of [PadData]: the target array and the two running
    offsets. *)
Record PadState : Type := {
  pPaddedData : list byte;
  iTarget : nat;
  iSource : nat
}.

(** Body of the inner loop (one source row). *)
Definition PadData_row (bDisableBorder : bool) (pRawData : list byte)
  (iElementSize iRowSizeSource iRowSizeTarget : nat) (st : PadState)
  : PadState :=
  let buf1 := memcpy (pPaddedData st) (iTarget st)
                     pRawData (iSource st) iRowSizeSource in
  let buf2 :=
    if negb bDisableBorder && (iRowSizeSource <? iRowSizeTarget)%nat
    then memcpy buf1 (iTarget st + iRowSizeSource)
                buf1 (iTarget st + iRowSizeSource - iElementSize)
                iElementSize
    else buf1 in
  {| pPaddedData := buf2;
     iTarget := (iTarget st + iRowSizeTarget)%nat;
     iSource := (iSource st + iRowSizeSource)%nat |}.

(** Body of the outer loop (one source plane): the rows, then the first
    padded row. *)
Definition PadData_plane (bDisableBorder : bool) (pRawData : list byte)
  (iElementSize iRowSizeSource iRowSizeTarget sy py : nat) (st : PadState)
  : PadState :=
  let st1 :=
    Nat.iter sy (PadData_row bDisableBorder pRawData iElementSize
                             iRowSizeSource iRowSizeTarget) st in
  if (sy <? py)%nat
  then {| pPaddedData :=
            if negb bDisableBorder
            then memcpy (pPaddedData st1) (iTarget st1)
                        (pPaddedData st1) (iTarget st1 - iRowSizeTarget)
                        iRowSizeTarget
            else pPaddedData st1;
          iTarget := (iTarget st1 + (py - sy) * iRowSizeTarget)%nat;
          iSource := iSource st1 |}
  else st1.

(** [GLVolumeListElem::PadData]. [bDisableBorder] is the member
    [m_bDisableBorder]; the array allocation is taken to succeed (the
    [bad_alloc] handler returns a null array). *)
Definition PadData (bDisableBorder : bool) (pRawData : list byte)
  (vSize : NATVECTOR3) (iBitWidth iCompCount : nat)
  : list byte * NATVECTOR3 :=
  let '(sx, sy, sz) := vSize in
  let vPaddedSize := (NextPow2 sx, NextPow2 sy, NextPow2 sz) in
  let '(px, py, pz) := vPaddedSize in
  let iElementSize := (iBitWidth / 8 * iCompCount)%nat in
  let iRowSizeSource := (sx * iElementSize)%nat in
  let iRowSizeTarget := (px * iElementSize)%nat in
  let st0 := {| pPaddedData := zeroed (iRowSizeTarget * py * pz);
                iTarget := 0%nat; iSource := 0%nat |} in
  let st1 :=
    Nat.iter sz (PadData_plane bDisableBorder pRawData iElementSize
                               iRowSizeSource iRowSizeTarget sy py) st0 in
  let buf :=
    if negb bDisableBorder && (sz <? pz)%nat
    then memcpy (pPaddedData st1) (iTarget st1)
                (pPaddedData st1) (iTarget st1 - py * iRowSizeTarget)
                (py * iRowSizeTarget)
    else pPaddedData st1 in
  (buf, vPaddedSize).

(** Offset of byte [b] of voxel [(x, y, z)] in a row-major array of
    [dx * dy * _] voxels of [es] bytes. *)
Definition voxel_offset (dx dy es x y z b : nat) : nat :=
  (((z * dy + y) * dx + x) * es + b)%nat.

(** Where a padded coordinate [c] takes its value from, for a source extent
    [s]: itself inside the source, the last source coordinate for the first
    padded position when the border is replicated, nothing beyond. *)
Definition replicated (bDisableBorder : bool) (s c : nat) : option nat :=
  if (c <? s)%nat then Some c
  else if negb bDisableBorder && (c =? s)%nat then Some (s - 1)%nat
  else None.

(** The byte [PadData] leaves at byte [b] of padded voxel [(x, y, z)]. *)
Definition padded_byte (bDisableBorder : bool) (pRawData : list byte)
  (vSize : NATVECTOR3) (es x y z b : nat) : byte :=
  let '(sx, sy, sz) := vSize in
  match replicated bDisableBorder sx x,
        replicated bDisableBorder sy y,
        replicated bDisableBorder sz z with
  | Some x', Some y', Some z' =>
    peek pRawData (voxel_offset sx sy es x' y' z' b)
  | _, _, _ => 0
  end.

(** Clamp-to-edge addressing: the nearest coordinate inside the source. *)
Definition clamp_to_edge (s c : nat) : nat := Nat.min c (s - 1).

(** ** Loading, quantizing and uploading a brick *)

(** [vSize[0]*vSize[1]*vSize[2]] on [unsigned int] operands. *)
Definition voxel_count (vSize : UINTVECTOR3) : Z :=
  wrap32 (wrap32 (vx vSize * vy vSize) * vz vSize).

Definition is_empty {A : Type} (l : list A) : bool :=
  match l with
  | [] => true
  | _ :: _ => false
  end.

(** How a call of [CreateTexture] or [Replace] ends: it returns its flag;
    or [std::vector::at] throws [std::out_of_range], the entry and the hub
    being what they are at the throw; or the execution has no defined
    behaviour. *)
Inductive Outcome : Type :=
| Returned (ok : bool) (e : GLVolumeListElem) (vUploadHub : list byte)
| OutOfRange (e : GLVolumeListElem) (vUploadHub : list byte)
| Undefined.

(** A call that returns the flag, the entry and the hub of [r]. *)
Definition returned (r : bool * GLVolumeListElem * list byte) : Outcome :=
  Returned (fst (fst r)) (snd (fst r)) (snd r).

(** The entry a call leaves behind. *)
Definition entry_of (o : Outcome) : option GLVolumeListElem :=
  match o with
  | Returned _ e _ => Some e
  | OutOfRange e _ => Some e
  | Undefined => None
  end.

(** How the constructor ends: with an entry; or with the exception of
    [CreateTexture] passing through it, and then there is no entry; or in
    undefined behaviour. *)
Inductive Construction : Type :=
| Constructed (e : GLVolumeListElem) (vUploadHub : list byte)
| NotConstructed (vUploadHub : list byte)
| ConstructionUndefined.

(** The bytes of the texture in [volumes[0]] of the constructed entry. *)
Definition uploaded (c : Construction) : option (list byte) :=
  match c with
  | Constructed e _ =>
    match volumes e with
    | Some v :: _ => Some (vol_data v)
    | _ => None
    end
  | _ => None
  end.

(** [GLVolumeListElem::FreeData]. *)
Definition FreeData (e : GLVolumeListElem) : GLVolumeListElem :=
  set_buffers e (m_bUsingHub e) [] (volumes e).

(** [GLVolumeListElem::FreeTexture]. *)
Definition FreeTexture (e : GLVolumeListElem) : GLVolumeListElem :=
  match volumes e with
  | Some _ :: rest => set_buffers e (m_bUsingHub e) (vData e) (None :: rest)
  | _ => e
  end.

(** [iBrickSize] of [LoadData]: the 32-bit voxel count, widened by the
    [UINT64] factors. *)
Definition iBrickSize (e : GLVolumeListElem) : Z :=
  let vSize := GetBrickVoxelCounts (pDataset e) (m_Key e) in
  let iByteWidth := GetBitWidth (pDataset e) / 8 in
  let iCompCount := GetComponentCount (pDataset e) in
  wrap64 (wrap64 (voxel_count vSize * iByteWidth) * iCompCount).

(** The condition of [LoadData]'s [if]: the hub is there and the brick is
    small enough for it. *)
Definition uses_hub (e : GLVolumeListElem) (vUploadHub : list byte) : bool :=
  negb (is_empty vUploadHub)
  && (iBrickSize e <=? wrap64 (GetIncoresize (m_pMasterController e) * 4)).

(** [GLVolumeListElem::LoadData]: the result flag, the entry and the hub
    afterwards. *)
Definition LoadData (e : GLVolumeListElem) (vUploadHub : list byte)
  : bool * GLVolumeListElem * list byte :=
  if uses_hub e vUploadHub
  then
    let r := GetBrick (pDataset e) (m_Key e) vUploadHub in
    (fst r, set_buffers e true (vData e) (volumes e), snd r)
  else
    let r := GetBrick (pDataset e) (m_Key e) (vData e) in
    (fst r, set_buffers e (m_bUsingHub e) (snd r) (volumes e), vUploadHub).

(** The quantization expression of [CreateTexture],
    [(unsigned char)((255.0*v - fMin) / (fMax-fMin))], in double
    arithmetic, [v] being the [unsigned short] read from the buffer. *)
Definition Quantize (fMin fMax : float) (v : Z) : option byte :=
  uchar_of_double ((255 * double_of_ushort v - fMin) / (fMax - fMin))%float.

(** The formula of the specification, [(v - min) / (max - min) * 255],
    rounded down. *)
Definition QuantizeSpec (fMin fMax v : Z) : Z :=
  ((v - fMin) * 255) / (fMax - fMin).

(** Modelled from the spec: [EndianConvert::Swap<short>] is not part of the
    available sources; it exchanges the two bytes of the element at
    [p + i]. *)
Definition Swap_short (buf : list byte) (i : nat) : list byte :=
  poke (poke buf (2 * i)%nat (peek buf (2 * i + 1)%nat))
       (2 * i + 1)%nat (peek buf (2 * i)%nat).

(** The other byte of the 16-bit element that byte [j] belongs to. *)
Definition partner (j : nat) : nat :=
  if Nat.even j then (j + 1)%nat else (j - 1)%nat.

Section Host.

(** Byte order of the machine the code runs on. *)
Variable bHostLittleEndian : bool.

(** Element [i] of [pRawData] read as an array of [unsigned short]. *)
Definition load_ushort (buf : list byte) (i : nat) : Z :=
  if bHostLittleEndian
  then peek buf (2 * i)%nat + 256 * peek buf (2 * i + 1)%nat
  else 256 * peek buf (2 * i)%nat + peek buf (2 * i + 1)%nat.

(** The quantization loop: [n] iterations starting at index [i], each
    reading element [i] as a short and writing byte [i] of the same
    buffer. There is no result once a conversion has none. *)
Fixpoint quantize_loop (fMin fMax : float) (n i : nat) (buf : list byte)
  : option (list byte) :=
  match n with
  | O => Some buf
  | S n' =>
    match Quantize fMin fMax (load_ushort buf i) with
    | Some iQuantizedVal =>
      quantize_loop fMin fMax n' (S i) (poke buf i iQuantizedVal)
    | None => None
    end
  end.

(** The byte-swapping loop. *)
Fixpoint swap_loop (n i : nat) (buf : list byte) : list byte :=
  match n with
  | O => buf
  | S n' => swap_loop n' (S i) (Swap_short buf i)
  end.

(** The first [switch (iCompCount)]. *)
Definition select_format (iCompCount : Z) : option GLFormat :=
  if iCompCount =? 1 then Some GL_LUMINANCE
  else if iCompCount =? 3 then Some GL_RGB
  else if iCompCount =? 4 then Some GL_RGBA
  else None.

Definition select_internal8 (iCompCount : Z) : option GLInternalFormat :=
  if iCompCount =? 1 then Some GL_LUMINANCE8
  else if iCompCount =? 3 then Some GL_RGB8
  else if iCompCount =? 4 then Some GL_RGBA8
  else None.

Definition select_internal16 (iCompCount : Z) : option GLInternalFormat :=
  if iCompCount =? 1 then Some GL_LUMINANCE16
  else if iCompCount =? 3 then Some GL_RGB16
  else if iCompCount =? 4 then Some GL_RGBA16
  else None.

(** [volumes[0] = v]. *)
Definition set_volumes0 (e : GLVolumeListElem) (v : GLVolume)
  : GLVolumeListElem :=
  match volumes e with
  | _ :: rest => set_buffers e (m_bUsingHub e) (vData e) (Some v :: rest)
  | [] => e
  end.

Definition to_nat3 (v : UINTVECTOR3) : NATVECTOR3 :=
  (Z.to_nat (vx v), Z.to_nat (vy v), Z.to_nat (vz v)).

Definition of_nat3 (v : NATVECTOR3) : UINTVECTOR3 :=
  (Z.of_nat (fst (fst v)), Z.of_nat (snd (fst v)), Z.of_nat (snd v)).

(** What is written through [pRawData] lands in the hub when the entry
    uses it, in [vData] otherwise. *)
Definition hub_after (e : GLVolumeListElem) (vUploadHub pRawData : list byte)
  : list byte :=
  if m_bUsingHub e then pRawData else vUploadHub.

(** The last part of [CreateTexture], from [glGetError()] on: the volume
    is built from the raw or the padded data, the staging data is freed.
    [glerr] tells whether the GL reports an error for the upload. *)
Definition CreateTexture_upload (e : GLVolumeListElem)
  (vUploadHub pRawData : list byte) (iBitWidth iCompCount : Z)
  (glInternalformat : GLInternalFormat) (glFormat : GLFormat)
  (glType : GLType) (glerr : bool)
  : bool * GLVolumeListElem * list byte :=
  let vSize := GetBrickVoxelCounts (pDataset e) (m_Key e) in
  let clamp := if m_bDisableBorder e then GL_CLAMP_TO_EDGE else GL_CLAMP in
  let kind :=
    if m_bEmulate3DWith2DStacks e then GLVolume2DTex else GLVolume3DTex in
  let iSizePerElement := wrap32 (wrap64 (iBitWidth / 8 * iCompCount)) in
  let vol :=
    if negb (m_bIsPaddedToPowerOfTwo e)
       || (IsPow2 (Z.to_nat (vx vSize))
           && IsPow2 (Z.to_nat (vy vSize))
           && IsPow2 (Z.to_nat (vz vSize)))
    then {| vol_kind := kind; vol_size := vSize;
            vol_internalformat := glInternalformat;
            vol_format := glFormat; vol_type := glType;
            vol_sizePerElement := iSizePerElement;
            vol_data := pRawData; vol_clamp := clamp |}
    else
      let padded :=
        PadData (m_bDisableBorder e) pRawData (to_nat3 vSize)
                (Z.to_nat iBitWidth) (Z.to_nat iCompCount) in
      {| vol_kind := kind; vol_size := of_nat3 (snd padded);
         vol_internalformat := glInternalformat;
         vol_format := glFormat; vol_type := glType;
         vol_sizePerElement := iSizePerElement;
         vol_data := fst padded; vol_clamp := clamp |} in
  (negb glerr, FreeData (set_volumes0 e vol),
   hub_after e vUploadHub pRawData).

(** The middle part of [CreateTexture]: the format selection by component
    count and bit width, with the byte swap of 16-bit data. *)
Definition CreateTexture_format (e : GLVolumeListElem)
  (vUploadHub pRawData : list byte) (iBitWidth : Z) (glerr : bool)
  : bool * GLVolumeListElem * list byte :=
  let vSize := GetBrickVoxelCounts (pDataset e) (m_Key e) in
  let bToggleEndian := negb (IsSameEndianness (pDataset e)) in
  let iCompCount := GetComponentCount (pDataset e) in
  let failed := (false, FreeData e, hub_after e vUploadHub pRawData) in
  match select_format iCompCount with
  | None => failed
  | Some glFormat =>
    if iBitWidth =? 8 then
      match select_internal8 iCompCount with
      | Some glInternalformat =>
        CreateTexture_upload e vUploadHub pRawData iBitWidth iCompCount
          glInternalformat glFormat GL_UNSIGNED_BYTE glerr
      | None => failed
      end
    else if iBitWidth =? 16 then
      let pRawData' :=
        if bToggleEndian
        then swap_loop (Z.to_nat (wrap64 (iCompCount * voxel_count vSize)))
                       0 pRawData
        else pRawData in
      match select_internal16 iCompCount with
      | Some glInternalformat =>
        CreateTexture_upload e vUploadHub pRawData' iBitWidth iCompCount
          glInternalformat glFormat GL_UNSIGNED_SHORT glerr
      | None => (false, FreeData e, hub_after e vUploadHub pRawData')
      end
    else if iBitWidth =? 32 then
      CreateTexture_upload e vUploadHub pRawData iBitWidth iCompCount
        GL_LUMINANCE32F_ARB GL_LUMINANCE GL_FLOAT glerr
    else failed
  end.

(** The first part of [CreateTexture]: the optional [FreeTexture], and
    the fetch when [vData] is empty. *)
Definition CreateTexture_fetch (e : GLVolumeListElem)
  (vUploadHub : list byte) (bDeleteOldTexture : bool)
  : bool * GLVolumeListElem * list byte :=
  let e1 := if bDeleteOldTexture then FreeTexture e else e in
  if is_empty (vData e1) then LoadData e1 vUploadHub
  else (true, e1, vUploadHub).

(** [GLVolumeListElem::CreateTexture]. [&vUploadHub.at(0)] and
    [&vData.at(0)] throw when the vector is empty. *)
Definition CreateTexture (e : GLVolumeListElem) (vUploadHub : list byte)
  (bDeleteOldTexture : bool) (glerr : bool) : Outcome :=
  let '(loaded, e2, hub2) :=
    CreateTexture_fetch e vUploadHub bDeleteOldTexture in
  if negb loaded then Returned false e2 hub2
  else
    let pRawData := if m_bUsingHub e2 then hub2 else vData e2 in
    if is_empty pRawData then OutOfRange e2 hub2
    else
      let vSize := GetBrickVoxelCounts (pDataset e2) (m_Key e2) in
      let iBitWidth := GetBitWidth (pDataset e2) in
      let iCompCount := GetComponentCount (pDataset e2) in
      if m_bIsDownsampledTo8Bits e2 && negb (iBitWidth =? 8) then
        if negb (iBitWidth =? 16) then Returned false (FreeData e2) hub2
        else
          let fMin := fst (GetRange (pDataset e2)) in
          let fMax := snd (GetRange (pDataset e2)) in
          match quantize_loop fMin fMax
                  (Z.to_nat (wrap64 (voxel_count vSize * iCompCount))) 0
                  pRawData with
          | Some pRawData' =>
            returned (CreateTexture_format e2 hub2 pRawData' 8 glerr)
          | None => Undefined
          end
      else returned (CreateTexture_format e2 hub2 pRawData iBitWidth glerr).

(** The constructor [GLVolumeListElem::GLVolumeListElem]. [volumes] is an
    array of one pointer, filled with null; [CreateTexture] is called
    with its second parameter left to the default, which makes no
    difference while every volume is null. *)
Definition GLVolumeListElem_new (_pDataset : Dataset) (key : BrickKey)
  (bIsPaddedToPowerOfTwo bIsDownsampledTo8Bits bDisableBorder
   bEmulate3DWith2DStacks : bool)
  (iIntraFrameCounter iFrameCounter : Z)
  (pMasterController : MasterController) (vUploadHub : list byte)
  (glerr : bool) : Construction :=
  let e0 :=
    {| pDataset := _pDataset;
       iUserCount := 1;
       m_iIntraFrameCounter := iIntraFrameCounter;
       m_iFrameCounter := iFrameCounter;
       m_pMasterController := pMasterController;
       m_Key := key;
       m_bIsPaddedToPowerOfTwo := bIsPaddedToPowerOfTwo;
       m_bIsDownsampledTo8Bits := bIsDownsampledTo8Bits;
       m_bDisableBorder := bDisableBorder;
       m_bEmulate3DWith2DStacks := bEmulate3DWith2DStacks;
       m_bUsingHub := false;
       vData := [];
       volumes := [None] |} in
  match CreateTexture e0 vUploadHub true glerr with
  | Returned ok e1 hub1 =>
    match negb ok, volumes0 e1 with
    | true, Some _ => Constructed (FreeTexture e1) hub1
    | _, _ => Constructed e1 hub1
    end
  | OutOfRange _ hub1 => NotConstructed hub1
  | Undefined => ConstructionUndefined
  end.

End Host.

(** ** Reading [PadData]'s result row by row *)

(** Where byte [xb] of a padded row takes its value from, for source rows
    of [rs] bytes and elements of [es] bytes. *)
Definition replicated_byte (bDisableBorder : bool) (es rs xb : nat)
  : option nat :=
  if (xb <? rs)%nat then Some xb
  else if negb bDisableBorder && (xb <? rs + es)%nat then Some (xb - es)%nat
  else None.

(** The byte [PadData] leaves at offset [xb] of row [y] of plane [z]. *)
Definition row_byte (bDisableBorder : bool) (pRawData : list byte)
  (es sx sy sz z y xb : nat) : byte :=
  match replicated_byte bDisableBorder es (sx * es) xb,
        replicated bDisableBorder sy y,
        replicated bDisableBorder sz z with
  | Some xb', Some y', Some z' =>
    peek pRawData ((z' * sy + y') * (sx * es) + xb')
  | _, _, _ => 0
  end.

(** Loop invariant of [PadData]: once [R] target rows are behind [iTarget],
    these rows hold their final bytes and the rest of the array is still
    zero. *)
Definition pad_inv (bDisableBorder : bool) (pRawData : list byte)
  (es sx sy sz px py pz R : nat) (buf : list byte) : Prop :=
  length buf = (px * es * py * pz)%nat /\
  forall z y xb : nat,
    (z < pz)%nat -> (y < py)%nat -> (xb < px * es)%nat ->
    peek buf ((z * py + y) * (px * es) + xb) =
    if (z * py + y <? R)%nat
    then row_byte bDisableBorder pRawData es sx sy sz z y xb
    else 0.

(** The reading of border replication as clamp-to-edge addressing over the
    whole padding region: every padded voxel outside the source takes the
    bytes of the nearest source voxel. *)
Definition clamp_replicated (pRawData : list byte) (vSize : NATVECTOR3)
  (iBitWidth iCompCount : nat) : Prop :=
  let '(sx, sy, sz) := vSize in
  let es := (iBitWidth / 8 * iCompCount)%nat in
  let px := NextPow2 sx in
  let py := NextPow2 sy in
  let pz := NextPow2 sz in
  forall x y z b : nat,
    (x < px)%nat -> (y < py)%nat -> (z < pz)%nat -> (b < es)%nat ->
    (sx <= x \/ sy <= y \/ sz <= z)%nat ->
    peek (fst (PadData false pRawData vSize iBitWidth iCompCount))
         (voxel_offset px py es x y z b) =
    peek pRawData
         (voxel_offset sx sy es (clamp_to_edge sx x) (clamp_to_edge sy y)
                       (clamp_to_edge sz z) b).

(** ** Sample data *)

(** A dataset of one brick: its extents, bit width, component count, value
    range, byte order flag and bytes. *)
Definition sample_dataset (vSize : UINTVECTOR3) (iBitWidth iCompCount : Z)
  (range : float * float) (bSameEndianness : bool) (data : list byte)
  : Dataset :=
  {| ds_addr := 1;
     GetBrickVoxelCounts := fun _ => vSize;
     GetBitWidth := iBitWidth;
     GetComponentCount := iCompCount;
     GetRange := range;
     IsSameEndianness := bSameEndianness;
     GetBrick := fun _ _ => (true, data) |}.


Definition sample_controller : MasterController :=
  {| GetIncoresize := 1024 |}.

(** An entry for brick (0, 0) of [ds] that holds neither data nor a
    texture, all format flags off but the downsampling flag. *)
Definition blank_entry (ds : Dataset) (b8Bit : bool) : GLVolumeListElem :=
  {| pDataset := ds;
     iUserCount := 1;
     m_iIntraFrameCounter := 0;
     m_iFrameCounter := 0;
     m_pMasterController := sample_controller;
     m_Key := (0%nat, 0%nat);
     m_bIsPaddedToPowerOfTwo := false;
     m_bIsDownsampledTo8Bits := b8Bit;
     m_bDisableBorder := false;
     m_bEmulate3DWith2DStacks := false;
     m_bUsingHub := false;
     vData := [];
     volumes := [None] |}.

Definition sample_volume : GLVolume :=
  {| vol_kind := GLVolume3DTex; vol_size := (4, 4, 4);
     vol_internalformat := GL_LUMINANCE8; vol_format := GL_LUMINANCE;
     vol_type := GL_UNSIGNED_BYTE; vol_sizePerElement := 1;
     vol_data := []; vol_clamp := GL_CLAMP |}.

(** A resident 4 x 4 x 4 brick with the given user count and recency
    stamps, all format flags off. *)
Definition sample_entry (users intra frame : Z) : GLVolumeListElem :=
  {| pDataset := sample_dataset (4, 4, 4) 8 1 (0, 255)%float true [];
     iUserCount := users;
     m_iIntraFrameCounter := intra;
     m_iFrameCounter := frame;
     m_pMasterController := sample_controller;
     m_Key := (0%nat, 0%nat);
     m_bIsPaddedToPowerOfTwo := false;
     m_bIsDownsampledTo8Bits := false;
     m_bDisableBorder := false;
     m_bEmulate3DWith2DStacks := false;
     m_bUsingHub := false;
     vData := [];
     volumes := [Some sample_volume] |}.

(** The entries A, B and C of the LRU example. *)
Definition entry_A : GLVolumeListElem := sample_entry 0 5 1.
Definition entry_B : GLVolumeListElem := sample_entry 0 2 1.
Definition entry_C : GLVolumeListElem := sample_entry 0 0 2.

(** The recency stamps (frame, intra-frame) of the entry a search selects. *)
Definition selected_stamps (l : list GLVolumeListElem) (r : option nat)
  : option (Z * Z) :=
  match r with
  | Some p =>
    match nth_error l p with
    | Some e => Some (m_iFrameCounter e, m_iIntraFrameCounter e)
    | None => None
    end
  | None => None
  end.

(** [Access] called once per stamp pair. *)
Definition Access_all (e : GLVolumeListElem) (stamps : list (Z * Z))
  : GLVolumeListElem :=
  fold_left (fun e' s => snd (Access e' (fst s) (snd s))) stamps e.

(** ** Replacement order *)

(** An entry that answers the request's shape and flags, is not in use and
    carries a frame stamp below the one the search starts from. *)
Definition candidate (vDimension : UINTVECTOR3)
  (bPow2 b8Bit bBorder b2D : bool) (iTargetFrame : Z)
  (e : GLVolumeListElem) : Prop :=
  Match e vDimension = true /\
  iUserCount e = 0 /\
  m_bIsPaddedToPowerOfTwo e = bPow2 /\
  m_bIsDownsampledTo8Bits e = b8Bit /\
  m_bDisableBorder e = bBorder /\
  m_bEmulate3DWith2DStacks e = b2D /\
  m_iFrameCounter e < iTargetFrame.

(** Least recently used first: the older frame, then the smaller
    intra-frame counter. *)
Definition lru_before (a b : GLVolumeListElem) : Prop :=
  m_iFrameCounter a < m_iFrameCounter b \/
  (m_iFrameCounter a = m_iFrameCounter b /\
   m_iIntraFrameCounter a <= m_iIntraFrameCounter b).

(** The older frame first, then the larger intra-frame counter. *)
Definition replaced_before (a b : GLVolumeListElem) : Prop :=
  m_iFrameCounter a < m_iFrameCounter b \/
  (m_iFrameCounter a = m_iFrameCounter b /\
   m_iIntraFrameCounter b <= m_iIntraFrameCounter a).

(** The search result [r] is the position of an entry of [l] that comes
    first in the given order. *)
Definition selects_first (before : GLVolumeListElem -> GLVolumeListElem -> Prop)
  (l : list GLVolumeListElem) (r : option nat) : Prop :=
  exists (p : nat) (e : GLVolumeListElem),
    r = Some p /\ nth_error l p = Some e /\
    forall e', In e' l -> before e e'.

(** ** Identity of an entry, and replacement in place *)

Definition BrickKey_eqb (a b : BrickKey) : bool :=
  Nat.eqb (fst a) (fst b) && Nat.eqb (snd a) (snd b).

(** [GLVolumeListElem::Equals]; the two [Dataset*] are compared by
    address. *)
Definition Equals (e : GLVolumeListElem) (_pDataset : Dataset)
  (key : BrickKey)
  (bIsPaddedToPowerOfTwo bIsDownsampledTo8Bits bDisableBorder
   bEmulate3DWith2DStacks : bool) : bool :=
  if negb (Nat.eqb (ds_addr _pDataset) (ds_addr (pDataset e)))
     || negb (BrickKey_eqb (m_Key e) key)
     || negb (Bool.eqb (m_bIsPaddedToPowerOfTwo e) bIsPaddedToPowerOfTwo)
     || negb (Bool.eqb (m_bIsDownsampledTo8Bits e) bIsDownsampledTo8Bits)
     || negb (Bool.eqb (m_bDisableBorder e) bDisableBorder)
     || negb (Bool.eqb (m_bEmulate3DWith2DStacks e) bEmulate3DWith2DStacks)
  then false
  else true.

(** The assignments at the head of [Replace]. *)
Definition relabel (e : GLVolumeListElem) (_pDataset : Dataset)
  (key : BrickKey)
  (bIsPaddedToPowerOfTwo bIsDownsampledTo8Bits bDisableBorder
   bEmulate3DWith2DStacks : bool)
  (iIntraFrameCounter iFrameCounter : Z) : GLVolumeListElem :=
  {| pDataset := _pDataset;
     iUserCount := iUserCount e;
     m_iIntraFrameCounter := iIntraFrameCounter;
     m_iFrameCounter := iFrameCounter;
     m_pMasterController := m_pMasterController e;
     m_Key := key;
     m_bIsPaddedToPowerOfTwo := bIsPaddedToPowerOfTwo;
     m_bIsDownsampledTo8Bits := bIsDownsampledTo8Bits;
     m_bDisableBorder := bDisableBorder;
     m_bEmulate3DWith2DStacks := bEmulate3DWith2DStacks;
     m_bUsingHub := m_bUsingHub e;
     vData := vData e;
     volumes := volumes e |}.

(** Modelled from the spec: [GLVolume::SetData] is not part of the
    available sources; it re-uploads, replacing the bytes of the
    resource. *)
Definition SetData (v : GLVolume) (data : list byte) : GLVolume :=
  {| vol_kind := vol_kind v; vol_size := vol_size v;
     vol_internalformat := vol_internalformat v;
     vol_format := vol_format v; vol_type := vol_type v;
     vol_sizePerElement := vol_sizePerElement v;
     vol_data := data; vol_clamp := vol_clamp v |}.

(** [GLVolumeListElem::Replace]. [&vUploadHub.at(0)] and [&vData.at(0)]
    throw when the vector is empty; the call of [SetData] through a null
    [volumes[0]] is undefined; [glerr] tells whether the GL reports an
    error for the upload. *)
Definition Replace (e : GLVolumeListElem) (_pDataset : Dataset)
  (key : BrickKey)
  (bIsPaddedToPowerOfTwo bIsDownsampledTo8Bits bDisableBorder
   bEmulate3DWith2DStacks : bool)
  (iIntraFrameCounter iFrameCounter : Z) (vUploadHub : list byte)
  (glerr : bool) : Outcome :=
  if is_empty (volumes e) then Returned false e vUploadHub
  else
    let e1 := relabel e _pDataset key bIsPaddedToPowerOfTwo
                bIsDownsampledTo8Bits bDisableBorder bEmulate3DWith2DStacks
                iIntraFrameCounter iFrameCounter in
    let '(loaded, e2, hub2) := LoadData e1 vUploadHub in
    if negb loaded then Returned false e2 hub2
    else
      let pRawData := if m_bUsingHub e2 then hub2 else vData e2 in
      if is_empty pRawData then OutOfRange e2 hub2
      else
        let padded :=
          PadData (m_bDisableBorder e2) pRawData
            (to_nat3 (GetBrickVoxelCounts (pDataset e2) (m_Key e2)))
            (Z.to_nat (GetBitWidth (pDataset e2)))
            (Z.to_nat (GetComponentCount (pDataset e2))) in
        match volumes e2 with
        | Some v :: rest =>
          Returned (negb glerr)
            (set_buffers e2 (m_bUsingHub e2) (vData e2)
               (Some (SetData v (fst padded)) :: rest))
            hub2
        | _ => Undefined
        end.

(** ** Simple 2D textures of [GPUMemMan] *)

(** What [BMPLoader::Load] delivers. *)
Record TextureImage : Type := {
  img_width : Z;
  img_height : Z;
  img_data : list byte
}.

(** An entry of [m_vpSimpleTextures]; [pTexture] is the address of the
    [GLTexture2D]. *)
Record SimpleTextureListElem : Type := {
  iAccessCounter : Z;
  pTexture : nat;
  strFilename : string
}.

(** The texture list with the [GLTexture2D] objects the manager creates:
    [gl_textures] holds the addresses whose GL resource exists, [next_tex]
    is the next address [new] hands out. *)
Record SimpleTextures : Type := {
  m_vpSimpleTextures : list SimpleTextureListElem;
  gl_textures : list nat;
  next_tex : nat
}.

(** The first loop of [Load2DTextureFromFile]. *)
Fixpoint Load2DTexture_reuse (l : list SimpleTextureListElem)
  (strFilename' : string) : option (nat * list SimpleTextureListElem) :=
  match l with
  | [] => None
  | i :: rest =>
    if String.eqb (strFilename i) strFilename'
    then Some (pTexture i,
               {| iAccessCounter := iAccessCounter i + 1;
                  pTexture := pTexture i;
                  strFilename := strFilename i |} :: rest)
    else match Load2DTexture_reuse rest strFilename' with
         | Some (t, rest') => Some (t, i :: rest')
         | None => None
         end
  end.

(** [GPUMemMan::Load2DTextureFromFile]; [BMPLoad] is [BMPLoader::Load],
    [None] the [NULL] result. *)
Definition Load2DTextureFromFile (BMPLoad : string -> option TextureImage)
  (st : SimpleTextures) (strFilename' : string)
  : option nat * SimpleTextures :=
  match Load2DTexture_reuse (m_vpSimpleTextures st) strFilename' with
  | Some (t, l') =>
    (Some t, {| m_vpSimpleTextures := l'; gl_textures := gl_textures st;
                next_tex := next_tex st |})
  | None =>
    match BMPLoad strFilename' with
    | None => (None, st)
    | Some image =>
      let tex := next_tex st in
      (Some tex,
       {| m_vpSimpleTextures :=
            m_vpSimpleTextures st ++
            [{| iAccessCounter := 1; pTexture := tex;
                strFilename := strFilename' |}];
          gl_textures := tex :: gl_textures st;
          next_tex := S tex |})
    end
  end.

Inductive TextureOutcome : Type :=
| TexDeleted      (* "Deleted texture" *)
| TexStillInUse   (* "Decreased access count but the texture is still in use" *)
| TexNotFound.    (* "Texture not found" *)

(** The loop of [GPUMemMan::FreeTexture]: the first entry with this
    texture has its counter decremented and is erased at zero. *)
Fixpoint FreeTexture_scan (l : list SimpleTextureListElem) (p : nat)
  : option (TextureOutcome * list SimpleTextureListElem) :=
  match l with
  | [] => None
  | i :: rest =>
    if Nat.eqb (pTexture i) p
    then if iAccessCounter i - 1 =? 0
         then Some (TexDeleted, rest)
         else Some (TexStillInUse,
                    {| iAccessCounter := iAccessCounter i - 1;
                       pTexture := pTexture i;
                       strFilename := strFilename i |} :: rest)
    else match FreeTexture_scan rest p with
         | Some (o, rest') => Some (o, i :: rest')
         | None => None
         end
  end.

(** [GPUMemMan::FreeTexture]; [Delete] releases the GL resource. *)
Definition GPUMemMan_FreeTexture (st : SimpleTextures) (p : nat)
  : TextureOutcome * SimpleTextures :=
  match FreeTexture_scan (m_vpSimpleTextures st) p with
  | Some (TexDeleted, l') =>
    (TexDeleted,
     {| m_vpSimpleTextures := l';
        gl_textures := filter (fun a => negb (Nat.eqb a p)) (gl_textures st);
        next_tex := next_tex st |})
  | Some (o, l') =>
    (o, {| m_vpSimpleTextures := l'; gl_textures := gl_textures st;
           next_tex := next_tex st |})
  | None => (TexNotFound, st)
  end.

(** [n] calls of [Load2DTextureFromFile] for one file. *)
Fixpoint load_times (BMPLoad : string -> option TextureImage) (n : nat)
  (st : SimpleTextures) (f : string) : SimpleTextures :=
  match n with
  | O => st
  | S n' => load_times BMPLoad n' (snd (Load2DTextureFromFile BMPLoad st f)) f
  end.

(** [n] calls of [FreeTexture] for one texture. *)
Fixpoint free_times (n : nat) (st : SimpleTextures) (p : nat)
  : SimpleTextures :=
  match n with
  | O => st
  | S n' => free_times n' (snd (GPUMemMan_FreeTexture st p)) p
  end.

(** ** Registry invariants *)

(** Every address in use lies below the next one [new] hands out. *)
Definition registry_wf (m : GPUMemMan) : Prop :=
  (forall i, In i (m_vpVolumeDatasets m) ->
             (vd_addr (pVolumeDataset i) < next_addr m)%nat) /\
  (forall a, In a (live m) -> (a < next_addr m)%nat).

Definition textures_wf (st : SimpleTextures) : Prop :=
  (forall i, In i (m_vpSimpleTextures st) -> (pTexture i < next_tex st)%nat) /\
  (forall a, In a (gl_textures st) -> (a < next_tex st)%nat).

(** [FreeDataset] called once for each requester of the list, in order. *)
Definition FreeDataset_all (m : GPUMemMan) (p : VolumeDataset)
  (requesters : list AbstrRenderer) : GPUMemMan :=
  fold_left (fun m' r => snd (FreeDataset m' p r)) requesters m.

(** An entry [BestMatch] can answer [true] for. *)
Definition eligible (vDimension : UINTVECTOR3)
  (bPow2 b8Bit bBorder b2D : bool) (e : GLVolumeListElem) : Prop :=
  Match e vDimension = true /\
  iUserCount e <= 0 /\
  m_bIsPaddedToPowerOfTwo e = bPow2 /\
  m_bIsDownsampledTo8Bits e = b8Bit /\
  m_bDisableBorder e = bBorder /\
  m_bEmulate3DWith2DStacks e = b2D.

(** The two entries carry the same dataset, key, flags, stamps, user count
    and controller. *)
Definition same_label (e e' : GLVolumeListElem) : Prop :=
  pDataset e' = pDataset e /\
  m_Key e' = m_Key e /\
  m_bIsPaddedToPowerOfTwo e' = m_bIsPaddedToPowerOfTwo e /\
  m_bIsDownsampledTo8Bits e' = m_bIsDownsampledTo8Bits e /\
  m_bDisableBorder e' = m_bDisableBorder e /\
  m_bEmulate3DWith2DStacks e' = m_bEmulate3DWith2DStacks e /\
  m_iIntraFrameCounter e' = m_iIntraFrameCounter e /\
  m_iFrameCounter e' = m_iFrameCounter e /\
  iUserCount e' = iUserCount e /\
  m_pMasterController e' = m_pMasterController e.

(** The ways [CreateTexture] can end. *)
Inductive CreateTexture_end (e1 : GLVolumeListElem) (hub : list byte)
  (glerr : bool) : Outcome -> Prop :=
| ct_fetch_failed : forall e' hub',
    fst (fst (LoadData e1 hub)) = false ->
    volumes e' = volumes e1 ->
    m_bUsingHub e' = m_bUsingHub (snd (fst (LoadData e1 hub))) ->
    CreateTexture_end e1 hub glerr (Returned false e' hub')
| ct_out_of_range : forall e' hub',
    volumes e' = volumes e1 ->
    CreateTexture_end e1 hub glerr (OutOfRange e' hub')
| ct_undefined :
    CreateTexture_end e1 hub glerr Undefined
| ct_rejected : forall e' hub',
    vData e' = [] ->
    volumes e' = volumes e1 ->
    CreateTexture_end e1 hub glerr (Returned false e' hub')
| ct_uploaded : forall e' hub' vol,
    vData e' = [] ->
    volumes e' = match volumes e1 with
                 | [] => []
                 | _ :: rest => Some vol :: rest
                 end ->
    CreateTexture_end e1 hub glerr (Returned (negb glerr) e' hub').

(** * Theorems *)

(** ** Buffers *)

Lemma length_memcpy (dst : list byte) (d : nat) (src : list byte) (s n : nat) :
  (d + n <= length dst)%nat -> (s + n <= length src)%nat ->
  length (memcpy dst d src s n) = length dst.
Proof.
  intros Hd Hs. unfold memcpy.
  rewrite !length_app, !length_firstn, !length_skipn. lia.
Qed.

Lemma peek_memcpy (dst : list byte) (d : nat) (src : list byte) (s n i : nat) :
  (d + n <= length dst)%nat -> (s + n <= length src)%nat ->
  peek (memcpy dst d src s n) i =
  if (d <=? i)%nat && (i <? d + n)%nat then peek src (s + (i - d))
  else peek dst i.
Proof.
  intros Hd Hs. unfold memcpy, peek.
  assert (L1 : length (firstn d dst) = d) by (rewrite length_firstn; lia).
  assert (L2 : length (firstn n (skipn s src)) = n)
    by (rewrite length_firstn, length_skipn; lia).
  destruct (Nat.leb_spec d i) as [Hdi | Hdi]; simpl.
  - rewrite app_nth2 by lia. rewrite L1.
    destruct (Nat.ltb_spec i (d + n)) as [Hin | Hin].
    + rewrite app_nth1 by lia. rewrite nth_firstn, nth_skipn.
      destruct (Nat.ltb_spec (i - d) n); [reflexivity | lia].
    + rewrite app_nth2 by lia. rewrite L2, nth_skipn. f_equal. lia.
  - rewrite app_nth1 by lia. rewrite nth_firstn.
    destruct (Nat.ltb_spec i d); [reflexivity | lia].
Qed.

Lemma peek_zeroed (n i : nat) : peek (zeroed n) i = 0.
Proof. unfold peek, zeroed. apply nth_repeat. Qed.

(** ** Powers of two *)

Lemma IsPow2_pow (k : nat) : IsPow2 (2 ^ k) = true.
Proof.
  unfold IsPow2. rewrite Nat.log2_pow2 by lia. apply Nat.eqb_refl.
Qed.

Lemma NextPow2_pow (k : nat) : NextPow2 (2 ^ k) = (2 ^ k)%nat.
Proof. unfold NextPow2. now rewrite IsPow2_pow. Qed.

Lemma NextPow2_ge (n : nat) : (n <= NextPow2 n)%nat.
Proof.
  unfold NextPow2. destruct (IsPow2 n); [lia |].
  destruct n as [| n]; [lia |].
  pose proof (Nat.log2_spec (S n)). lia.
Qed.

(** ** Best-match search *)

Lemma BestMatch_hit_unused (e : GLVolumeListElem) (vDimension : UINTVECTOR3)
  (bPow2 b8Bit bBorder b2D : bool) (intra frame : Z) :
  fst (BestMatch e vDimension bPow2 b8Bit bBorder b2D intra frame) = true ->
  iUserCount e <= 0.
Proof.
  unfold BestMatch. destruct (Z.ltb_spec 0 (iUserCount e)) as [Hpos | Hle].
  - rewrite orb_true_r. simpl. discriminate.
  - intros _. exact Hle.
Qed.

Lemma BestMatchLoop_selected (vDimension : UINTVECTOR3)
  (bPow2 b8Bit bBorder b2D : bool) (l : list GLVolumeListElem) :
  forall (pos : nat) (best : option nat) (intra frame : Z) (p : nat),
    BestMatchLoop l pos vDimension bPow2 b8Bit bBorder b2D best intra frame
    = Some p ->
    best = Some p \/
    ((pos <= p)%nat /\
     exists e, nth_error l (p - pos) = Some e /\ iUserCount e <= 0).
Proof.
  induction l as [| a l IH]; intros pos best intra frame p H; simpl in H.
  - now left.
  - destruct (BestMatch a vDimension bPow2 b8Bit bBorder b2D intra frame)
      as [hit [intra' frame']] eqn:Hbm.
    apply IH in H. destruct H as [H | (Hle & e & Hn & Hu)].
    + destruct hit; [| now left].
      injection H as <-. right. split; [lia |].
      exists a. rewrite Nat.sub_diag. split; [reflexivity |].
      apply (BestMatch_hit_unused a vDimension bPow2 b8Bit bBorder b2D
               intra frame).
      now rewrite Hbm.
    + right. split; [lia |]. exists e.
      replace (p - pos)%nat with (S (p - S pos)) by lia. auto.
Qed.

(** C7: an entry with a positive user count answers [false] to
    [BestMatch] whatever the extents, the flags and the stamps, and leaves
    the two target counters as they were; so the search never selects the
    position of such an entry. *)
Theorem BestMatch_in_use (e : GLVolumeListElem) :
  0 < iUserCount e ->
  (forall (vDimension : UINTVECTOR3) (bPow2 b8Bit bBorder b2D : bool)
          (iIntraFrameCounter iFrameCounter : Z),
     BestMatch e vDimension bPow2 b8Bit bBorder b2D
               iIntraFrameCounter iFrameCounter =
     (false, (iIntraFrameCounter, iFrameCounter))) /\
  (forall (l : list GLVolumeListElem) (p : nat)
          (vDimension : UINTVECTOR3) (bPow2 b8Bit bBorder b2D : bool)
          (iTargetIntra iTargetFrame : Z),
     nth_error l p = Some e ->
     BestMatchSearch l vDimension bPow2 b8Bit bBorder b2D
                     iTargetIntra iTargetFrame <> Some p).
Proof.
  intros Hpos. split.
  - intros. unfold BestMatch.
    destruct (Z.ltb_spec 0 (iUserCount e)); [| lia].
    now rewrite orb_true_r.
  - intros l p vDimension bPow2 b8Bit bBorder b2D i0 f0 Hn Hsel.
    apply BestMatchLoop_selected in Hsel.
    destruct Hsel as [Hsel | (_ & e' & Hn' & Hu)]; [discriminate |].
    rewrite Nat.sub_0_r, Hn in Hn'. injection Hn' as <-. lia.
Qed.

Lemma BestMatch_in_use_witness :
  BestMatch (sample_entry 2 0 0) (4, 4, 4) false false false false
            UINT64_INVALID UINT64_INVALID =
  (false, (UINT64_INVALID, UINT64_INVALID)).
Proof.
  apply (BestMatch_in_use (sample_entry 2 0 0)). simpl. lia.
Defined.

(** The entry [BestMatch] prefers among unused entries of the same frame is
    the one with the larger intra-frame counter: the second test lets an
    entry replace the current target when the target's counter is below
    the entry's. *)
Lemma BestMatch_same_frame (e : GLVolumeListElem) (vDimension : UINTVECTOR3)
  (intra : Z) :
  Match e vDimension = true -> iUserCount e = 0 ->
  fst (BestMatch e vDimension (m_bIsPaddedToPowerOfTwo e)
         (m_bIsDownsampledTo8Bits e) (m_bDisableBorder e)
         (m_bEmulate3DWith2DStacks e) intra (m_iFrameCounter e)) =
  (intra <? m_iIntraFrameCounter e).
Proof.
  intros Hm Hu. unfold BestMatch. rewrite Hm, Hu, !Bool.eqb_reflx. simpl.
  rewrite Z.ltb_irrefl, Z.eqb_refl. simpl.
  now destruct (intra <? m_iIntraFrameCounter e).
Qed.

(** The example of the specification: for the unused, equally shaped
    entries A (frame 1, intra 5), B (frame 1, intra 2) and C (frame 2,
    intra 0) the search selects A, the entry of the oldest frame with the
    largest intra-frame counter, in whatever order the list holds them. *)
Lemma BestMatchSearch_example_selects_A :
  let search l :=
    selected_stamps l
      (BestMatchSearch l (4, 4, 4) false false false false
         UINT64_INVALID UINT64_INVALID) in
  search [entry_A; entry_B; entry_C] = Some (1, 5) /\
  search [entry_A; entry_C; entry_B] = Some (1, 5) /\
  search [entry_B; entry_A; entry_C] = Some (1, 5) /\
  search [entry_B; entry_C; entry_A] = Some (1, 5) /\
  search [entry_C; entry_A; entry_B] = Some (1, 5) /\
  search [entry_C; entry_B; entry_A] = Some (1, 5).
Proof. repeat split; vm_compute; reflexivity. Qed.

Lemma BestMatch_candidate (vDimension : UINTVECTOR3)
  (bPow2 b8Bit bBorder b2D : bool) (f0 : Z) (e : GLVolumeListElem)
  (intra frame : Z) :
  candidate vDimension bPow2 b8Bit bBorder b2D f0 e ->
  BestMatch e vDimension bPow2 b8Bit bBorder b2D intra frame =
  if (m_iFrameCounter e <? frame)
     || ((frame =? m_iFrameCounter e) && (intra <? m_iIntraFrameCounter e))
  then (true, (m_iIntraFrameCounter e, m_iFrameCounter e))
  else (false, (intra, frame)).
Proof.
  intros (Hm & Hu & <- & <- & <- & <- & _). unfold BestMatch.
  rewrite Hm, Hu, !Bool.eqb_reflx. simpl.
  destruct (m_iFrameCounter e <? frame); [reflexivity |]. simpl.
  now destruct ((frame =? m_iFrameCounter e)
                && (intra <? m_iIntraFrameCounter e)).
Qed.

Lemma replaced_before_refl (a : GLVolumeListElem) : replaced_before a a.
Proof. unfold replaced_before. lia. Qed.

Lemma replaced_before_trans (a b c : GLVolumeListElem) :
  replaced_before a b -> replaced_before b c -> replaced_before a c.
Proof. unfold replaced_before. lia. Qed.

(** The loop keeps as its target an entry that comes before every entry it
    has seen. *)
Lemma BestMatchLoop_first (vDimension : UINTVECTOR3)
  (bPow2 b8Bit bBorder b2D : bool) (f0 : Z) (l : list GLVolumeListElem) :
  forall (pos p0 : nat) (e0 : GLVolumeListElem),
    (forall e, In e l -> candidate vDimension bPow2 b8Bit bBorder b2D f0 e) ->
    exists (p : nat) (e : GLVolumeListElem),
      BestMatchLoop l pos vDimension bPow2 b8Bit bBorder b2D (Some p0)
        (m_iIntraFrameCounter e0) (m_iFrameCounter e0) = Some p /\
      ((p = p0 /\ e = e0) \/
       ((pos <= p)%nat /\ nth_error l (p - pos) = Some e)) /\
      replaced_before e e0 /\
      forall e', In e' l -> replaced_before e e'.
Proof.
  induction l as [| a l IH]; intros pos p0 e0 Hc.
  - exists p0, e0. simpl. repeat split; auto using replaced_before_refl.
    intros e' [].
  - assert (Ha : candidate vDimension bPow2 b8Bit bBorder b2D f0 a)
      by (apply Hc; now left).
    assert (Hl : forall e, In e l ->
                 candidate vDimension bPow2 b8Bit bBorder b2D f0 e)
      by (intros e He; apply Hc; now right).
    cbn [BestMatchLoop]. rewrite (BestMatch_candidate _ _ _ _ _ _ a _ _ Ha).
    destruct ((m_iFrameCounter a <? m_iFrameCounter e0)
              || ((m_iFrameCounter e0 =? m_iFrameCounter a)
                  && (m_iIntraFrameCounter e0 <? m_iIntraFrameCounter a)))
      eqn:Hhit.
    + assert (Hae : replaced_before a e0).
      { unfold replaced_before.
        apply orb_prop in Hhit as [H | H]; [left; lia |].
        apply andb_prop in H as [H1 H2]. right. lia. }
      destruct (IH (S pos) pos a Hl) as (p & e & Hrun & Hpos & He & Hall).
      exists p, e. split; [exact Hrun |]. split; [| split].
      * right. destruct Hpos as [[-> ->] | [Hle Hn]].
        -- split; [lia |]. now rewrite Nat.sub_diag.
        -- split; [lia |].
           replace (p - pos)%nat with (S (p - S pos)) by lia. exact Hn.
      * eapply replaced_before_trans; eauto.
      * intros e' [<- | He']; auto.
    + assert (Hea : replaced_before e0 a).
      { unfold replaced_before.
        apply orb_false_elim in Hhit as [H1 H2].
        apply andb_false_elim in H2. destruct H2 as [H2 | H2]; lia. }
      destruct (IH (S pos) p0 e0 Hl) as (p & e & Hrun & Hpos & He & Hall).
      exists p, e. split; [exact Hrun |]. split; [| split].
      * destruct Hpos as [[-> ->] | [Hle Hn]]; [now left | right].
        split; [lia |].
        replace (p - pos)%nat with (S (p - S pos)) by lia. exact Hn.
      * exact He.
      * intros e' [<- | He']; auto.
        eapply replaced_before_trans; eauto.
Qed.

(** C1, as amended: among the unused entries that match the requested
    voxel count and format flags, and whose frame counters lie below the
    one the search starts from, the search selects one of the oldest frame
    and, among the entries of that frame, one with the largest intra-frame
    counter. *)
Theorem BestMatchSearch_selects (vDimension : UINTVECTOR3)
  (bPow2 b8Bit bBorder b2D : bool) (iTargetIntra iTargetFrame : Z)
  (l : list GLVolumeListElem) :
  l <> [] ->
  (forall e, In e l ->
             candidate vDimension bPow2 b8Bit bBorder b2D iTargetFrame e) ->
  selects_first replaced_before l
    (BestMatchSearch l vDimension bPow2 b8Bit bBorder b2D
                     iTargetIntra iTargetFrame).
Proof.
  intros Hne Hc. destruct l as [| a l]; [congruence |].
  assert (Ha : candidate vDimension bPow2 b8Bit bBorder b2D iTargetFrame a)
    by (apply Hc; now left).
  unfold BestMatchSearch. cbn [BestMatchLoop].
  rewrite (BestMatch_candidate _ _ _ _ _ _ a _ _ Ha).
  destruct Ha as (_ & _ & _ & _ & _ & _ & Hf).
  destruct (Z.ltb_spec (m_iFrameCounter a) iTargetFrame); [| lia].
  cbn [orb].
  destruct (BestMatchLoop_first vDimension bPow2 b8Bit bBorder b2D
              iTargetFrame l 1 0 a)
    as (p & e & Hrun & Hpos & He & Hall).
  { intros e He. apply Hc. now right. }
  exists p, e. split; [exact Hrun |]. split.
  - destruct Hpos as [[-> ->] | [Hle Hn]]; [reflexivity |].
    replace p with (S (p - 1)) by lia. exact Hn.
  - intros e' [<- | He']; auto.
Qed.

Lemma entries_ABC_candidates (e : GLVolumeListElem) :
  In e [entry_A; entry_B; entry_C] ->
  candidate (4, 4, 4) false false false false UINT64_INVALID e.
Proof.
  intros [<- | [<- | [<- | []]]]; repeat split; reflexivity.
Qed.

Lemma BestMatchSearch_selects_witness :
  selects_first replaced_before [entry_A; entry_B; entry_C]
    (BestMatchSearch [entry_A; entry_B; entry_C] (4, 4, 4)
       false false false false UINT64_INVALID UINT64_INVALID).
Proof.
  apply (BestMatchSearch_selects (4, 4, 4) false false false false
           UINT64_INVALID UINT64_INVALID [entry_A; entry_B; entry_C]).
  - discriminate.
  - exact entries_ABC_candidates.
Defined.

Lemma BestMatch_sample (intra frame i f : Z) :
  BestMatch (sample_entry 0 intra frame) (4, 4, 4) false false false false i f
  = if (frame <? f) || ((f =? frame) && (i <? intra))
    then (true, (intra, frame)) else (false, (i, f)).
Proof.
  unfold BestMatch. cbn.
  destruct (frame <? f); [reflexivity |]. cbn.
  now destruct ((f =? frame) && (i <? intra)).
Qed.

(** The least-recently-used reading fails at the example of the
    specification: for the entries A (frame 1, intra 5), B (frame 1,
    intra 2) and C (frame 2, intra 0) the search selects A, not B; A does
    not come first in the least-recently-used order; and no choice of the
    counters the search starts from makes it select B. *)
Lemma BestMatchSearch_example_not_lru :
  selected_stamps [entry_A; entry_B; entry_C]
    (BestMatchSearch [entry_A; entry_B; entry_C] (4, 4, 4)
       false false false false UINT64_INVALID UINT64_INVALID)
  = Some (1, 5) /\
  ~ selects_first lru_before [entry_A; entry_B; entry_C]
      (BestMatchSearch [entry_A; entry_B; entry_C] (4, 4, 4)
         false false false false UINT64_INVALID UINT64_INVALID) /\
  forall iTargetIntra iTargetFrame : Z,
    BestMatchSearch [entry_A; entry_B; entry_C] (4, 4, 4)
      false false false false iTargetIntra iTargetFrame <> Some 1%nat.
Proof.
  split; [vm_compute; reflexivity |]. split.
  - intros (p & e & Hr & Hn & Hall).
    vm_compute in Hr. injection Hr as <-.
    simpl in Hn. injection Hn as <-.
    specialize (Hall entry_B ltac:(simpl; auto)).
    unfold lru_before in Hall. simpl in Hall. lia.
  - intros i0 f0.
    unfold BestMatchSearch, entry_A, entry_B, entry_C. cbn [BestMatchLoop].
    rewrite !BestMatch_sample.
    destruct (Z.ltb_spec 1 f0), (Z.eqb_spec f0 1), (Z.ltb_spec i0 5); cbn;
      try lia; try discriminate;
      rewrite ?BestMatch_sample; cbn; try discriminate.
    all: destruct (Z.ltb_spec i0 2); cbn; rewrite ?BestMatch_sample; cbn;
      repeat match goal with
             | |- context [if ?c then _ else _] => destruct c eqn:?; cbn
             end; try discriminate; try lia.
Qed.

(** ** New entries *)

Lemma iUserCount_FreeData (e : GLVolumeListElem) :
  iUserCount (FreeData e) = iUserCount e.
Proof. reflexivity. Qed.

Lemma iUserCount_FreeTexture (e : GLVolumeListElem) :
  iUserCount (FreeTexture e) = iUserCount e.
Proof.
  unfold FreeTexture. destruct (volumes e) as [| [v |] rest]; reflexivity.
Qed.

Lemma iUserCount_set_volumes0 (e : GLVolumeListElem) (v : GLVolume) :
  iUserCount (set_volumes0 e v) = iUserCount e.
Proof. unfold set_volumes0. destruct (volumes e); reflexivity. Qed.

Lemma iUserCount_LoadData (e : GLVolumeListElem) (hub : list byte) :
  iUserCount (snd (fst (LoadData e hub))) = iUserCount e.
Proof. unfold LoadData. destruct (uses_hub e hub); reflexivity. Qed.

Lemma iUserCount_CreateTexture_upload (e : GLVolumeListElem)
  (hub raw : list byte) (bw cc : Z) (fi : GLInternalFormat) (f : GLFormat)
  (t : GLType) (glerr : bool) :
  iUserCount (snd (fst (CreateTexture_upload e hub raw bw cc fi f t glerr)))
  = iUserCount e.
Proof.
  unfold CreateTexture_upload. simpl.
  apply iUserCount_set_volumes0.
Qed.

Lemma iUserCount_CreateTexture_format (e : GLVolumeListElem)
  (hub raw : list byte) (bw : Z) (glerr : bool) :
  iUserCount (snd (fst (CreateTexture_format e hub raw bw glerr)))
  = iUserCount e.
Proof.
  unfold CreateTexture_format.
  destruct (select_format _); [| reflexivity].
  destruct (bw =? 8).
  { destruct (select_internal8 _); [| reflexivity].
    apply iUserCount_CreateTexture_upload. }
  destruct (bw =? 16).
  { destruct (select_internal16 _); [| reflexivity].
    apply iUserCount_CreateTexture_upload. }
  destruct (bw =? 32); [| reflexivity].
  apply iUserCount_CreateTexture_upload.
Qed.

Lemma iUserCount_CreateTexture_fetch (e : GLVolumeListElem)
  (hub : list byte) (bDel : bool) :
  iUserCount (snd (fst (CreateTexture_fetch e hub bDel))) = iUserCount e.
Proof.
  unfold CreateTexture_fetch.
  set (e1 := if bDel then FreeTexture e else e).
  assert (H1 : iUserCount e1 = iUserCount e)
    by (unfold e1; destruct bDel; [apply iUserCount_FreeTexture | reflexivity]).
  destruct (is_empty (vData e1)); [| exact H1].
  now rewrite iUserCount_LoadData.
Qed.

Lemma iUserCount_CreateTexture (host : bool) (e : GLVolumeListElem)
  (hub : list byte) (bDel glerr : bool) (e' : GLVolumeListElem) :
  entry_of (CreateTexture host e hub bDel glerr) = Some e' ->
  iUserCount e' = iUserCount e.
Proof.
  unfold CreateTexture.
  pose proof (iUserCount_CreateTexture_fetch e hub bDel) as H2.
  destruct (CreateTexture_fetch e hub bDel) as [[loaded e2] hub2].
  cbn [fst snd] in H2.
  destruct loaded; cbn [negb]; [| cbn [entry_of]; intros [= <-]; exact H2].
  destruct (is_empty _); [cbn [entry_of]; intros [= <-]; exact H2 |].
  destruct (m_bIsDownsampledTo8Bits e2 && negb (GetBitWidth (pDataset e2) =? 8)).
  - destruct (negb (GetBitWidth (pDataset e2) =? 16));
      [cbn [entry_of]; intros [= <-]; exact H2 |].
    destruct (quantize_loop _ _ _ _ _ _); [| discriminate].
    cbn [entry_of returned]. intros [= <-].
    now rewrite iUserCount_CreateTexture_format.
  - cbn [entry_of returned]. intros [= <-].
    now rewrite iUserCount_CreateTexture_format.
Qed.

Lemma iUserCount_new (host : bool) (ds : Dataset) (key : BrickKey)
  (bPow2 b8Bit bBorder b2D : bool) (intra frame : Z) (mc : MasterController)
  (hub : list byte) (glerr : bool) (e : GLVolumeListElem)
  (hub' : list byte) :
  GLVolumeListElem_new host ds key bPow2 b8Bit bBorder b2D
    intra frame mc hub glerr = Constructed e hub' ->
  iUserCount e = 1.
Proof.
  unfold GLVolumeListElem_new.
  match goal with
  | |- context [CreateTexture host ?e0 hub true glerr] =>
    pose proof (iUserCount_CreateTexture host e0 hub true glerr) as H;
    destruct (CreateTexture host e0 hub true glerr) as [ok e1 hub1 | |]
  end; try discriminate.
  specialize (H e1 eq_refl). cbn [iUserCount] in H.
  destruct ok; cbn [negb]; [intros [= <- _]; exact H |].
  destruct (volumes0 e1); intros [= <- _]; [| exact H].
  now rewrite iUserCount_FreeTexture.
Qed.

Lemma iUserCount_Access_all (stamps : list (Z * Z)) :
  forall e : GLVolumeListElem,
    0 < iUserCount e -> 0 < iUserCount (Access_all e stamps).
Proof.
  induction stamps as [| s stamps IH]; intros e He; simpl.
  - exact He.
  - apply IH. simpl. lia.
Qed.

(** C10: every entry the constructor builds has user count 1, whatever
    [CreateTexture] did, and the new entry, also after any number of
    further [Access] calls, answers [false] to every [BestMatch]. *)
Theorem new_entry_not_replaceable (host : bool) (ds : Dataset)
  (key : BrickKey) (bPow2 b8Bit bBorder b2D : bool) (intra frame : Z)
  (mc : MasterController) (hub : list byte) (glerr : bool)
  (e : GLVolumeListElem) (hub' : list byte) :
  GLVolumeListElem_new host ds key bPow2 b8Bit bBorder b2D
    intra frame mc hub glerr = Constructed e hub' ->
  iUserCount e = 1 /\
  forall (stamps : list (Z * Z)) (vDimension : UINTVECTOR3)
         (bPow2' b8Bit' bBorder' b2D' : bool)
         (iIntraFrameCounter iFrameCounter : Z),
    BestMatch (Access_all e stamps) vDimension bPow2' b8Bit' bBorder' b2D'
              iIntraFrameCounter iFrameCounter =
    (false, (iIntraFrameCounter, iFrameCounter)).
Proof.
  intros Hnew.
  assert (He : iUserCount e = 1) by (eapply iUserCount_new; exact Hnew).
  split; [exact He |].
  intros stamps vDimension bPow2' b8Bit' bBorder' b2D' i f.
  pose proof (iUserCount_Access_all stamps e ltac:(lia)) as Hpos.
  unfold BestMatch.
  destruct (Z.ltb_spec 0 (iUserCount (Access_all e stamps))); [| lia].
  now rewrite orb_true_r.
Qed.

Lemma new_entry_not_replaceable_witness :
  exists (e : GLVolumeListElem) (hub' : list byte),
    GLVolumeListElem_new true
      (sample_dataset (1, 1, 1) 8 1 (0, 255)%float true [7])
      (0%nat, 0%nat) false false false false 3 9 sample_controller [] false
    = Constructed e hub' /\
    iUserCount e = 1 /\
    forall (stamps : list (Z * Z)) (vDimension : UINTVECTOR3)
           (bPow2' b8Bit' bBorder' b2D' : bool)
           (iIntraFrameCounter iFrameCounter : Z),
      BestMatch (Access_all e stamps) vDimension bPow2' b8Bit' bBorder' b2D'
                iIntraFrameCounter iFrameCounter =
      (false, (iIntraFrameCounter, iFrameCounter)).
Proof.
  eexists. eexists. split; [vm_compute; reflexivity |].
  apply (new_entry_not_replaceable true
           (sample_dataset (1, 1, 1) 8 1 (0, 255)%float true [7])
           (0%nat, 0%nat) false false false false 3 9 sample_controller []
           false _ []).
  vm_compute. reflexivity.
Defined.

(** ** The dataset registry *)

Section Registry.

Variable IsLoaded : string -> bool.
Variable f : string.
Variables r1 r2 : AbstrRenderer.
Hypothesis Hloaded : IsLoaded f = true.
Hypothesis Hdistinct : r1 <> r2.

Let d : VolumeDataset := {| vd_addr := 1; Filename := f |}.

(** The registry after [LoadDataset(f, r1)] and [LoadDataset(f, r2)]. *)
Let m2 : GPUMemMan :=
  {| m_vpVolumeDatasets := [{| pVolumeDataset := d; qpUser := [r1; r2] |}];
     live := [1%nat]; next_addr := 2 |}.

Lemma LoadDataset_twice :
  let '(d1, m1) := LoadDataset IsLoaded GPUMemMan_new f r1 in
  let '(d2, m2') := LoadDataset IsLoaded m1 f r2 in
  d1 = Some d /\ d2 = Some d /\ m2' = m2.
Proof.
  unfold LoadDataset. simpl. rewrite Hloaded. simpl.
  rewrite String.eqb_refl. auto.
Qed.

(** The two releases in the order of the two loads: the second one
    destroys the dataset. *)
Lemma FreeDataset_load_order :
  let '(o1, m3) := FreeDataset m2 d r1 in
  let '(o2, m4) := FreeDataset m3 d r2 in
  o1 = StillInUse /\ registered m3 d = true /\ alive m3 d = true /\
  o2 = Released /\ registered m4 d = false /\ alive m4 d = false.
Proof.
  unfold FreeDataset. simpl. rewrite !Nat.eqb_refl. simpl.
  rewrite !Nat.eqb_refl. simpl. repeat split; reflexivity.
Qed.

(** The two releases in the other order: the first one finds [r1] at the
    head of the users, leaves the loop and reports the requester as not
    found; the second one removes [r1] and keeps the dataset for [r2]. *)
Lemma FreeDataset_other_order :
  let '(o1, m3) := FreeDataset m2 d r2 in
  let '(o2, m4) := FreeDataset m3 d r1 in
  o1 = NotFound /\ m3 = m2 /\
  o2 = StillInUse /\
  m_vpVolumeDatasets m4 = [{| pVolumeDataset := d; qpUser := [r2] |}] /\
  registered m4 d = true /\ alive m4 d = true.
Proof.
  assert (Hne : Nat.eqb r1 r2 = false) by now apply Nat.eqb_neq.
  unfold FreeDataset. simpl. rewrite Hne. simpl.
  rewrite !Nat.eqb_refl. simpl. repeat split; reflexivity.
Qed.

End Registry.

(** C3 on the code: two requesters load the same file and share one
    dataset; when they release it in the order of the loads the second
    release destroys it, but in the other order the first release changes
    nothing and after the second one the dataset is still registered and
    allocated. *)
Theorem FreeDataset_depends_on_order (IsLoaded : string -> bool)
  (f : string) (r1 r2 : AbstrRenderer) :
  IsLoaded f = true -> r1 <> r2 ->
  let d := {| vd_addr := 1; Filename := f |} in
  let l1 := LoadDataset IsLoaded GPUMemMan_new f r1 in
  let l2 := LoadDataset IsLoaded (snd l1) f r2 in
  let m := snd l2 in
  fst l1 = Some d /\ fst l2 = Some d /\
  (let a := FreeDataset m d r1 in
   let b := FreeDataset (snd a) d r2 in
   registered (snd a) d = true /\ alive (snd a) d = true /\
   registered (snd b) d = false /\ alive (snd b) d = false) /\
  (let a := FreeDataset m d r2 in
   let b := FreeDataset (snd a) d r1 in
   fst a = NotFound /\ fst b = StillInUse /\
   registered (snd b) d = true /\ alive (snd b) d = true).
Proof.
  intros Hl Hd d l1 l2 m.
  pose proof (LoadDataset_twice IsLoaded f r1 r2 Hl) as H12.
  fold l1 in H12. destruct l1 as [d1 m1] eqn:E1. simpl in l2.
  fold l2 in H12. destruct l2 as [d2 m2'] eqn:E2.
  destruct H12 as (-> & -> & Hm). simpl in m. subst m. rewrite Hm.
  split; [reflexivity |]. split; [reflexivity |]. split.
  - pose proof (FreeDataset_load_order f r1 r2) as H.
    destruct (FreeDataset _ _ r1) as [o1 m3]. simpl.
    destruct (FreeDataset m3 _ r2) as [o2 m4]. simpl. tauto.
  - pose proof (FreeDataset_other_order f r1 r2 Hd) as H.
    destruct (FreeDataset _ _ r2) as [o1 m3]. simpl.
    destruct (FreeDataset m3 _ r1) as [o2 m4]. simpl. tauto.
Qed.

Lemma FreeDataset_depends_on_order_witness :
  let d := {| vd_addr := 1; Filename := "head.uvf"%string |} in
  let m := snd (LoadDataset (fun _ => true)
                  (snd (LoadDataset (fun _ => true) GPUMemMan_new
                          "head.uvf"%string 10%nat))
                  "head.uvf"%string 20%nat) in
  registered (snd (FreeDataset (snd (FreeDataset m d 20%nat)) d 10%nat)) d
  = true.
Proof.
  pose proof (FreeDataset_depends_on_order (fun _ => true) "head.uvf"%string
                10%nat 20%nat eq_refl ltac:(lia)) as H.
  cbv zeta in H. cbv zeta. apply H.
Defined.

(** ** Unsupported component counts *)



Lemma FreeTexture_keeps (e : GLVolumeListElem) :
  pDataset (FreeTexture e) = pDataset e /\
  m_Key (FreeTexture e) = m_Key e /\
  vData (FreeTexture e) = vData e /\
  m_bUsingHub (FreeTexture e) = m_bUsingHub e /\
  m_bIsDownsampledTo8Bits (FreeTexture e) = m_bIsDownsampledTo8Bits e.
Proof.
  unfold FreeTexture. destruct (volumes e) as [| [v |] rest]; auto.
Qed.

Lemma CreateTexture_fetch_keeps (e : GLVolumeListElem) (hub : list byte)
  (bDel : bool) :
  let r := CreateTexture_fetch e hub bDel in
  pDataset (snd (fst r)) = pDataset e /\
  m_Key (snd (fst r)) = m_Key e /\
  volumes (snd (fst r)) = volumes (if bDel then FreeTexture e else e).
Proof.
  unfold CreateTexture_fetch.
  set (e1 := if bDel then FreeTexture e else e).
  assert (K1 : pDataset e1 = pDataset e /\ m_Key e1 = m_Key e).
  { unfold e1. destruct bDel; [| auto].
    destruct (FreeTexture_keeps e) as (A & B & _). auto. }
  destruct K1 as [Kd Kk].
  destruct (is_empty (vData e1)); cbn [fst snd]; [| auto].
  unfold LoadData. destruct (uses_hub e1 hub); cbn [fst snd]; auto.
Qed.


(** An entry without data and without the hub mark, and a fetch that
    delivers the bytes [raw]: they are what [pRawData] points to. *)
Lemma CreateTexture_fetch_delivers (e : GLVolumeListElem)
  (hub raw : list byte) (bDel : bool) :
  vData e = [] -> m_bUsingHub e = false ->
  (forall buf, GetBrick (pDataset e) (m_Key e) buf = (true, raw)) ->
  exists e2 hub2,
    CreateTexture_fetch e hub bDel = (true, e2, hub2) /\
    (if m_bUsingHub e2 then hub2 else vData e2) = raw /\
    m_bUsingHub e2 = uses_hub e hub /\
    (uses_hub e hub = false -> hub2 = hub) /\
    m_bIsDownsampledTo8Bits e2 = m_bIsDownsampledTo8Bits e.
Proof.
  intros Hd Hh Hfetch. unfold CreateTexture_fetch.
  set (e1 := if bDel then FreeTexture e else e).
  assert (K : pDataset e1 = pDataset e /\ m_Key e1 = m_Key e /\
              vData e1 = [] /\ m_bUsingHub e1 = false /\
              m_bIsDownsampledTo8Bits e1 = m_bIsDownsampledTo8Bits e /\
              m_pMasterController e1 = m_pMasterController e).
  { unfold e1. destruct bDel; [| auto 10].
    destruct (FreeTexture_keeps e) as (A & B & C & D & E).
    rewrite A, B, C, D, E. repeat split; auto.
    unfold FreeTexture. destruct (volumes e) as [| [v |] rest]; reflexivity. }
  destruct K as (Kd & Kk & Kv & Kh & K8 & Km).
  assert (U : uses_hub e1 hub = uses_hub e hub)
    by (unfold uses_hub, iBrickSize; now rewrite Kd, Kk, Km).
  rewrite Kv. cbn [is_empty]. unfold LoadData. rewrite U, Kd, Kk, !Hfetch.
  destruct (uses_hub e hub); cbn [fst snd]; eexists; eexists;
    (split; [reflexivity |]); cbn [set_buffers m_bUsingHub vData
                                   m_bIsDownsampledTo8Bits];
    rewrite ?Kh; repeat split; auto; discriminate.
Qed.

Lemma is_empty_false {A : Type} (l : list A) : l <> [] -> is_empty l = false.
Proof. destruct l; [congruence | reflexivity]. Qed.





(** ** The upload hub *)

Lemma voxel_count_exact (v : UINTVECTOR3) :
  0 <= vx v * vy v * vz v < 2 ^ 32 ->
  voxel_count v = vx v * vy v * vz v.
Proof.
  intros H. unfold voxel_count, wrap32.
  rewrite Z.mul_mod_idemp_l by lia. now apply Z.mod_small.
Qed.

Lemma iBrickSize_exact (e : GLVolumeListElem) :
  let v := GetBrickVoxelCounts (pDataset e) (m_Key e) in
  let bytes := vx v * vy v * vz v * (GetBitWidth (pDataset e) / 8)
               * GetComponentCount (pDataset e) in
  0 <= vx v * vy v * vz v < 2 ^ 32 ->
  0 <= bytes < 2 ^ 64 ->
  iBrickSize e = bytes.
Proof.
  intros v bytes Hv Hb. unfold iBrickSize, wrap64. fold v.
  rewrite voxel_count_exact by assumption.
  rewrite Z.mul_mod_idemp_l by lia. now apply Z.mod_small.
Qed.

(** C9 on the code: [vSize[0]*vSize[1]*vSize[2]] is a product of
    [unsigned int]s, widened to [UINT64] only by the factors that follow.
    A brick of 2048 x 2048 x 1024 voxels of one byte has 2^32 bytes, far
    above four times the in-core size of 1024, but the code's [iBrickSize]
    is 0 and the brick is fetched into the hub. A brick of 4096 bytes goes
    there by right, one of 4352 bytes does not, and with an empty hub
    none does. *)
Theorem LoadData_hub_size_wraps :
  let big := blank_entry
               (sample_dataset (2048, 2048, 1024) 8 1 (0, 255)%float true [7])
               false in
  let fits := blank_entry
                (sample_dataset (16, 16, 16) 8 1 (0, 255)%float true [7])
                false in
  let over := blank_entry
                (sample_dataset (17, 16, 16) 8 1 (0, 255)%float true [7])
                false in
  let hub_gets (e : GLVolumeListElem) (hub : list byte) :=
    (snd (LoadData e hub), vData (snd (fst (LoadData e hub))),
     m_bUsingHub (snd (fst (LoadData e hub)))) in
  2048 * 2048 * 1024 * (8 / 8) * 1 = 2 ^ 32 /\
  4 * GetIncoresize sample_controller = 4096 /\
  iBrickSize big = 0 /\
  hub_gets big [0] = ([7], [], true) /\
  iBrickSize fits = 4096 /\
  hub_gets fits [0] = ([7], [], true) /\
  iBrickSize over = 4352 /\
  hub_gets over [0] = ([0], [7], false) /\
  hub_gets fits [] = ([], [7], false).
Proof. repeat split. Qed.

(** ** Quantization to 8 bits *)

(** C4 on the code: the quantization subtracts the minimum from 255 times
    the value, not from the value. For the range [0, 65535] the value
    32768 gives 127, as the formula does; for the range [100, 200] the
    value 100, the minimum itself, gives 254 where the formula gives 0, and
    this is the byte that reaches the texture. *)
Theorem Quantize_range_offset (host : bool) :
  Quantize 0 65535 32768 = Some 127 /\
  QuantizeSpec 0 65535 32768 = 127 /\
  Quantize 100 200 100 = Some 254 /\
  QuantizeSpec 100 200 100 = 0 /\
  uploaded
    (GLVolumeListElem_new host
       (sample_dataset (1, 1, 1) 16 1 (100, 200)%float true
          (if host then [100; 0] else [0; 100]))
       (0%nat, 0%nat) false true false false 0 0
       sample_controller [] false)
  = Some (if host then [254; 0] else [254; 100]).
Proof. destruct host; repeat split; vm_compute; reflexivity. Qed.

(** ** Byte order *)

Lemma length_poke (buf : list byte) : forall (i : nat) (b : byte),
  length (poke buf i b) = length buf.
Proof.
  induction buf as [| h t IH]; intros [| i] b; simpl; auto.
Qed.

Lemma peek_poke (buf : list byte) : forall (i j : nat) (b : byte),
  (i < length buf)%nat ->
  peek (poke buf i b) j = if (j =? i)%nat then b else peek buf j.
Proof.
  unfold peek.
  induction buf as [| h t IH]; intros [| i] [| j] b Hi; simpl in *;
    try lia; try reflexivity.
  apply IH. lia.
Qed.

Lemma partner_even (i : nat) : partner (2 * i) = (2 * i + 1)%nat.
Proof. unfold partner. now rewrite Nat.even_mul. Qed.

Lemma partner_odd (i : nat) : partner (2 * i + 1) = (2 * i)%nat.
Proof.
  unfold partner. rewrite Nat.even_add, Nat.even_mul. simpl (Nat.even 2).
  cbn [orb Nat.even Bool.eqb]. lia.
Qed.

Lemma peek_Swap_short (buf : list byte) (i j : nat) :
  (2 * i + 2 <= length buf)%nat ->
  peek (Swap_short buf i) j =
  if (2 * i <=? j)%nat && (j <? 2 * i + 2)%nat then peek buf (partner j)
  else peek buf j.
Proof.
  intros Hlen. unfold Swap_short.
  rewrite peek_poke by (rewrite length_poke; lia).
  rewrite peek_poke by lia.
  destruct (Nat.eqb_spec j (2 * i + 1)) as [-> | H1].
  - destruct (Nat.leb_spec (2 * i) (2 * i + 1)); [| lia].
    destruct (Nat.ltb_spec (2 * i + 1) (2 * i + 2)); [| lia].
    cbn [andb]. now rewrite partner_odd.
  - destruct (Nat.eqb_spec j (2 * i)) as [-> | H0].
    + destruct (Nat.leb_spec (2 * i) (2 * i)); [| lia].
      destruct (Nat.ltb_spec (2 * i) (2 * i + 2)); [| lia].
      cbn [andb]. now rewrite partner_even.
    + destruct (Nat.leb_spec (2 * i) j), (Nat.ltb_spec j (2 * i + 2));
        cbn [andb]; try reflexivity; lia.
Qed.

Lemma partner_range (i j : nat) :
  (2 * i <= j)%nat -> (2 * i <= partner j)%nat.
Proof.
  intros H. unfold partner. destruct (Nat.even j) eqn:E; [lia |].
  destruct (Nat.eq_dec j (2 * i)) as [-> | Hne]; [| lia].
  rewrite Nat.even_mul in E. discriminate.
Qed.

(** The byte-swapping loop exchanges the two bytes of each of the [n]
    elements from [i] on and leaves the rest of the buffer alone. *)
Lemma swap_loop_bytes (n : nat) : forall (i : nat) (buf : list byte) (j : nat),
  (2 * (i + n) <= length buf)%nat ->
  length (swap_loop n i buf) = length buf /\
  peek (swap_loop n i buf) j =
  if (2 * i <=? j)%nat && (j <? 2 * (i + n))%nat then peek buf (partner j)
  else peek buf j.
Proof.
  induction n as [| n IH]; intros i buf j Hlen; cbn [swap_loop].
  - split; [reflexivity |].
    destruct (Nat.leb_spec (2 * i) j), (Nat.ltb_spec j (2 * (i + 0)));
      simpl; try reflexivity; lia.
  - assert (Hl : length (Swap_short buf i) = length buf)
      by (unfold Swap_short; now rewrite !length_poke).
    destruct (IH (S i) (Swap_short buf i) j ltac:(lia)) as [Hlen' Hpk].
    split; [lia |]. rewrite Hpk.
    pose proof (partner_range (S i) j) as P1.
    destruct (Nat.leb_spec (2 * S i) j) as [A | A],
      (Nat.ltb_spec j (2 * (S i + n))) as [B | B]; cbn [andb];
      rewrite peek_Swap_short by lia.
    + specialize (P1 A).
      destruct (Nat.leb_spec (2 * i) j); [| lia].
      destruct (Nat.ltb_spec j (2 * (i + S n))); [| lia].
      destruct (Nat.ltb_spec (partner j) (2 * i + 2)); [lia |].
      now rewrite andb_false_r.
    + destruct (Nat.ltb_spec j (2 * i + 2)); [lia |].
      destruct (Nat.ltb_spec j (2 * (i + S n))); [lia |].
      now rewrite !andb_false_r.
    + destruct (Nat.leb_spec (2 * i) j); cbn [andb]; [| reflexivity].
      destruct (Nat.ltb_spec j (2 * i + 2)),
        (Nat.ltb_spec j (2 * (i + S n))); try lia; reflexivity.
    + lia.
Qed.

(** C5 on the code: a brick of one 32-bit element from a dataset whose
    byte order differs from the host's reaches the texture with its four
    bytes in the order of the file; the swap only exists for 16-bit
    elements, where the same dataset flag does exchange the bytes. *)
Theorem CreateTexture_32bit_not_swapped (host : bool) :
  let upload iBitWidth data :=
    uploaded
      (GLVolumeListElem_new host
         (sample_dataset (1, 1, 1) iBitWidth 1 (0, 1)%float false data)
         (0%nat, 0%nat) false false false false 0 0
         sample_controller [] false) in
  upload 32 [1; 2; 3; 4] = Some [1; 2; 3; 4] /\
  upload 16 [1; 2] = Some [2; 1].
Proof. destruct host; split; vm_compute; reflexivity. Qed.

(** ** Row-major offsets *)

Lemma row_offset_lt (r R w xb : nat) :
  (r < R)%nat -> (xb < w)%nat -> (r * w + xb < R * w)%nat.
Proof. intros Hr Hxb. nia. Qed.

Lemma row_offset_ge (r R w xb : nat) :
  (R <= r)%nat -> (R * w <= r * w + xb)%nat.
Proof. intros Hr. nia. Qed.

Lemma plane_row_unique (p z y z' y' : nat) :
  (y < p)%nat -> (y' < p)%nat -> (z * p + y = z' * p + y')%nat ->
  z = z' /\ y = y'.
Proof.
  intros Hy Hy' H.
  destruct (Nat.lt_total z z') as [Hlt | [Heq | Hgt]].
  - pose proof (Nat.mul_le_mono_r (S z) z' p Hlt). lia.
  - subst z'. lia.
  - pose proof (Nat.mul_le_mono_r (S z') z p Hgt). lia.
Qed.

Lemma plane_row_bound (p q z y : nat) :
  (z < q)%nat -> (y < p)%nat -> (z * p + y + 1 <= q * p)%nat.
Proof.
  intros Hz Hy. pose proof (Nat.mul_le_mono_r (S z) q p Hz). lia.
Qed.

Lemma plane_row_lt (p z y z' y' : nat) :
  (y < p)%nat -> (y' < p)%nat ->
  ((z * p + y < z' * p + y')%nat <-> (z < z')%nat \/ (z = z' /\ y < y')%nat).
Proof.
  intros Hy Hy'. split.
  - intros H. destruct (Nat.lt_total z z') as [Hlt | [Heq | Hgt]].
    + now left.
    + subst z'. right. lia.
    + pose proof (Nat.mul_le_mono_r (S z') z p Hgt). lia.
  - intros [Hlt | [-> Hlt]]; [| lia].
    pose proof (Nat.mul_le_mono_r (S z) z' p Hlt). lia.
Qed.

(** ** The loops of [PadData] *)

Section PadLoop.

Variables (dis : bool) (raw : list byte) (es sx sy sz px py pz : nat).
Hypothesis Hx : (1 <= sx <= px)%nat.
Hypothesis Hy : (1 <= sy <= py)%nat.
Hypothesis Hz : (1 <= sz <= pz)%nat.
Hypothesis Hraw : (sx * es * sy * sz <= length raw)%nat.

Local Notation rs := (sx * es)%nat.
Local Notation rt := (px * es)%nat.
Local Notation Inv := (pad_inv dis raw es sx sy sz px py pz).
Local Notation row := (PadData_row dis raw es rs rt).
Local Notation plane := (PadData_plane dis raw es rs rt sy py).

Lemma row_sizes : (es <= rs)%nat /\ (rs <= rt)%nat /\
                  ((rs < rt)%nat -> (rs + es <= rt)%nat).
Proof.
  pose proof (Nat.mul_le_mono_r 1 sx es ltac:(lia)) as H1.
  pose proof (Nat.mul_le_mono_r sx px es ltac:(lia)) as H2.
  repeat split; try lia.
  intros Hlt. destruct (Nat.eq_dec sx px) as [Heq | Hne];
    [rewrite Heq in Hlt; lia |].
  pose proof (Nat.mul_le_mono_r (S sx) px es ltac:(lia)). lia.
Qed.

Lemma target_row_fits (z k : nat) :
  (z < pz)%nat -> (k < py)%nat ->
  ((z * py + k) * rt + rt <= px * es * py * pz)%nat.
Proof.
  intros Hz' Hk. pose proof (plane_row_bound py pz z k Hz' Hk) as B.
  apply (Nat.mul_le_mono_r _ _ rt) in B.
  replace (px * es * py * pz)%nat with (pz * py * rt)%nat by ring. lia.
Qed.

Lemma source_row_fits (z k : nat) :
  (z < sz)%nat -> (k < sy)%nat ->
  ((z * sy + k) * rs + rs <= length raw)%nat.
Proof.
  intros Hz' Hk. pose proof (plane_row_bound sy sz z k Hz' Hk) as B.
  apply (Nat.mul_le_mono_r _ _ rs) in B.
  replace (sx * es * sy * sz)%nat with (sz * sy * rs)%nat in Hraw by ring.
  lia.
Qed.

Lemma PadData_row_inv (z k : nat) (st : PadState) :
  (z < sz)%nat -> (k < sy)%nat ->
  Inv (z * py + k) (pPaddedData st) ->
  iTarget st = ((z * py + k) * rt)%nat ->
  iSource st = ((z * sy + k) * rs)%nat ->
  Inv (z * py + k + 1) (pPaddedData (row st)) /\
  iTarget (row st) = ((z * py + k + 1) * rt)%nat /\
  iSource (row st) = ((z * sy + k + 1) * rs)%nat.
Proof.
  intros Hz' Hk [Hlen Hval] HT HS.
  destruct row_sizes as (Hes & Hrs & Hgap).
  pose proof (target_row_fits z k ltac:(lia) ltac:(lia)) as Bt.
  pose proof (source_row_fits z k Hz' Hk) as Bs.
  unfold PadData_row; simpl. rewrite HT, HS.
  set (T := ((z * py + k) * rt)%nat) in *.
  set (S0 := ((z * sy + k) * rs)%nat) in *.
  set (buf := pPaddedData st) in *.
  set (buf1 := memcpy buf T raw S0 rs).
  assert (Hlen1 : length buf1 = length buf)
    by (apply length_memcpy; lia).
  assert (Hpk1 : forall i, peek buf1 i =
             if (T <=? i)%nat && (i <? T + rs)%nat
             then peek raw (S0 + (i - T)) else peek buf i)
    by (intros i; apply peek_memcpy; lia).
  split; [| split; lia].
  split.
  - destruct (negb dis && (rs <? rt)%nat) eqn:Hb; [| lia].
    apply andb_prop in Hb as [_ Hlt]. apply Nat.ltb_lt in Hlt.
    rewrite length_memcpy; lia.
  - intros z' y' xb' Hz'' Hy'' Hxb'.
    specialize (Hval z' y' xb' Hz'' Hy'' Hxb').
    set (i := ((z' * py + y') * rt + xb')%nat) in *.
    assert (Hnew : peek (if negb dis && (rs <? rt)%nat
                         then memcpy buf1 (T + rs) buf1 (T + rs - es) es
                         else buf1) i =
                   if (T <=? i)%nat && (i <? T + rs)%nat
                   then peek raw (S0 + (i - T))
                   else if negb dis && (rs <? rt)%nat && (T + rs <=? i)%nat
                           && (i <? T + rs + es)%nat
                        then peek raw (S0 + (i - T - es))
                        else peek buf i).
    { destruct (negb dis && (rs <? rt)%nat) eqn:Hb; simpl.
      - apply andb_prop in Hb as [_ Hlt]. apply Nat.ltb_lt in Hlt.
        rewrite peek_memcpy by lia. rewrite !Hpk1.
        destruct (Nat.leb_spec (T + rs) i), (Nat.ltb_spec i (T + rs + es)),
          (Nat.leb_spec T i), (Nat.ltb_spec i (T + rs)); simpl; try lia;
          try reflexivity.
        + destruct (Nat.leb_spec T (T + rs - es + (i - (T + rs)))),
            (Nat.ltb_spec (T + rs - es + (i - (T + rs))) (T + rs));
            simpl; try lia. f_equal. lia.
      - apply Hpk1. }
    rewrite Hnew. clear Hnew.
    destruct (Nat.lt_total (z' * py + y') (z * py + k)) as [Hlt | [Heq | Hgt]].
    + pose proof (row_offset_lt _ _ rt xb' Hlt Hxb') as Hi. fold i T in Hi.
      destruct (Nat.ltb_spec (z' * py + y') (z * py + k)); [| lia].
      destruct (Nat.ltb_spec (z' * py + y') (z * py + k + 1)); [| lia].
      destruct (Nat.leb_spec T i); [lia |]. simpl.
      destruct (Nat.leb_spec (T + rs) i); [lia |].
      rewrite andb_false_r. simpl. exact Hval.
    + destruct (plane_row_unique py z' y' z k Hy'' ltac:(lia) Heq) as [-> ->].
      assert (Hi : i = (T + xb')%nat) by (unfold i, T; lia).
      destruct (Nat.ltb_spec (z * py + k) (z * py + k + 1)); [| lia].
      unfold row_byte, replicated_byte, replicated.
      destruct (Nat.ltb_spec k sy); [| lia].
      destruct (Nat.ltb_spec z sz); [| lia].
      destruct (Nat.leb_spec T i); [| lia]. simpl.
      destruct (Nat.ltb_spec i (T + rs)), (Nat.ltb_spec xb' rs); try lia.
      * f_equal. unfold S0. lia.
      * destruct (Nat.leb_spec (T + rs) i); [| lia].
        rewrite andb_true_r.
        destruct (negb dis); simpl.
        -- destruct (Nat.ltb_spec rs rt); [| lia]. simpl.
           destruct (Nat.ltb_spec i (T + rs + es)),
             (Nat.ltb_spec xb' (rs + es)); try lia.
           ++ f_equal. unfold S0. lia.
           ++ rewrite Hval.
              destruct (Nat.ltb_spec (z * py + k) (z * py + k)); [lia |].
              reflexivity.
        -- rewrite Hval.
           destruct (Nat.ltb_spec (z * py + k) (z * py + k)); [lia |].
           reflexivity.
    + pose proof (row_offset_ge (z' * py + y') (z * py + k + 1) rt xb'
                    ltac:(lia)) as Hi.
      fold i in Hi.
      assert (Hi' : (T + rt <= i)%nat) by (unfold T; lia).
      destruct (Nat.ltb_spec (z' * py + y') (z * py + k)); [lia |].
      destruct (Nat.ltb_spec (z' * py + y') (z * py + k + 1)); [lia |].
      destruct (Nat.ltb_spec i (T + rs)); [lia |].
      rewrite andb_false_r.
      destruct (Nat.ltb_spec i (T + rs + es)).
      * destruct (Nat.ltb_spec rs rt).
        -- specialize (Hgap ltac:(lia)). lia.
        -- rewrite andb_false_r. simpl. exact Hval.
      * rewrite andb_false_r. exact Hval.
Qed.

Lemma PadData_rows_inv (z k : nat) (st : PadState) :
  (z < sz)%nat -> (k <= sy)%nat ->
  Inv (z * py) (pPaddedData st) ->
  iTarget st = (z * py * rt)%nat ->
  iSource st = (z * sy * rs)%nat ->
  Inv (z * py + k) (pPaddedData (Nat.iter k row st)) /\
  iTarget (Nat.iter k row st) = ((z * py + k) * rt)%nat /\
  iSource (Nat.iter k row st) = ((z * sy + k) * rs)%nat.
Proof.
  intros Hz' Hk HI HT HS. induction k as [| k IH].
  - simpl. rewrite !Nat.add_0_r. auto.
  - destruct (IH ltac:(lia)) as (HI' & HT' & HS').
    replace (z * py + S k)%nat with (z * py + k + 1)%nat by lia.
    replace (z * sy + S k)%nat with (z * sy + k + 1)%nat by lia.
    simpl. apply PadData_row_inv; auto; lia.
Qed.

Lemma row_byte_outside_y (z y xb : nat) :
  replicated dis sy y = None -> row_byte dis raw es sx sy sz z y xb = 0.
Proof.
  intros H. unfold row_byte. rewrite H.
  now destruct (replicated_byte dis es rs xb).
Qed.

Lemma row_byte_outside_z (z y xb : nat) :
  replicated dis sz z = None -> row_byte dis raw es sx sy sz z y xb = 0.
Proof.
  intros H. unfold row_byte. rewrite H.
  destruct (replicated_byte dis es rs xb); [| reflexivity].
  now destruct (replicated dis sy y).
Qed.

Lemma replicated_edge (s : nat) :
  (1 <= s)%nat -> dis = false ->
  replicated dis s s = replicated dis s (s - 1).
Proof.
  intros Hs ->. unfold replicated.
  rewrite Nat.ltb_irrefl, Nat.eqb_refl. simpl.
  destruct (Nat.ltb_spec (s - 1) s); [reflexivity | lia].
Qed.

Lemma replicated_beyond (s c : nat) :
  (s <= c)%nat -> (dis = true \/ (s < c)%nat) -> replicated dis s c = None.
Proof.
  intros Hc H. unfold replicated.
  destruct (Nat.ltb_spec c s); [lia |].
  destruct H as [-> | H]; [reflexivity |].
  destruct (Nat.eqb_spec c s); [lia |]. now rewrite andb_false_r.
Qed.

Lemma PadData_plane_inv (z : nat) (st : PadState) :
  (z < sz)%nat ->
  Inv (z * py) (pPaddedData st) ->
  iTarget st = (z * py * rt)%nat ->
  iSource st = (z * sy * rs)%nat ->
  Inv ((z + 1) * py) (pPaddedData (plane st)) /\
  iTarget (plane st) = ((z + 1) * py * rt)%nat /\
  iSource (plane st) = ((z + 1) * sy * rs)%nat.
Proof.
  intros Hz' HI HT HS.
  destruct (PadData_rows_inv z sy st Hz' (Nat.le_refl _) HI HT HS)
    as ([Hlen Hval] & HT1 & HS1).
  unfold PadData_plane.
  set (st1 := Nat.iter sy row st) in *.
  assert (HSrc : ((z * sy + sy) * rs = (z + 1) * sy * rs)%nat)
    by (f_equal; lia).
  destruct (Nat.ltb_spec sy py) as [Hlt | Hge].
  - simpl. rewrite HT1, HS1.
    set (T := ((z * py + sy) * rt)%nat) in *.
    assert (HT2 : (T + (py - sy) * rt = (z + 1) * py * rt)%nat).
    { unfold T. rewrite <- Nat.mul_add_distr_r. f_equal. lia. }
    pose proof (target_row_fits z sy ltac:(lia) Hlt) as Bt. fold T in Bt.
    assert (Hrt : (rt <= T)%nat).
    { unfold T. pose proof (row_offset_ge (z * py + sy) 1 rt 0 ltac:(lia)).
      lia. }
    split; [| split; [exact HT2 | exact HSrc]].
    split.
    + destruct (negb dis); [rewrite length_memcpy; lia | exact Hlen].
    + intros z' y' xb' Hz'' Hy'' Hxb'.
      pose proof (Hval z' y' xb' Hz'' Hy'' Hxb') as Hold.
      set (i := ((z' * py + y') * rt + xb')%nat) in *.
      pose proof (plane_row_lt py z' y' z sy Hy'' Hlt) as L1.
      pose proof (plane_row_lt py z' y' (z + 1) 0 Hy'' ltac:(lia)) as L2.
      rewrite Nat.add_0_r in L2.
      destruct (Nat.ltb_spec (z' * py + y') (z * py + sy)) as [Hr | Hr].
      * (* rows already written *)
        destruct (Nat.ltb_spec (z' * py + y') ((z + 1) * py)) as [_ | Hr2];
          [| lia].
        pose proof (row_offset_lt _ _ rt xb' Hr Hxb') as Hi. fold i T in Hi.
        destruct (negb dis); [| exact Hold].
        rewrite peek_memcpy by lia.
        destruct (Nat.leb_spec T i); [lia |]. exact Hold.
      * destruct (Nat.ltb_spec (z' * py + y') ((z + 1) * py)) as [Hr2 | Hr2].
        -- (* the padded rows of this plane *)
           assert (Hzz : z' = z) by lia. subst z'.
           assert (Hyy : (sy <= y')%nat) by lia.
           destruct (negb dis) eqn:Hnd.
           2:{ rewrite Hold. symmetry. apply row_byte_outside_y.
               apply replicated_beyond; [lia | left].
               now apply negb_false_iff. }
           apply negb_true_iff in Hnd.
           ++ rewrite peek_memcpy by lia.
              destruct (Nat.eq_dec y' sy) as [-> | Hne].
              ** assert (Hi : i = (T + xb')%nat) by (unfold i, T; lia).
                 destruct (Nat.leb_spec T i); [| lia].
                 destruct (Nat.ltb_spec i (T + rt)); [| lia]. simpl.
                 replace (T - rt + (i - T))%nat
                   with ((z * py + (sy - 1)) * rt + xb')%nat.
                 2:{ rewrite Hi. unfold T.
                     replace (z * py + sy)%nat with (z * py + (sy - 1) + 1)%nat
                       by lia.
                     rewrite (Nat.mul_add_distr_r _ 1 rt). lia. }
                 rewrite (Hval z (sy - 1)%nat xb' Hz'' ltac:(lia) Hxb').
                 destruct (Nat.ltb_spec (z * py + (sy - 1)) (z * py + sy));
                   [| lia].
                 unfold row_byte.
                 now rewrite (replicated_edge sy ltac:(lia) Hnd).
              ** pose proof (row_offset_ge (z * py + y') (z * py + sy + 1) rt
                               xb' ltac:(lia)) as Hi.
                 fold i in Hi.
                 assert (Hi' : (T + rt <= i)%nat) by (unfold T; lia).
                 destruct (Nat.ltb_spec i (T + rt)); [lia |].
                 rewrite andb_false_r, Hold. symmetry.
                 apply row_byte_outside_y.
                 apply replicated_beyond; [lia | right; lia].
        -- (* later planes *)
           pose proof (row_offset_ge (z' * py + y') ((z + 1) * py) rt xb' Hr2)
             as Hi.
           fold i in Hi. rewrite <- HT2 in Hi.
           assert (Hd : (1 <= py - sy)%nat) by lia.
           pose proof (Nat.mul_le_mono_r 1 (py - sy) rt Hd).
           destruct (negb dis); [| exact Hold].
           rewrite peek_memcpy by lia.
           destruct (Nat.ltb_spec i (T + rt)); [lia |].
           rewrite andb_false_r. exact Hold.
  - assert (Hpy : sy = py) by lia.
    rewrite HT1, HS1.
    replace ((z + 1) * py)%nat with (z * py + sy)%nat by lia.
    repeat split; auto.
Qed.

Lemma pad_inv_zeroed : Inv 0 (zeroed (rt * py * pz)).
Proof.
  split.
  - unfold zeroed. apply repeat_length.
  - intros z y xb _ _ _. rewrite peek_zeroed. reflexivity.
Qed.

Lemma PadData_planes_inv (z : nat) :
  (z <= sz)%nat ->
  let st := Nat.iter z plane
              {| pPaddedData := zeroed (rt * py * pz);
                 iTarget := 0%nat; iSource := 0%nat |} in
  Inv (z * py) (pPaddedData st) /\
  iTarget st = (z * py * rt)%nat /\
  iSource st = (z * sy * rs)%nat.
Proof.
  intros Hz'. induction z as [| z IH].
  - simpl. split; [exact pad_inv_zeroed | auto].
  - destruct (IH ltac:(lia)) as (HI & HT & HS).
    cbv zeta. rewrite Nat.iter_succ.
    replace (S z) with (z + 1)%nat by lia.
    apply PadData_plane_inv; auto; lia.
Qed.

(** The array after the last step of [PadData], the copy of the last
    plane. *)
Lemma PadData_loops_bytes :
  let st := Nat.iter sz plane
              {| pPaddedData := zeroed (rt * py * pz);
                 iTarget := 0%nat; iSource := 0%nat |} in
  let buf := if negb dis && (sz <? pz)%nat
             then memcpy (pPaddedData st) (iTarget st)
                         (pPaddedData st) (iTarget st - py * rt) (py * rt)
             else pPaddedData st in
  length buf = (rt * py * pz)%nat /\
  forall z y xb : nat,
    (z < pz)%nat -> (y < py)%nat -> (xb < rt)%nat ->
    peek buf ((z * py + y) * rt + xb) = row_byte dis raw es sx sy sz z y xb.
Proof.
  cbv zeta.
  destruct (PadData_planes_inv sz (Nat.le_refl _)) as ([Hlen Hval] & HT & _).
  cbv zeta in Hlen, Hval, HT.
  set (st := Nat.iter sz plane _) in *.
  rewrite HT.
  set (T := (sz * py * rt)%nat) in *.
  assert (Hcopy : negb dis && (sz <? pz)%nat = true ->
                  (T + py * rt <= rt * py * pz)%nat /\ (py * rt <= T)%nat).
  { intros Hb. apply andb_prop in Hb as [_ Hlt]. apply Nat.ltb_lt in Hlt.
    split.
    - unfold T. pose proof (Nat.mul_le_mono_r (S sz) pz (py * rt) Hlt).
      replace (rt * py * pz)%nat with (pz * (py * rt))%nat by ring.
      simpl in H. lia.
    - unfold T. pose proof (Nat.mul_le_mono_r 1 sz (py * rt) ltac:(lia)).
      rewrite <- Nat.mul_assoc. lia. }
  split.
  { destruct (negb dis && (sz <? pz)%nat); [| exact Hlen].
    destruct (Hcopy eq_refl). rewrite length_memcpy; lia. }
  intros z y xb Hz' Hy' Hxb.
  pose proof (Hval z y xb Hz' Hy' Hxb) as Hold.
  set (i := ((z * py + y) * rt + xb)%nat) in *.
  pose proof (plane_row_lt py z y sz 0 Hy' ltac:(lia)) as L.
  rewrite Nat.add_0_r in L.
  destruct (negb dis && (sz <? pz)%nat) eqn:Hb.
  - destruct (Hcopy eq_refl) as [Bt Bs].
    apply andb_prop in Hb as [Hnd Hlt].
    apply negb_true_iff in Hnd. apply Nat.ltb_lt in Hlt.
    rewrite peek_memcpy by lia.
    destruct (Nat.lt_total z sz) as [Hz1 | [Hz1 | Hz1]].
    + destruct (Nat.ltb_spec (z * py + y) (sz * py)); [| lia].
      pose proof (row_offset_lt (z * py + y) (sz * py) rt xb ltac:(lia) Hxb)
        as Hi.
      fold i T in Hi.
      destruct (Nat.leb_spec T i); [lia |]. exact Hold.
    + subst z.
      assert (Hi : i = (T + (y * rt + xb))%nat) by (unfold i, T; lia).
      pose proof (row_offset_lt y py rt xb Hy' Hxb) as Hrow.
      destruct (Nat.leb_spec T i); [| lia].
      destruct (Nat.ltb_spec i (T + py * rt)); [| lia]. simpl.
      replace (T - py * rt + (i - T))%nat
        with (((sz - 1) * py + y) * rt + xb)%nat.
      2:{ rewrite Hi. unfold T.
          replace sz with ((sz - 1) + 1)%nat at 2 by lia.
          rewrite !Nat.mul_add_distr_r. lia. }
      rewrite (Hval (sz - 1)%nat y xb ltac:(lia) Hy' Hxb).
      pose proof (plane_row_lt py (sz - 1) y sz 0 Hy' ltac:(lia)) as L'.
      rewrite Nat.add_0_r in L'.
      destruct (Nat.ltb_spec ((sz - 1) * py + y) (sz * py)); [| lia].
      unfold row_byte.
      now rewrite (replicated_edge sz ltac:(lia) Hnd).
    + pose proof (row_offset_ge (z * py + y) ((sz + 1) * py) rt xb) as Hi.
      pose proof (plane_row_lt py z y (sz + 1) 0 Hy' ltac:(lia)) as L'.
      rewrite Nat.add_0_r in L'.
      specialize (Hi ltac:(lia)). fold i in Hi.
      assert (Hi' : (T + py * rt <= i)%nat).
      { unfold T. rewrite Nat.mul_add_distr_r in Hi.
        rewrite (Nat.mul_comm py rt). rewrite Nat.mul_1_l in Hi.
        rewrite (Nat.mul_add_distr_r) in Hi. lia. }
      destruct (Nat.ltb_spec i (T + py * rt)); [lia |].
      rewrite andb_false_r, Hold.
      destruct (Nat.ltb_spec (z * py + y) (sz * py)); [lia |].
      symmetry. apply row_byte_outside_z.
      apply replicated_beyond; [lia | right; lia].
  - rewrite Hold.
    destruct (Nat.ltb_spec (z * py + y) (sz * py)) as [Hr | Hr];
      [reflexivity |].
    symmetry. apply row_byte_outside_z.
    apply replicated_beyond; [lia |].
    apply andb_false_iff in Hb as [Hb | Hb].
    + left. now apply negb_false_iff.
    + apply Nat.ltb_ge in Hb. lia.
Qed.

End PadLoop.

(** ** [PadData], voxel by voxel *)

Lemma replicated_byte_voxel (dis : bool) (es sx x b : nat) :
  (1 <= sx)%nat -> (b < es)%nat ->
  replicated_byte dis es (sx * es) (x * es + b) =
  match replicated dis sx x with
  | Some x' => Some (x' * es + b)%nat
  | None => None
  end.
Proof.
  intros Hsx Hb. unfold replicated_byte, replicated.
  destruct (Nat.ltb_spec x sx) as [Hx | Hx].
  - pose proof (row_offset_lt x sx es b Hx Hb).
    destruct (Nat.ltb_spec (x * es + b) (sx * es)); [reflexivity | lia].
  - pose proof (row_offset_ge x sx es b Hx).
    destruct (Nat.ltb_spec (x * es + b) (sx * es)); [lia |].
    destruct (negb dis); simpl; [| reflexivity].
    destruct (Nat.eqb_spec x sx) as [-> | Hne].
    + destruct (Nat.ltb_spec (sx * es + b) (sx * es + es)); [| lia].
      f_equal. pose proof (Nat.mul_sub_distr_r sx 1 es).
      pose proof (Nat.mul_le_mono_r 1 sx es Hsx). lia.
    + pose proof (row_offset_ge x (sx + 1) es b ltac:(lia)).
      destruct (Nat.ltb_spec (x * es + b) (sx * es + es)); [lia | reflexivity].
Qed.

Lemma row_byte_voxel (dis : bool) (raw : list byte)
  (es sx sy sz x y z b : nat) :
  (1 <= sx)%nat -> (b < es)%nat ->
  row_byte dis raw es sx sy sz z y (x * es + b) =
  padded_byte dis raw (sx, sy, sz) es x y z b.
Proof.
  intros Hsx Hb. unfold row_byte, padded_byte.
  rewrite replicated_byte_voxel by assumption.
  destruct (replicated dis sx x) as [x' |]; [| reflexivity].
  destruct (replicated dis sy y) as [y' |]; [| reflexivity].
  destruct (replicated dis sz z) as [z' |]; [| reflexivity].
  f_equal. unfold voxel_offset. ring.
Qed.

(** [PadData] returns the padded extents, an array of that many elements,
    and in it the bytes [padded_byte] describes. *)
Lemma PadData_bytes (dis : bool) (raw : list byte)
  (sx sy sz iBitWidth iCompCount : nat) :
  (1 <= sx)%nat -> (1 <= sy)%nat -> (1 <= sz)%nat ->
  (sx * (iBitWidth / 8 * iCompCount) * sy * sz <= length raw)%nat ->
  let es := (iBitWidth / 8 * iCompCount)%nat in
  let out := PadData dis raw (sx, sy, sz) iBitWidth iCompCount in
  snd out = (NextPow2 sx, NextPow2 sy, NextPow2 sz) /\
  length (fst out) = (NextPow2 sx * es * NextPow2 sy * NextPow2 sz)%nat /\
  forall x y z b : nat,
    (x < NextPow2 sx)%nat -> (y < NextPow2 sy)%nat -> (z < NextPow2 sz)%nat ->
    (b < es)%nat ->
    peek (fst out) (voxel_offset (NextPow2 sx) (NextPow2 sy) es x y z b) =
    padded_byte dis raw (sx, sy, sz) es x y z b.
Proof.
  intros Hsx Hsy Hsz Hraw es out.
  pose proof (NextPow2_ge sx) as Px.
  pose proof (NextPow2_ge sy) as Py.
  pose proof (NextPow2_ge sz) as Pz.
  pose proof (PadData_loops_bytes dis raw es sx sy sz
                (NextPow2 sx) (NextPow2 sy) (NextPow2 sz)
                ltac:(lia) ltac:(lia) ltac:(lia) Hraw) as L.
  cbv zeta in L.
  destruct L as [Hlen Hpk].
  split; [reflexivity |]. split; [exact Hlen |].
  intros x y z b Hx Hy Hz Hb.
  pose proof (row_offset_lt x (NextPow2 sx) es b Hx Hb) as Hxb.
  specialize (Hpk z y (x * es + b)%nat Hz Hy ltac:(lia)).
  rewrite row_byte_voxel in Hpk by assumption.
  rewrite <- Hpk. unfold out, PadData, voxel_offset. simpl fst.
  f_equal. fold es. ring.
Qed.

Lemma replicated_clamp (s c : nat) :
  (1 <= s)%nat ->
  replicated false s c =
  if (c <=? s)%nat then Some (clamp_to_edge s c) else None.
Proof.
  intros Hs. unfold replicated, clamp_to_edge. simpl.
  destruct (Nat.ltb_spec c s), (Nat.eqb_spec c s), (Nat.leb_spec c s);
    try lia; try reflexivity; f_equal; lia.
Qed.

Lemma replicated_inside (dis : bool) (s c : nat) :
  (c < s)%nat -> replicated dis s c = Some c.
Proof.
  intros H. unfold replicated.
  destruct (Nat.ltb_spec c s); [reflexivity | lia].
Qed.

(** Every offset into a row-major array belongs to one row of one plane. *)
Lemma flat_decompose (w p q i : nat) :
  (i < w * p * q)%nat ->
  exists z y xb : nat,
    (z < q)%nat /\ (y < p)%nat /\ (xb < w)%nat /\
    i = ((z * p + y) * w + xb)%nat.
Proof.
  intros Hi.
  assert (Hw : w <> 0%nat) by (intros ->; simpl in Hi; lia).
  assert (Hp : p <> 0%nat) by (intros ->; rewrite Nat.mul_0_r in Hi; simpl in Hi; lia).
  exists ((i / w) / p)%nat, ((i / w) mod p)%nat, (i mod w)%nat.
  assert (Hr : (i / w < p * q)%nat).
  { apply Nat.Div0.div_lt_upper_bound. rewrite Nat.mul_assoc. exact Hi. }
  repeat split.
  - now apply Nat.Div0.div_lt_upper_bound.
  - now apply Nat.mod_upper_bound.
  - now apply Nat.mod_upper_bound.
  - pose proof (Nat.div_mod_eq i w) as E1.
    pose proof (Nat.div_mod_eq (i / w) p) as E2.
    rewrite (Nat.mul_comm (i / w / p) p), <- E2. lia.
Qed.

(** C2, as amended: with the border enabled [PadData] replicates one
    position per axis. A padded voxel that lies at most one position beyond
    the source extent on every axis holds the bytes of the nearest source
    voxel (the last element of its row, the last row of its plane, the last
    plane); every padded voxel further out is zero. *)
Theorem PadData_border_replication (raw : list byte)
  (sx sy sz iBitWidth iCompCount x y z b : nat) :
  (1 <= sx)%nat -> (1 <= sy)%nat -> (1 <= sz)%nat ->
  (sx * (iBitWidth / 8 * iCompCount) * sy * sz <= length raw)%nat ->
  (x < NextPow2 sx)%nat -> (y < NextPow2 sy)%nat -> (z < NextPow2 sz)%nat ->
  (b < iBitWidth / 8 * iCompCount)%nat ->
  peek (fst (PadData false raw (sx, sy, sz) iBitWidth iCompCount))
       (voxel_offset (NextPow2 sx) (NextPow2 sy)
                     (iBitWidth / 8 * iCompCount) x y z b) =
  if (x <=? sx)%nat && (y <=? sy)%nat && (z <=? sz)%nat
  then peek raw
         (voxel_offset sx sy (iBitWidth / 8 * iCompCount)
                       (clamp_to_edge sx x) (clamp_to_edge sy y)
                       (clamp_to_edge sz z) b)
  else 0.
Proof.
  intros Hsx Hsy Hsz Hraw Hx Hy Hz Hb.
  destruct (PadData_bytes false raw sx sy sz iBitWidth iCompCount
              Hsx Hsy Hsz Hraw) as (_ & _ & Hpk).
  rewrite (Hpk x y z b Hx Hy Hz Hb).
  unfold padded_byte. rewrite !replicated_clamp by assumption.
  destruct (x <=? sx)%nat, (y <=? sy)%nat, (z <=? sz)%nat; reflexivity.
Qed.

Lemma PadData_border_replication_witness :
  peek (fst (PadData false [1; 2; 3; 4; 5] (5, 1, 1)%nat 8 1))
       (voxel_offset (NextPow2 5) (NextPow2 1) (8 / 8 * 1) 5 0 0 0) = 5.
Proof.
  apply (PadData_border_replication [1; 2; 3; 4; 5] 5 1 1 8 1 5 0 0 0);
    vm_compute; lia.
Defined.

(** Clamp-to-edge over the whole padding region fails: in a 5 x 5 x 5
    brick of one-byte voxels, padded to 8 x 8 x 8, the voxel (6, 0, 0)
    stays zero although the nearest source voxel (4, 0, 0) is not. *)
Lemma PadData_not_clamp_replicated :
  ~ clamp_replicated (repeat 1 125) (5, 5, 5)%nat 8 1.
Proof.
  intros H. unfold clamp_replicated in H.
  specialize (H 6 0 0 0)%nat.
  assert (E : 0 = 1); [| discriminate E].
  apply H; vm_compute; auto; lia.
Qed.

(** C8: on a brick whose three extents are powers of two, [PadData] is the
    identity, whatever the border flag: it returns the extents and the
    bytes it was given. *)
Theorem PadData_pow2_identity (bDisableBorder : bool) (raw : list byte)
  (kx ky kz iBitWidth iCompCount : nat) :
  length raw = (2 ^ kx * 2 ^ ky * 2 ^ kz * (iBitWidth / 8 * iCompCount))%nat ->
  PadData bDisableBorder raw (2 ^ kx, 2 ^ ky, 2 ^ kz)%nat iBitWidth iCompCount
  = (raw, (2 ^ kx, 2 ^ ky, 2 ^ kz)%nat).
Proof.
  intros Hlen.
  assert (Hpos : forall k, (1 <= 2 ^ k)%nat).
  { intros k. assert (2 ^ k <> 0)%nat by (apply Nat.pow_nonzero; lia). lia. }
  set (sx := (2 ^ kx)%nat) in *.
  set (sy := (2 ^ ky)%nat) in *.
  set (sz := (2 ^ kz)%nat) in *.
  set (es := (iBitWidth / 8 * iCompCount)%nat) in *.
  destruct (PadData_bytes bDisableBorder raw sx sy sz iBitWidth iCompCount
              (Hpos kx) (Hpos ky) (Hpos kz)) as (Hdim & Hl & Hpk).
  { fold es. rewrite Hlen. apply Nat.eq_le_incl. ring. }
  fold es in Hl, Hpk. unfold sx, sy, sz in Hdim, Hl, Hpk.
  rewrite !NextPow2_pow in Hdim, Hl, Hpk. fold sx sy sz in Hdim, Hl, Hpk.
  rewrite (surjective_pairing (PadData _ _ _ _ _)), Hdim. f_equal.
  apply (nth_ext _ _ 0 0).
  - rewrite Hl, Hlen. ring.
  - intros i Hi. rewrite Hl in Hi.
    destruct (flat_decompose (sx * es) sy sz i Hi)
      as (z & y & xb & Hz & Hy & Hxb & ->).
    destruct (flat_decompose es sx 1 xb ltac:(lia))
      as (z0 & x & b & Hz0 & Hx & Hb & ->).
    assert (z0 = 0)%nat by lia. subst z0. simpl (0 * sx + x)%nat.
    specialize (Hpk x y z b Hx Hy Hz Hb).
    unfold padded_byte in Hpk. rewrite !replicated_inside in Hpk by assumption.
    unfold peek, voxel_offset in Hpk.
    replace ((z * sy + y) * (sx * es) + (x * es + b))%nat
      with (((z * sy + y) * sx + x) * es + b)%nat by ring.
    exact Hpk.
Qed.

Lemma PadData_pow2_identity_witness :
  PadData true [1; 2; 3; 4; 5; 6; 7; 8] (2 ^ 1, 2 ^ 1, 2 ^ 1)%nat 8 1 =
  ([1; 2; 3; 4; 5; 6; 7; 8], (2 ^ 1, 2 ^ 1, 2 ^ 1)%nat).
Proof.
  apply (PadData_pow2_identity true [1; 2; 3; 4; 5; 6; 7; 8] 1 1 1 8 1).
  reflexivity.
Defined.

(** * Further properties *)

(** ** The dataset registry, in general *)

Lemma LoadDataset_reuse_first (l1 l2 : list VolDataListElem)
  (i : VolDataListElem) (f : string) (r : AbstrRenderer) :
  (forall x, In x l1 -> Filename (pVolumeDataset x) <> f) ->
  Filename (pVolumeDataset i) = f ->
  LoadDataset_reuse (l1 ++ i :: l2) f r =
  Some (pVolumeDataset i,
        l1 ++ {| pVolumeDataset := pVolumeDataset i;
                 qpUser := qpUser i ++ [r] |} :: l2).
Proof.
  intros Hl1 Hi. induction l1 as [| x l1 IH]; simpl.
  - rewrite Hi, String.eqb_refl. reflexivity.
  - destruct (String.eqb_spec (Filename (pVolumeDataset x)) f) as [E | _].
    + exfalso. apply (Hl1 x); [now left | exact E].
    + rewrite IH; [reflexivity |]. intros y Hy. apply Hl1. now right.
Qed.

Lemma LoadDataset_reuse_none (l : list VolDataListElem) (f : string)
  (r : AbstrRenderer) :
  (forall x, In x l -> Filename (pVolumeDataset x) <> f) ->
  LoadDataset_reuse l f r = None.
Proof.
  intros Hl. induction l as [| x l IH]; simpl; [reflexivity |].
  destruct (String.eqb_spec (Filename (pVolumeDataset x)) f) as [E | _].
  - exfalso. apply (Hl x); [now left | exact E].
  - rewrite IH; [reflexivity |]. intros y Hy. apply Hl. now right.
Qed.

(** X1: when the registry holds an entry for the file, [LoadDataset]
    returns the dataset of the first such entry, appends the requester to
    that entry's users and changes nothing else; whether the file can be
    opened is not looked at. *)
Theorem LoadDataset_reuses_open_dataset (IsLoaded : string -> bool)
  (m : GPUMemMan) (l1 l2 : list VolDataListElem) (i : VolDataListElem)
  (f : string) (r : AbstrRenderer) :
  m_vpVolumeDatasets m = l1 ++ i :: l2 ->
  (forall x, In x l1 -> Filename (pVolumeDataset x) <> f) ->
  Filename (pVolumeDataset i) = f ->
  LoadDataset IsLoaded m f r =
  (Some (pVolumeDataset i),
   {| m_vpVolumeDatasets :=
        l1 ++ {| pVolumeDataset := pVolumeDataset i;
                 qpUser := qpUser i ++ [r] |} :: l2;
      live := live m; next_addr := next_addr m |}).
Proof.
  intros Hm Hl1 Hi. unfold LoadDataset.
  rewrite Hm, (LoadDataset_reuse_first l1 l2 i f r Hl1 Hi). reflexivity.
Qed.

Lemma LoadDataset_reuses_open_dataset_witness :
  LoadDataset (fun _ => false)
    {| m_vpVolumeDatasets :=
         [{| pVolumeDataset := {| vd_addr := 1; Filename := "a"%string |};
             qpUser := [7%nat] |}];
       live := [1%nat]; next_addr := 2 |} "a"%string 8%nat =
  (Some {| vd_addr := 1; Filename := "a"%string |},
   {| m_vpVolumeDatasets :=
        [{| pVolumeDataset := {| vd_addr := 1; Filename := "a"%string |};
            qpUser := [7%nat; 8%nat] |}];
      live := [1%nat]; next_addr := 2 |}).
Proof.
  exact (LoadDataset_reuses_open_dataset (fun _ => false)
           {| m_vpVolumeDatasets :=
                [{| pVolumeDataset :=
                      {| vd_addr := 1; Filename := "a"%string |};
                    qpUser := [7%nat] |}];
              live := [1%nat]; next_addr := 2 |}
           [] []
           {| pVolumeDataset := {| vd_addr := 1; Filename := "a"%string |};
              qpUser := [7%nat] |} "a"%string 8%nat
           eq_refl (fun x (H : In x []) => match H with end) eq_refl).
Defined.

(** X2: when no entry holds the file and it cannot be opened,
    [LoadDataset] returns [NULL] and the registry list is what it was; the
    [VolumeDataset] object it allocated for the attempt is not deleted. *)
Theorem LoadDataset_failure_keeps_registry (IsLoaded : string -> bool)
  (m : GPUMemMan) (f : string) (r : AbstrRenderer) :
  (forall x, In x (m_vpVolumeDatasets m) -> Filename (pVolumeDataset x) <> f) ->
  IsLoaded f = false ->
  let res := LoadDataset IsLoaded m f r in
  fst res = None /\
  m_vpVolumeDatasets (snd res) = m_vpVolumeDatasets m /\
  live (snd res) = next_addr m :: live m.
Proof.
  intros Hl Hf. unfold LoadDataset.
  rewrite (LoadDataset_reuse_none _ f r Hl), Hf. simpl. auto.
Qed.

Lemma LoadDataset_failure_keeps_registry_witness :
  fst (LoadDataset (fun _ => false) GPUMemMan_new "a"%string 7%nat) = None.
Proof.
  apply (LoadDataset_failure_keeps_registry (fun _ => false) GPUMemMan_new
           "a"%string 7%nat).
  - intros x [].
  - reflexivity.
Defined.

Lemma FreeDataset_scan_absent (l : list VolDataListElem) (p : VolumeDataset)
  (r : AbstrRenderer) :
  (forall x, In x l -> vd_addr (pVolumeDataset x) <> vd_addr p) ->
  FreeDataset_scan l p r = None.
Proof.
  intros Hl. induction l as [| x l IH]; simpl; [reflexivity |].
  rewrite IH by (intros y Hy; apply Hl; now right).
  destruct (Nat.eqb_spec (vd_addr (pVolumeDataset x)) (vd_addr p)) as [E | _];
    [| reflexivity].
  exfalso. apply (Hl x); [now left | exact E].
Qed.



(** The scan at the one entry of a dataset: the first user decides. *)
Lemma FreeDataset_scan_at (l1 l2 : list VolDataListElem)
  (i : VolDataListElem) (p : VolumeDataset) (r : AbstrRenderer) :
  (forall x, In x l1 -> vd_addr (pVolumeDataset x) <> vd_addr p) ->
  (forall x, In x l2 -> vd_addr (pVolumeDataset x) <> vd_addr p) ->
  vd_addr (pVolumeDataset i) = vd_addr p ->
  FreeDataset_scan (l1 ++ i :: l2) p r =
  match qpUser i with
  | j :: users =>
    if Nat.eqb j r
    then match users with
         | [] => Some (Released, l1 ++ l2)
         | _ :: _ =>
           Some (StillInUse,
                 l1 ++ {| pVolumeDataset := pVolumeDataset i;
                          qpUser := users |} :: l2)
         end
    else None
  | [] => None
  end.
Proof.
  intros Hl1 Hl2 Hi. induction l1 as [| x l1 IH]; simpl.
  - rewrite (FreeDataset_scan_absent l2 p r Hl2), Hi, Nat.eqb_refl.
    destruct (qpUser i) as [| j users]; [reflexivity |].
    destruct (Nat.eqb j r); [| reflexivity].
    destruct users; reflexivity.
  - rewrite IH by (intros y Hy; apply Hl1; now right).
    destruct (Nat.eqb_spec (vd_addr (pVolumeDataset x)) (vd_addr p))
      as [E | _].
    { exfalso. apply (Hl1 x); [now left | exact E]. }
    destruct (qpUser i) as [| j users]; [reflexivity |].
    destruct (Nat.eqb j r); [| reflexivity].
    destruct users; reflexivity.
Qed.

(** X4: on a registry whose addresses lie below [next_addr] and that does
    not hold the file, a successful [LoadDataset] followed by
    [FreeDataset] of the returned dataset by the same requester releases
    the dataset and restores the registry list and the heap. *)
Theorem LoadDataset_FreeDataset_roundtrip (IsLoaded : string -> bool)
  (m : GPUMemMan) (f : string) (r : AbstrRenderer) :
  registry_wf m ->
  (forall x, In x (m_vpVolumeDatasets m) -> Filename (pVolumeDataset x) <> f) ->
  IsLoaded f = true ->
  exists d,
    fst (LoadDataset IsLoaded m f r) = Some d /\
    let res := FreeDataset (snd (LoadDataset IsLoaded m f r)) d r in
    fst res = Released /\
    m_vpVolumeDatasets (snd res) = m_vpVolumeDatasets m /\
    live (snd res) = live m.
Proof.
  intros [Hwf Hlive] Hl Hf.
  exists {| vd_addr := next_addr m; Filename := f |}.
  unfold LoadDataset. rewrite (LoadDataset_reuse_none _ f r Hl), Hf.
  split; [reflexivity |]. cbn [snd fst]. unfold FreeDataset. cbn [m_vpVolumeDatasets].
  rewrite (FreeDataset_scan_at (m_vpVolumeDatasets m) []
             {| pVolumeDataset := {| vd_addr := next_addr m; Filename := f |};
                qpUser := [r] |}).
  - cbn [qpUser]. rewrite Nat.eqb_refl. cbn.
    rewrite Nat.eqb_refl. cbn. rewrite app_nil_r.
    repeat split.
    induction (live m) as [| a t IH]; [reflexivity |].
    cbn. destruct (Nat.eqb_spec a (next_addr m)) as [E | _].
    + specialize (Hlive a (or_introl eq_refl)). lia.
    + cbn. f_equal. apply IH. intros b Hb. apply Hlive. now right.
  - intros x Hx. specialize (Hwf x Hx). cbn. lia.
  - intros x [].
  - reflexivity.
Qed.

Lemma LoadDataset_FreeDataset_roundtrip_witness :
  exists d,
    fst (LoadDataset (fun _ => true) GPUMemMan_new "a"%string 7%nat) = Some d /\
    let res := FreeDataset
                 (snd (LoadDataset (fun _ => true) GPUMemMan_new
                         "a"%string 7%nat)) d 7%nat in
    fst res = Released /\
    m_vpVolumeDatasets (snd res) = m_vpVolumeDatasets GPUMemMan_new /\
    live (snd res) = live GPUMemMan_new.
Proof.
  apply (LoadDataset_FreeDataset_roundtrip (fun _ => true) GPUMemMan_new
           "a"%string 7%nat).
  - split; intros x [].
  - intros x [].
  - reflexivity.
Defined.

Lemma alive_after_delete (l : list nat) (a : nat) :
  existsb (Nat.eqb a) (filter (fun b => negb (Nat.eqb b a)) l) = false.
Proof.
  induction l as [| b l IH]; [reflexivity |]. cbn.
  destruct (Nat.eqb_spec b a) as [E | E]; cbn; [exact IH |].
  destruct (Nat.eqb_spec a b); [congruence | exact IH].
Qed.

Lemma FreeDataset_all_in_order (p : VolumeDataset)
  (l1 l2 : list VolDataListElem) (d : VolumeDataset)
  (users : list AbstrRenderer) :
  (forall x, In x l1 -> vd_addr (pVolumeDataset x) <> vd_addr p) ->
  (forall x, In x l2 -> vd_addr (pVolumeDataset x) <> vd_addr p) ->
  vd_addr d = vd_addr p ->
  forall (r : AbstrRenderer) (lv : list nat) (nx : nat),
    let m := {| m_vpVolumeDatasets :=
                  l1 ++ {| pVolumeDataset := d; qpUser := r :: users |} :: l2;
                live := lv; next_addr := nx |} in
    FreeDataset_all m p (r :: users) =
    {| m_vpVolumeDatasets := l1 ++ l2;
       live := filter (fun a => negb (Nat.eqb a (vd_addr p))) lv;
       next_addr := nx |}.
Proof.
  intros Hl1 Hl2 Hd.
  assert (Hstep : forall r us lv nx,
            FreeDataset
              {| m_vpVolumeDatasets :=
                   l1 ++ {| pVolumeDataset := d; qpUser := r :: us |} :: l2;
                 live := lv; next_addr := nx |} p r =
            match us with
            | [] =>
              (Released,
               {| m_vpVolumeDatasets := l1 ++ l2;
                  live := filter (fun a => negb (Nat.eqb a (vd_addr p))) lv;
                  next_addr := nx |})
            | _ :: _ =>
              (StillInUse,
               {| m_vpVolumeDatasets :=
                    l1 ++ {| pVolumeDataset := d; qpUser := us |} :: l2;
                  live := lv; next_addr := nx |})
            end).
  { intros r us lv nx. unfold FreeDataset. cbn [m_vpVolumeDatasets].
    rewrite (FreeDataset_scan_at l1 l2
               {| pVolumeDataset := d; qpUser := r :: us |} p r Hl1 Hl2 Hd).
    cbn [qpUser pVolumeDataset]. rewrite Nat.eqb_refl.
    destruct us; reflexivity. }
  induction users as [| r' users IH]; intros r lv nx m; subst m;
    unfold FreeDataset_all; cbn [fold_left]; rewrite Hstep; cbn [snd].
  - reflexivity.
  - apply (IH r' lv nx).
Qed.

(** X5: when the users of a dataset (registered once) release it in the
    order in which they were registered, the last release takes the
    dataset out of the registry and off the heap, and the other entries
    stay as they are. *)
Theorem FreeDataset_in_registration_order (m : GPUMemMan)
  (p : VolumeDataset) (l1 l2 : list VolDataListElem) (i : VolDataListElem) :
  m_vpVolumeDatasets m = l1 ++ i :: l2 ->
  (forall x, In x l1 -> vd_addr (pVolumeDataset x) <> vd_addr p) ->
  (forall x, In x l2 -> vd_addr (pVolumeDataset x) <> vd_addr p) ->
  vd_addr (pVolumeDataset i) = vd_addr p ->
  qpUser i <> [] ->
  let m' := FreeDataset_all m p (qpUser i) in
  m_vpVolumeDatasets m' = l1 ++ l2 /\
  registered m' p = false /\
  alive m' p = false.
Proof.
  intros Hm Hl1 Hl2 Hi Hu. destruct m as [l lv nx]. cbn in Hm. subst l.
  destruct i as [d users]. cbn in Hi, Hu. cbv zeta. cbn [qpUser].
  destruct users as [| r users]; [congruence |].
  pose proof (FreeDataset_all_in_order p l1 l2 d users Hl1 Hl2 Hi r lv nx)
    as E.
  cbv zeta in E. rewrite E.
  split; [reflexivity |]. split.
  - unfold registered. cbn. rewrite existsb_app.
    apply orb_false_iff. split.
    + clear -Hl1. induction l1 as [| x l1 IH]; [reflexivity |]. cbn.
      destruct (Nat.eqb_spec (vd_addr (pVolumeDataset x)) (vd_addr p)) as [E | _].
      * exfalso. apply (Hl1 x); [now left | exact E].
      * apply IH. intros y Hy. apply Hl1. now right.
    + clear -Hl2. induction l2 as [| x l2 IH]; [reflexivity |]. cbn.
      destruct (Nat.eqb_spec (vd_addr (pVolumeDataset x)) (vd_addr p)) as [E | _].
      * exfalso. apply (Hl2 x); [now left | exact E].
      * apply IH. intros y Hy. apply Hl2. now right.
  - unfold alive. cbn. apply alive_after_delete.
Qed.

Lemma FreeDataset_in_registration_order_witness :
  let p := {| vd_addr := 1; Filename := "a"%string |} in
  let i := {| pVolumeDataset := p; qpUser := [7; 8; 9]%nat |} in
  let m := {| m_vpVolumeDatasets := [i]; live := [1%nat]; next_addr := 2 |} in
  m_vpVolumeDatasets (FreeDataset_all m p [7; 8; 9]%nat) = [] /\
  registered (FreeDataset_all m p [7; 8; 9]%nat) p = false /\
  alive (FreeDataset_all m p [7; 8; 9]%nat) p = false.
Proof.
  exact (FreeDataset_in_registration_order
           {| m_vpVolumeDatasets :=
                [{| pVolumeDataset :=
                      {| vd_addr := 1; Filename := "a"%string |};
                    qpUser := [7; 8; 9]%nat |}];
              live := [1%nat]; next_addr := 2 |}
           {| vd_addr := 1; Filename := "a"%string |} [] []
           {| pVolumeDataset := {| vd_addr := 1; Filename := "a"%string |};
              qpUser := [7; 8; 9]%nat |}
           eq_refl (fun x (H : In x []) => match H with end)
           (fun x (H : In x []) => match H with end) eq_refl
           ltac:(discriminate)).
Defined.

(** X6: [FreeDataset] compares the requester with the first user of the
    dataset's entry only. When that first user is someone else, the call
    reports the requester as not found and leaves the manager as it was,
    also when the requester is further down the user list. *)
Theorem FreeDataset_first_user_only (m : GPUMemMan) (p : VolumeDataset)
  (l1 l2 : list VolDataListElem) (i : VolDataListElem)
  (j r : AbstrRenderer) (users : list AbstrRenderer) :
  m_vpVolumeDatasets m = l1 ++ i :: l2 ->
  (forall x, In x l1 -> vd_addr (pVolumeDataset x) <> vd_addr p) ->
  (forall x, In x l2 -> vd_addr (pVolumeDataset x) <> vd_addr p) ->
  vd_addr (pVolumeDataset i) = vd_addr p ->
  qpUser i = j :: users ->
  j <> r ->
  FreeDataset m p r = (NotFound, m).
Proof.
  intros Hm Hl1 Hl2 Hi Hu Hj. unfold FreeDataset.
  rewrite Hm, (FreeDataset_scan_at l1 l2 i p r Hl1 Hl2 Hi), Hu.
  destruct (Nat.eqb_spec j r); [congruence | reflexivity].
Qed.

Lemma FreeDataset_first_user_only_witness :
  let p := {| vd_addr := 1; Filename := "a"%string |} in
  let m := {| m_vpVolumeDatasets :=
                [{| pVolumeDataset := p; qpUser := [7; 8]%nat |}];
              live := [1%nat]; next_addr := 2 |} in
  FreeDataset m p 8%nat = (NotFound, m).
Proof.
  exact (FreeDataset_first_user_only
           {| m_vpVolumeDatasets :=
                [{| pVolumeDataset :=
                      {| vd_addr := 1; Filename := "a"%string |};
                    qpUser := [7; 8]%nat |}];
              live := [1%nat]; next_addr := 2 |}
           {| vd_addr := 1; Filename := "a"%string |} [] []
           {| pVolumeDataset := {| vd_addr := 1; Filename := "a"%string |};
              qpUser := [7; 8]%nat |} 7%nat 8%nat [8%nat]
           eq_refl (fun x (H : In x []) => match H with end)
           (fun x (H : In x []) => match H with end) eq_refl eq_refl
           ltac:(discriminate)).
Defined.

(** ** Simple textures *)

Lemma Load2DTexture_reuse_first (l1 l2 : list SimpleTextureListElem)
  (i : SimpleTextureListElem) (f : string) :
  (forall x, In x l1 -> strFilename x <> f) ->
  strFilename i = f ->
  Load2DTexture_reuse (l1 ++ i :: l2) f =
  Some (pTexture i,
        l1 ++ {| iAccessCounter := iAccessCounter i + 1;
                 pTexture := pTexture i;
                 strFilename := strFilename i |} :: l2).
Proof.
  intros Hl1 Hi. induction l1 as [| x l1 IH]; simpl.
  - rewrite Hi, String.eqb_refl. reflexivity.
  - destruct (String.eqb_spec (strFilename x) f) as [E | _].
    + exfalso. apply (Hl1 x); [now left | exact E].
    + rewrite IH; [reflexivity |]. intros y Hy. apply Hl1. now right.
Qed.

Lemma Load2DTexture_reuse_none (l : list SimpleTextureListElem) (f : string) :
  (forall x, In x l -> strFilename x <> f) ->
  Load2DTexture_reuse l f = None.
Proof.
  intros Hl. induction l as [| x l IH]; simpl; [reflexivity |].
  destruct (String.eqb_spec (strFilename x) f) as [E | _].
  - exfalso. apply (Hl x); [now left | exact E].
  - rewrite IH; [reflexivity |]. intros y Hy. apply Hl. now right.
Qed.

Lemma FreeTexture_scan_absent (l : list SimpleTextureListElem) (p : nat) :
  (forall x, In x l -> pTexture x <> p) ->
  FreeTexture_scan l p = None.
Proof.
  intros Hl. induction l as [| x l IH]; simpl; [reflexivity |].
  destruct (Nat.eqb_spec (pTexture x) p) as [E | _].
  - exfalso. apply (Hl x); [now left | exact E].
  - rewrite IH; [reflexivity |]. intros y Hy. apply Hl. now right.
Qed.

Lemma FreeTexture_scan_at (l1 l2 : list SimpleTextureListElem)
  (i : SimpleTextureListElem) (p : nat) :
  (forall x, In x l1 -> pTexture x <> p) ->
  pTexture i = p ->
  FreeTexture_scan (l1 ++ i :: l2) p =
  if iAccessCounter i - 1 =? 0
  then Some (TexDeleted, l1 ++ l2)
  else Some (TexStillInUse,
             l1 ++ {| iAccessCounter := iAccessCounter i - 1;
                      pTexture := pTexture i;
                      strFilename := strFilename i |} :: l2).
Proof.
  intros Hl1 Hi. induction l1 as [| x l1 IH]; simpl.
  - rewrite Hi, Nat.eqb_refl. reflexivity.
  - destruct (Nat.eqb_spec (pTexture x) p) as [E | _].
    + exfalso. apply (Hl1 x); [now left | exact E].
    + rewrite IH by (intros y Hy; apply Hl1; now right).
      destruct (iAccessCounter i - 1 =? 0); reflexivity.
Qed.

(** X7: when the list holds an entry for the file, [Load2DTextureFromFile]
    returns the texture of the first such entry and raises its access
    counter by one; the file is not read and nothing else changes. *)
Theorem Load2DTextureFromFile_reuses (BMPLoad : string -> option TextureImage)
  (st : SimpleTextures) (l1 l2 : list SimpleTextureListElem)
  (i : SimpleTextureListElem) (f : string) :
  m_vpSimpleTextures st = l1 ++ i :: l2 ->
  (forall x, In x l1 -> strFilename x <> f) ->
  strFilename i = f ->
  Load2DTextureFromFile BMPLoad st f =
  (Some (pTexture i),
   {| m_vpSimpleTextures :=
        l1 ++ {| iAccessCounter := iAccessCounter i + 1;
                 pTexture := pTexture i;
                 strFilename := strFilename i |} :: l2;
      gl_textures := gl_textures st; next_tex := next_tex st |}).
Proof.
  intros Hst Hl1 Hi. unfold Load2DTextureFromFile.
  rewrite Hst, (Load2DTexture_reuse_first l1 l2 i f Hl1 Hi). reflexivity.
Qed.

Lemma Load2DTextureFromFile_reuses_witness :
  fst (Load2DTextureFromFile (fun _ => None)
         {| m_vpSimpleTextures :=
              [{| iAccessCounter := 1; pTexture := 3;
                  strFilename := "logo.bmp"%string |}];
            gl_textures := [3%nat]; next_tex := 4 |} "logo.bmp"%string)
  = Some 3%nat.
Proof.
  rewrite (Load2DTextureFromFile_reuses (fun _ => None)
             {| m_vpSimpleTextures :=
                  [{| iAccessCounter := 1; pTexture := 3;
                      strFilename := "logo.bmp"%string |}];
                gl_textures := [3%nat]; next_tex := 4 |} [] []
             {| iAccessCounter := 1; pTexture := 3;
                strFilename := "logo.bmp"%string |} "logo.bmp"%string
             eq_refl (fun x (H : In x []) => match H with end) eq_refl).
  reflexivity.
Defined.

(** X8: when no entry holds the file and the bitmap cannot be loaded,
    [Load2DTextureFromFile] returns [NULL] and the manager is what it
    was. *)
Theorem Load2DTextureFromFile_failure (BMPLoad : string -> option TextureImage)
  (st : SimpleTextures) (f : string) :
  (forall x, In x (m_vpSimpleTextures st) -> strFilename x <> f) ->
  BMPLoad f = None ->
  Load2DTextureFromFile BMPLoad st f = (None, st).
Proof.
  intros Hl Hf. unfold Load2DTextureFromFile.
  now rewrite (Load2DTexture_reuse_none _ f Hl), Hf.
Qed.

Lemma Load2DTextureFromFile_failure_witness :
  Load2DTextureFromFile (fun _ => None)
    {| m_vpSimpleTextures := []; gl_textures := []; next_tex := 1 |}
    "logo.bmp"%string
  = (None, {| m_vpSimpleTextures := []; gl_textures := []; next_tex := 1 |}).
Proof.
  apply (Load2DTextureFromFile_failure (fun _ => None)
           {| m_vpSimpleTextures := []; gl_textures := []; next_tex := 1 |}
           "logo.bmp"%string).
  - intros x [].
  - reflexivity.
Defined.

(** X9: [FreeTexture] for a texture that no entry holds reports it as not
    found and leaves the manager, and so the texture list and its length,
    as they were. *)
Theorem FreeTexture_unknown_texture (st : SimpleTextures) (p : nat) :
  (forall x, In x (m_vpSimpleTextures st) -> pTexture x <> p) ->
  GPUMemMan_FreeTexture st p = (TexNotFound, st).
Proof.
  intros Hl. unfold GPUMemMan_FreeTexture.
  now rewrite (FreeTexture_scan_absent _ p Hl).
Qed.

Lemma FreeTexture_unknown_texture_witness :
  GPUMemMan_FreeTexture
    {| m_vpSimpleTextures := []; gl_textures := []; next_tex := 1 |} 5%nat
  = (TexNotFound,
     {| m_vpSimpleTextures := []; gl_textures := []; next_tex := 1 |}).
Proof.
  apply (FreeTexture_unknown_texture
           {| m_vpSimpleTextures := []; gl_textures := []; next_tex := 1 |}
           5%nat).
  intros x [].
Defined.

Section TextureCounting.

Variable BMPLoad : string -> option TextureImage.
Variables (l : list SimpleTextureListElem) (f : string) (a : nat).
Variables (g : list nat) (nx : nat).
Hypothesis Hname : forall x, In x l -> strFilename x <> f.
Hypothesis Haddr : forall x, In x l -> pTexture x <> a.

(** The manager in which the file's texture, at the end of the list, has
    been handed out [c] times. *)
Let held (c : Z) : SimpleTextures :=
  {| m_vpSimpleTextures :=
       l ++ [{| iAccessCounter := c; pTexture := a; strFilename := f |}];
     gl_textures := g; next_tex := nx |}.

Lemma load_times_held (n : nat) : forall c : Z,
  load_times BMPLoad n (held c) f = held (c + Z.of_nat n).
Proof.
  induction n as [| n IH]; intros c.
  - cbn [load_times]. now rewrite Z.add_0_r.
  - cbn [load_times].
    rewrite (Load2DTextureFromFile_reuses BMPLoad (held c) l []
               {| iAccessCounter := c; pTexture := a; strFilename := f |} f
               eq_refl Hname eq_refl).
    cbn [snd].
    change (load_times BMPLoad n (held (c + 1)) f = held (c + Z.of_nat (S n))).
    rewrite IH. f_equal. lia.
Qed.

Lemma FreeTexture_held (c : Z) :
  GPUMemMan_FreeTexture (held c) a =
  if c - 1 =? 0
  then (TexDeleted,
        {| m_vpSimpleTextures := l;
           gl_textures := filter (fun b => negb (Nat.eqb b a)) g;
           next_tex := nx |})
  else (TexStillInUse, held (c - 1)).
Proof.
  unfold GPUMemMan_FreeTexture, held. cbn [m_vpSimpleTextures].
  rewrite (FreeTexture_scan_at l []
             {| iAccessCounter := c; pTexture := a; strFilename := f |} a
             Haddr eq_refl).
  cbn [iAccessCounter pTexture strFilename].
  destruct (c - 1 =? 0); [now rewrite app_nil_r | reflexivity].
Qed.

Lemma free_times_held (k : nat) : forall c : Z,
  Z.of_nat k < c ->
  free_times k (held c) a = held (c - Z.of_nat k).
Proof.
  induction k as [| k IH]; intros c Hc.
  - cbn [free_times]. now rewrite Z.sub_0_r.
  - cbn [free_times]. rewrite FreeTexture_held.
    destruct (Z.eqb_spec (c - 1) 0); [lia |]. cbn [snd].
    rewrite IH by lia. f_equal. lia.
Qed.

Lemma free_times_all (k : nat) :
  free_times (S k) (held (Z.of_nat (S k))) a =
  {| m_vpSimpleTextures := l;
     gl_textures := filter (fun b => negb (Nat.eqb b a)) g;
     next_tex := nx |}.
Proof.
  induction k as [| k IH].
  - cbn [free_times]. rewrite FreeTexture_held. reflexivity.
  - change (free_times (S (S k)) ?s a)
      with (free_times (S k) (snd (GPUMemMan_FreeTexture s a)) a).
    rewrite FreeTexture_held.
    destruct (Z.eqb_spec (Z.of_nat (S (S k)) - 1) 0); [lia |]. cbn [snd].
    replace (Z.of_nat (S (S k)) - 1) with (Z.of_nat (S k)) by lia.
    exact IH.
Qed.

End TextureCounting.

Lemma filter_fresh (l : list nat) (n : nat) :
  (forall a, In a l -> (a < n)%nat) ->
  filter (fun b => negb (Nat.eqb b n)) l = l.
Proof.
  intros H. induction l as [| b t IH]; [reflexivity |].
  cbn. destruct (Nat.eqb_spec b n) as [E | _].
  - specialize (H b (or_introl eq_refl)). lia.
  - cbn. f_equal. apply IH. intros c Hc. apply H. now right.
Qed.

(** X10: a texture loaded [n] times, [n >= 1], for a file the list did not
    hold before counts [n] accesses; fewer than [n] calls of [FreeTexture]
    keep its GL resource, and the [n]-th call deletes it and restores the
    texture list and the set of GL resources. *)
Theorem Load2DTexture_FreeTexture_counted
  (BMPLoad : string -> option TextureImage) (st : SimpleTextures)
  (f : string) (image : TextureImage) (n : nat) :
  textures_wf st ->
  (forall x, In x (m_vpSimpleTextures st) -> strFilename x <> f) ->
  BMPLoad f = Some image ->
  let tex := next_tex st in
  let loaded := load_times BMPLoad (S n) st f in
  m_vpSimpleTextures loaded =
    m_vpSimpleTextures st ++
    [{| iAccessCounter := Z.of_nat (S n); pTexture := tex;
        strFilename := f |}] /\
  (forall k, (k <= n)%nat -> In tex (gl_textures (free_times k loaded tex))) /\
  m_vpSimpleTextures (free_times (S n) loaded tex) = m_vpSimpleTextures st /\
  gl_textures (free_times (S n) loaded tex) = gl_textures st.
Proof.
  intros [Hwf Hgl] Hname Hload tex loaded.
  assert (Haddr : forall x, In x (m_vpSimpleTextures st) -> pTexture x <> tex).
  { intros x Hx. specialize (Hwf x Hx). unfold tex. lia. }
  assert (Hloaded : loaded =
            {| m_vpSimpleTextures :=
                 m_vpSimpleTextures st ++
                 [{| iAccessCounter := Z.of_nat (S n); pTexture := tex;
                     strFilename := f |}];
               gl_textures := tex :: gl_textures st;
               next_tex := S tex |}).
  { unfold loaded. cbn [load_times]. unfold Load2DTextureFromFile at 1.
    rewrite (Load2DTexture_reuse_none _ f Hname), Hload. cbn [snd].
    fold tex.
    rewrite (load_times_held BMPLoad (m_vpSimpleTextures st) f tex
               (tex :: gl_textures st) (S tex) Hname n 1).
    replace (Z.of_nat (S n)) with (1 + Z.of_nat n) by lia. reflexivity. }
  rewrite Hloaded. split; [reflexivity |]. split; [| split].
  - intros k Hk.
    rewrite (free_times_held (m_vpSimpleTextures st) f tex
               (tex :: gl_textures st) (S tex) Haddr k) by lia.
    now left.
  - now rewrite (free_times_all (m_vpSimpleTextures st) f tex
                   (tex :: gl_textures st) (S tex) Haddr n).
  - rewrite (free_times_all (m_vpSimpleTextures st) f tex
               (tex :: gl_textures st) (S tex) Haddr n).
    cbn. rewrite Nat.eqb_refl. cbn.
    apply filter_fresh. exact Hgl.
Qed.

Lemma Load2DTexture_FreeTexture_counted_witness :
  let st := {| m_vpSimpleTextures := []; gl_textures := []; next_tex := 1 |} in
  let img := {| img_width := 1; img_height := 1; img_data := [0; 0; 0] |} in
  m_vpSimpleTextures
    (free_times 3 (load_times (fun _ => Some img) 3 st "logo.bmp"%string) 1)
  = [].
Proof.
  apply (Load2DTexture_FreeTexture_counted
           (fun _ => Some {| img_width := 1; img_height := 1;
                             img_data := [0; 0; 0] |})
           {| m_vpSimpleTextures := []; gl_textures := []; next_tex := 1 |}
           "logo.bmp"%string
           {| img_width := 1; img_height := 1; img_data := [0; 0; 0] |} 2).
  - split; intros x [].
  - intros x [].
  - reflexivity.
Defined.

(** ** The search, in general *)

Lemma BestMatch_hit_eligible (e : GLVolumeListElem) (vDimension : UINTVECTOR3)
  (bPow2 b8Bit bBorder b2D : bool) (intra frame : Z) :
  fst (BestMatch e vDimension bPow2 b8Bit bBorder b2D intra frame) = true ->
  eligible vDimension bPow2 b8Bit bBorder b2D e /\
  snd (BestMatch e vDimension bPow2 b8Bit bBorder b2D intra frame) =
  (m_iIntraFrameCounter e, m_iFrameCounter e) /\
  (m_iFrameCounter e < frame \/
   (m_iFrameCounter e = frame /\ intra < m_iIntraFrameCounter e)).
Proof.
  unfold BestMatch, eligible.
  destruct (Match e vDimension); [| discriminate].
  destruct (Z.ltb_spec 0 (iUserCount e)); [discriminate |].
  destruct (Bool.eqb_spec (m_bIsPaddedToPowerOfTwo e) bPow2); [| discriminate].
  destruct (Bool.eqb_spec (m_bIsDownsampledTo8Bits e) b8Bit); [| discriminate].
  destruct (Bool.eqb_spec (m_bDisableBorder e) bBorder); [| discriminate].
  destruct (Bool.eqb_spec (m_bEmulate3DWith2DStacks e) b2D); [| discriminate].
  cbn [negb orb].
  destruct (Z.ltb_spec (m_iFrameCounter e) frame).
  - intros _. repeat split; auto.
  - destruct (Z.eqb_spec frame (m_iFrameCounter e)); cbn [andb];
      [| discriminate].
    destruct (Z.ltb_spec intra (m_iIntraFrameCounter e)); [| discriminate].
    intros _. repeat split; auto; try (right; lia).
Qed.

Lemma BestMatch_miss_keeps (e : GLVolumeListElem) (vDimension : UINTVECTOR3)
  (bPow2 b8Bit bBorder b2D : bool) (intra frame : Z) :
  fst (BestMatch e vDimension bPow2 b8Bit bBorder b2D intra frame) = false ->
  snd (BestMatch e vDimension bPow2 b8Bit bBorder b2D intra frame) =
  (intra, frame).
Proof.
  unfold BestMatch.
  destruct (_ || _ || _ || _ || _ || _); [reflexivity |].
  destruct (m_iFrameCounter e <? frame); [discriminate |].
  destruct (_ && _); [discriminate | reflexivity].
Qed.

Lemma BestMatchLoop_sound (vDimension : UINTVECTOR3)
  (bPow2 b8Bit bBorder b2D : bool) (l : list GLVolumeListElem) :
  forall (pos : nat) (best : option nat) (intra frame : Z) (p : nat),
    BestMatchLoop l pos vDimension bPow2 b8Bit bBorder b2D best intra frame
    = Some p ->
    best = Some p \/
    ((pos <= p)%nat /\
     exists e, nth_error l (p - pos) = Some e /\
               eligible vDimension bPow2 b8Bit bBorder b2D e).
Proof.
  induction l as [| a l IH]; intros pos best intra frame p H; simpl in H.
  - now left.
  - destruct (BestMatch a vDimension bPow2 b8Bit bBorder b2D intra frame)
      as [hit [intra' frame']] eqn:Hbm.
    apply IH in H. destruct H as [H | (Hle & e & Hn & He)].
    + destruct hit; [| now left].
      injection H as <-. right. split; [lia |].
      exists a. rewrite Nat.sub_diag. split; [reflexivity |].
      apply (BestMatch_hit_eligible a vDimension bPow2 b8Bit bBorder b2D
               intra frame).
      now rewrite Hbm.
    + right. split; [lia |]. exists e.
      replace (p - pos)%nat with (S (p - S pos)) by lia. auto.
Qed.

(** X11: whatever the list and the counters the search starts from, a
    position the search returns lies inside the list, and the entry there
    has the requested voxel counts and the four requested flags and is not
    in use. *)
Theorem BestMatchSearch_sound (l : list GLVolumeListElem)
  (vDimension : UINTVECTOR3) (bPow2 b8Bit bBorder b2D : bool)
  (iTargetIntra iTargetFrame : Z) (p : nat) :
  BestMatchSearch l vDimension bPow2 b8Bit bBorder b2D
                  iTargetIntra iTargetFrame = Some p ->
  (p < length l)%nat /\
  exists e, nth_error l p = Some e /\
            GetBrickVoxelCounts (pDataset e) (m_Key e) = vDimension /\
            iUserCount e <= 0 /\
            m_bIsPaddedToPowerOfTwo e = bPow2 /\
            m_bIsDownsampledTo8Bits e = b8Bit /\
            m_bDisableBorder e = bBorder /\
            m_bEmulate3DWith2DStacks e = b2D.
Proof.
  intros H. apply BestMatchLoop_sound in H.
  destruct H as [H | (_ & e & Hn & Hm & Hu & Hf)]; [discriminate |].
  rewrite Nat.sub_0_r in Hn. split.
  - apply nth_error_Some. congruence.
  - exists e. split; [exact Hn |]. split; [| tauto].
    unfold Match in Hm. destruct (volumes e); [discriminate |].
    destruct (GetBrickVoxelCounts (pDataset e) (m_Key e)) as [[a b] c].
    destruct vDimension as [[a' b'] c']. unfold vx, vy, vz in Hm.
    cbn [fst snd] in Hm.
    destruct (Z.eqb_spec a a'); [| discriminate].
    destruct (Z.eqb_spec b b'); [| discriminate].
    destruct (Z.eqb_spec c c'); [| discriminate].
    congruence.
Qed.

Lemma BestMatchSearch_sound_witness :
  exists e, nth_error [entry_A; entry_B; entry_C] 0 = Some e /\
            GetBrickVoxelCounts (pDataset e) (m_Key e) = (4, 4, 4) /\
            iUserCount e <= 0 /\
            m_bIsPaddedToPowerOfTwo e = false /\
            m_bIsDownsampledTo8Bits e = false /\
            m_bDisableBorder e = false /\
            m_bEmulate3DWith2DStacks e = false.
Proof.
  apply (BestMatchSearch_sound [entry_A; entry_B; entry_C] (4, 4, 4)
           false false false false UINT64_INVALID UINT64_INVALID 0).
  vm_compute. reflexivity.
Defined.

Lemma BestMatchLoop_keeps_some (vDimension : UINTVECTOR3)
  (bPow2 b8Bit bBorder b2D : bool) (l : list GLVolumeListElem) :
  forall (pos p : nat) (intra frame : Z),
    BestMatchLoop l pos vDimension bPow2 b8Bit bBorder b2D (Some p)
      intra frame <> None.
Proof.
  induction l as [| a l IH]; intros pos p intra frame; simpl.
  - discriminate.
  - destruct (BestMatch a vDimension bPow2 b8Bit bBorder b2D intra frame)
      as [[|] [intra' frame']]; apply IH.
Qed.

Lemma BestMatchLoop_none (vDimension : UINTVECTOR3)
  (bPow2 b8Bit bBorder b2D : bool) (intra frame : Z)
  (l : list GLVolumeListElem) :
  forall pos : nat,
    BestMatchLoop l pos vDimension bPow2 b8Bit bBorder b2D None intra frame
    = None <->
    forall e, In e l ->
      fst (BestMatch e vDimension bPow2 b8Bit bBorder b2D intra frame) = false.
Proof.
  induction l as [| a l IH]; intros pos; simpl.
  - split; [intros _ e [] | reflexivity].
  - destruct (BestMatch a vDimension bPow2 b8Bit bBorder b2D intra frame)
      as [hit [intra' frame']] eqn:Hbm.
    destruct hit.
    + split.
      * intros H. exfalso. revert H. apply BestMatchLoop_keeps_some.
      * intros H. specialize (H a (or_introl eq_refl)).
        rewrite Hbm in H. discriminate.
    + pose proof (BestMatch_miss_keeps a vDimension bPow2 b8Bit bBorder b2D
                    intra frame) as Hk.
      rewrite Hbm in Hk. specialize (Hk eq_refl). injection Hk as -> ->.
      rewrite IH. split.
      * intros H e [<- | He]; [now rewrite Hbm | now apply H].
      * intros H e He. apply H. now right.
Qed.

(** X12: the search comes back empty-handed exactly when no entry of the
    list answers [true] to [BestMatch] for the counters the search starts
    from; in particular it finds an entry as soon as one unused entry of
    the requested shape and flags carries a frame counter below the start
    value. *)
Theorem BestMatchSearch_none_iff (l : list GLVolumeListElem)
  (vDimension : UINTVECTOR3) (bPow2 b8Bit bBorder b2D : bool)
  (iTargetIntra iTargetFrame : Z) :
  (BestMatchSearch l vDimension bPow2 b8Bit bBorder b2D
                   iTargetIntra iTargetFrame = None <->
   forall e, In e l ->
     fst (BestMatch e vDimension bPow2 b8Bit bBorder b2D
                    iTargetIntra iTargetFrame) = false) /\
  (forall e, In e l ->
     candidate vDimension bPow2 b8Bit bBorder b2D iTargetFrame e ->
     BestMatchSearch l vDimension bPow2 b8Bit bBorder b2D
                     iTargetIntra iTargetFrame <> None).
Proof.
  unfold BestMatchSearch. split; [apply BestMatchLoop_none |].
  intros e He Hc Hnone.
  pose proof (proj1 (BestMatchLoop_none vDimension bPow2 b8Bit bBorder b2D
                       iTargetIntra iTargetFrame l 0) Hnone e He) as Hmiss.
  clear Hnone. rename Hmiss into Hnone.
  rewrite (BestMatch_candidate _ _ _ _ _ _ e _ _ Hc) in Hnone.
  destruct Hc as (_ & _ & _ & _ & _ & _ & Hf).
  destruct (Z.ltb_spec (m_iFrameCounter e) iTargetFrame); [| lia].
  discriminate.
Qed.

(** ** Access *)

Lemma Access_all_app (stamps : list (Z * Z)) (s : Z * Z) :
  forall e : GLVolumeListElem,
    Access_all e (stamps ++ [s]) =
    snd (Access (Access_all e stamps) (fst s) (snd s)).
Proof.
  unfold Access_all. intros e. now rewrite fold_left_app.
Qed.

(** X13: [n] calls of [Access] raise the user count by [n], leave the
    volumes and the identity of the entry alone, and leave the entry
    stamped with the counters of the last call. *)
Theorem Access_all_counts (stamps : list (Z * Z)) (s : Z * Z)
  (e : GLVolumeListElem) :
  let e' := Access_all e (stamps ++ [s]) in
  iUserCount e' = iUserCount e + Z.of_nat (length (stamps ++ [s])) /\
  (m_iIntraFrameCounter e', m_iFrameCounter e') = s /\
  volumes e' = volumes e /\
  pDataset e' = pDataset e /\ m_Key e' = m_Key e.
Proof.
  assert (H : forall st e0,
            iUserCount (Access_all e0 st) =
              iUserCount e0 + Z.of_nat (length st) /\
            volumes (Access_all e0 st) = volumes e0 /\
            pDataset (Access_all e0 st) = pDataset e0 /\
            m_Key (Access_all e0 st) = m_Key e0).
  { induction st as [| x st IH]; intros e0.
    - cbn. repeat split. lia.
    - change (Access_all e0 (x :: st))
        with (Access_all (snd (Access e0 (fst x) (snd x))) st).
      destruct (IH (snd (Access e0 (fst x) (snd x)))) as (A & B & C & D).
      rewrite A, B, C, D. cbn [length]. cbn. repeat split. lia. }
  cbv zeta. rewrite Access_all_app.
  destruct (H stamps e) as (A & B & C & D).
  cbn [Access snd set_counters iUserCount m_iIntraFrameCounter
       m_iFrameCounter volumes pDataset m_Key].
  rewrite A, B, C, D, length_app. cbn [length].
  destruct s as [i f]. repeat split. lia.
Qed.

(** ** What [CreateTexture] and the constructor leave behind *)

Lemma same_label_refl (e : GLVolumeListElem) : same_label e e.
Proof. unfold same_label. repeat split. Qed.

Lemma same_label_trans (a b c : GLVolumeListElem) :
  same_label a b -> same_label b c -> same_label a c.
Proof.
  unfold same_label. intros H1 H2.
  destruct H1 as (A1 & A2 & A3 & A4 & A5 & A6 & A7 & A8 & A9 & A10).
  destruct H2 as (B1 & B2 & B3 & B4 & B5 & B6 & B7 & B8 & B9 & B10).
  repeat split; congruence.
Qed.

Lemma same_label_set_buffers (e : GLVolumeListElem) (b : bool)
  (d : list byte) (v : list (option GLVolume)) :
  same_label e (set_buffers e b d v).
Proof. unfold same_label. repeat split. Qed.

Lemma same_label_FreeTexture (e : GLVolumeListElem) :
  same_label e (FreeTexture e).
Proof.
  unfold FreeTexture. destruct (volumes e) as [| [v |] rest];
    auto using same_label_refl, same_label_set_buffers.
Qed.

Lemma same_label_set_volumes0 (e : GLVolumeListElem) (v : GLVolume) :
  same_label e (set_volumes0 e v).
Proof.
  unfold set_volumes0. destruct (volumes e);
    auto using same_label_refl, same_label_set_buffers.
Qed.

Lemma same_label_LoadData (e : GLVolumeListElem) (hub : list byte) :
  same_label e (snd (fst (LoadData e hub))).
Proof.
  unfold LoadData. destruct (uses_hub e hub); apply same_label_set_buffers.
Qed.

Lemma uses_hub_same_label (e e' : GLVolumeListElem) (hub : list byte) :
  same_label e e' -> uses_hub e' hub = uses_hub e hub.
Proof.
  intros (A1 & A2 & _ & _ & _ & _ & _ & _ & _ & A10).
  unfold uses_hub, iBrickSize. now rewrite A1, A2, A10.
Qed.

Lemma CreateTexture_upload_end (e1 e2 : GLVolumeListElem)
  (hub0 hub raw : list byte) (bw cc : Z) (fi : GLInternalFormat)
  (f : GLFormat) (t : GLType) (glerr : bool) :
  volumes e2 = volumes e1 ->
  CreateTexture_end e1 hub0 glerr
    (returned (CreateTexture_upload e2 hub raw bw cc fi f t glerr)).
Proof.
  intros Hv. unfold CreateTexture_upload, returned. cbn [fst snd].
  match goal with
  | |- CreateTexture_end _ _ _ (Returned _ (FreeData (set_volumes0 _ ?v)) _) =>
    apply (ct_uploaded e1 hub0 glerr _ _ v)
  end.
  - reflexivity.
  - rewrite <- Hv. unfold set_volumes0.
    destruct (volumes e2) eqn:E; cbn; [exact E | reflexivity].
Qed.

Lemma CreateTexture_format_end (e1 e2 : GLVolumeListElem)
  (hub0 hub raw : list byte) (bw : Z) (glerr : bool) :
  volumes e2 = volumes e1 ->
  CreateTexture_end e1 hub0 glerr
    (returned (CreateTexture_format e2 hub raw bw glerr)).
Proof.
  intros Hv. unfold CreateTexture_format.
  assert (R : forall h,
            CreateTexture_end e1 hub0 glerr (returned (false, FreeData e2, h)))
    by (intros h; apply ct_rejected; [reflexivity | exact Hv]).
  destruct (select_format _); [| apply R].
  destruct (bw =? 8).
  { destruct (select_internal8 _); [| apply R].
    now apply CreateTexture_upload_end. }
  destruct (bw =? 16).
  { destruct (select_internal16 _); [| apply R].
    now apply CreateTexture_upload_end. }
  destruct (bw =? 32); [| apply R].
  now apply CreateTexture_upload_end.
Qed.

Lemma same_label_CreateTexture_format (e : GLVolumeListElem)
  (hub raw : list byte) (bw : Z) (glerr : bool) :
  same_label e (snd (fst (CreateTexture_format e hub raw bw glerr))).
Proof.
  unfold CreateTexture_format.
  assert (U : forall r b c fi f t,
            same_label e
              (snd (fst (CreateTexture_upload e hub r b c fi f t glerr)))).
  { intros. unfold CreateTexture_upload. cbn [fst snd]. unfold FreeData.
    eapply same_label_trans; [apply same_label_set_volumes0 |].
    apply same_label_set_buffers. }
  assert (R : same_label e (FreeData e)) by apply same_label_set_buffers.
  destruct (select_format _); [| exact R].
  destruct (bw =? 8).
  { destruct (select_internal8 _); [apply U | exact R]. }
  destruct (bw =? 16).
  { destruct (select_internal16 _); [apply U | exact R]. }
  destruct (bw =? 32); [apply U | exact R].
Qed.

Lemma same_label_CreateTexture_fetch (e : GLVolumeListElem)
  (hub : list byte) (bDel : bool) :
  same_label e (snd (fst (CreateTexture_fetch e hub bDel))).
Proof.
  unfold CreateTexture_fetch.
  set (e1 := if bDel then FreeTexture e else e).
  assert (L1 : same_label e e1)
    by (unfold e1; destruct bDel;
        [apply same_label_FreeTexture | apply same_label_refl]).
  destruct (is_empty (vData e1)); [| exact L1].
  eapply same_label_trans; [exact L1 | apply same_label_LoadData].
Qed.

Lemma CreateTexture_ends (host : bool) (e : GLVolumeListElem)
  (hub : list byte) (bDel glerr : bool) :
  let e1 := if bDel then FreeTexture e else e in
  (forall e', entry_of (CreateTexture host e hub bDel glerr) = Some e' ->
              same_label e e') /\
  CreateTexture_end e1 hub glerr (CreateTexture host e hub bDel glerr).
Proof.
  intros e1. unfold CreateTexture.
  pose proof (same_label_CreateTexture_fetch e hub bDel) as L2.
  destruct (CreateTexture_fetch_keeps e hub bDel) as (_ & _ & V2).
  fold e1 in V2.
  assert (F : fst (fst (CreateTexture_fetch e hub bDel)) = false ->
              fst (fst (LoadData e1 hub)) = false /\
              m_bUsingHub (snd (fst (CreateTexture_fetch e hub bDel))) =
              m_bUsingHub (snd (fst (LoadData e1 hub)))).
  { unfold CreateTexture_fetch. fold e1.
    destruct (is_empty (vData e1)); [auto | discriminate]. }
  destruct (CreateTexture_fetch e hub bDel) as [[loaded e2] hub2].
  cbn [fst snd] in L2, V2, F.
  assert (T : forall raw bw e',
            entry_of (returned (CreateTexture_format e2 hub2 raw bw glerr))
              = Some e' -> same_label e e').
  { intros raw bw e'. cbn [entry_of returned]. intros [= <-].
    eapply same_label_trans; [exact L2 |].
    apply same_label_CreateTexture_format. }
  destruct loaded; cbn [negb].
  2:{ destruct (F eq_refl) as [F1 F2].
      split; [cbn [entry_of]; intros e' [= <-]; exact L2 |].
      apply ct_fetch_failed; auto. }
  destruct (is_empty _).
  { split; [cbn [entry_of]; intros e' [= <-]; exact L2 |].
    apply ct_out_of_range. exact V2. }
  destruct (m_bIsDownsampledTo8Bits e2 && negb (_ =? 8)).
  - destruct (negb (_ =? 16)).
    { split.
      - cbn [entry_of]. intros e' [= <-].
        eapply same_label_trans; [exact L2 | apply same_label_set_buffers].
      - apply ct_rejected; [reflexivity | exact V2]. }
    destruct (quantize_loop _ _ _ _ _ _).
    + split; [apply T | now apply CreateTexture_format_end].
    + split; [discriminate | apply ct_undefined].
  - split; [apply T | now apply CreateTexture_format_end].
Qed.

Lemma BrickKey_eqb_eq (a b : BrickKey) : BrickKey_eqb a b = true <-> a = b.
Proof.
  destruct a as [a1 a2], b as [b1 b2]. unfold BrickKey_eqb. cbn [fst snd].
  rewrite andb_true_iff, !Nat.eqb_eq. split.
  - intros [-> ->]. reflexivity.
  - intros H. injection H as -> ->. auto.
Qed.

Lemma Equals_true_iff (e : GLVolumeListElem) (ds : Dataset) (key : BrickKey)
  (bPow2 b8Bit bBorder b2D : bool) :
  Equals e ds key bPow2 b8Bit bBorder b2D = true <->
  ds_addr ds = ds_addr (pDataset e) /\ m_Key e = key /\
  m_bIsPaddedToPowerOfTwo e = bPow2 /\ m_bIsDownsampledTo8Bits e = b8Bit /\
  m_bDisableBorder e = bBorder /\ m_bEmulate3DWith2DStacks e = b2D.
Proof.
  unfold Equals.
  destruct (Nat.eqb_spec (ds_addr ds) (ds_addr (pDataset e)));
    cbn [negb orb]; [| split; [discriminate | tauto]].
  destruct (BrickKey_eqb (m_Key e) key) eqn:K; cbn [negb orb].
  2:{ split; [discriminate |]. intros (_ & H & _).
      apply BrickKey_eqb_eq in H. congruence. }
  apply BrickKey_eqb_eq in K.
  destruct (Bool.eqb_spec (m_bIsPaddedToPowerOfTwo e) bPow2);
    cbn [negb orb]; [| split; [discriminate | tauto]].
  destruct (Bool.eqb_spec (m_bIsDownsampledTo8Bits e) b8Bit);
    cbn [negb orb]; [| split; [discriminate | tauto]].
  destruct (Bool.eqb_spec (m_bDisableBorder e) bBorder);
    cbn [negb orb]; [| split; [discriminate | tauto]].
  destruct (Bool.eqb_spec (m_bEmulate3DWith2DStacks e) b2D);
    cbn [negb orb]; [| split; [discriminate | tauto]].
  tauto.
Qed.

Lemma new_entry_label (host : bool) (ds : Dataset) (key : BrickKey)
  (bPow2 b8Bit bBorder b2D : bool) (intra frame : Z) (mc : MasterController)
  (hub : list byte) (glerr : bool) (e : GLVolumeListElem)
  (hub' : list byte) :
  GLVolumeListElem_new host ds key bPow2 b8Bit bBorder b2D
    intra frame mc hub glerr = Constructed e hub' ->
  pDataset e = ds /\ m_Key e = key /\
  m_bIsPaddedToPowerOfTwo e = bPow2 /\ m_bIsDownsampledTo8Bits e = b8Bit /\
  m_bDisableBorder e = bBorder /\ m_bEmulate3DWith2DStacks e = b2D /\
  m_iIntraFrameCounter e = intra /\ m_iFrameCounter e = frame /\
  iUserCount e = 1 /\ m_pMasterController e = mc.
Proof.
  unfold GLVolumeListElem_new.
  match goal with
  | |- context [CreateTexture host ?e0 hub true glerr] =>
    destruct (CreateTexture_ends host e0 hub true glerr) as [L _];
    destruct (CreateTexture host e0 hub true glerr) as [ok e1 hub1 | |]
  end; try discriminate.
  specialize (L e1 eq_refl).
  assert (L' : forall e2, same_label e1 e2 ->
            pDataset e2 = ds /\ m_Key e2 = key /\
            m_bIsPaddedToPowerOfTwo e2 = bPow2 /\
            m_bIsDownsampledTo8Bits e2 = b8Bit /\
            m_bDisableBorder e2 = bBorder /\
            m_bEmulate3DWith2DStacks e2 = b2D /\
            m_iIntraFrameCounter e2 = intra /\ m_iFrameCounter e2 = frame /\
            iUserCount e2 = 1 /\ m_pMasterController e2 = mc).
  { intros e2 L2. pose proof (same_label_trans _ _ _ L L2) as L3.
    unfold same_label in L3. cbn in L3. exact L3. }
  destruct (negb ok); [| intros [= <- _]; apply L', same_label_refl].
  destruct (volumes0 e1); intros [= <- _];
    [apply L', same_label_FreeTexture | apply L', same_label_refl].
Qed.

(** X14: an entry the constructor builds answers [Equals] exactly for the
    dataset, key and four flags it was constructed with, whatever became
    of its texture. *)
Theorem new_entry_Equals (host : bool) (ds : Dataset) (key : BrickKey)
  (bPow2 b8Bit bBorder b2D : bool) (intra frame : Z) (mc : MasterController)
  (hub : list byte) (glerr : bool) (e : GLVolumeListElem) (hub' : list byte)
  (ds' : Dataset) (key' : BrickKey) (bPow2' b8Bit' bBorder' b2D' : bool) :
  GLVolumeListElem_new host ds key bPow2 b8Bit bBorder b2D
    intra frame mc hub glerr = Constructed e hub' ->
  (Equals e ds' key' bPow2' b8Bit' bBorder' b2D' = true <->
   ds_addr ds' = ds_addr ds /\ key' = key /\
   bPow2' = bPow2 /\ b8Bit' = b8Bit /\ bBorder' = bBorder /\ b2D' = b2D).
Proof.
  intros Hnew. rewrite Equals_true_iff.
  destruct (new_entry_label host ds key bPow2 b8Bit bBorder b2D intra frame
              mc hub glerr e hub' Hnew) as (-> & -> & -> & -> & -> & -> & _).
  intuition congruence.
Qed.

Lemma new_entry_Equals_witness :
  exists (e : GLVolumeListElem) (hub' : list byte),
    GLVolumeListElem_new true
      (sample_dataset (1, 1, 1) 8 1 (0, 255)%float true [7])
      (0%nat, 3%nat) false true false false 0 0 sample_controller [] false
    = Constructed e hub' /\
    (Equals e (sample_dataset (2, 2, 2) 16 1 (0, 1)%float true [])
       (0%nat, 3%nat) false true false false = true <->
     ds_addr (sample_dataset (2, 2, 2) 16 1 (0, 1)%float true []) =
     ds_addr (sample_dataset (1, 1, 1) 8 1 (0, 255)%float true [7]) /\
     (0%nat, 3%nat) = (0%nat, 3%nat) /\
     false = false /\ true = true /\ false = false /\ false = false).
Proof.
  eexists. eexists. split; [vm_compute; reflexivity |].
  apply (new_entry_Equals true
           (sample_dataset (1, 1, 1) 8 1 (0, 255)%float true [7])
           (0%nat, 3%nat) false true false false 0 0 sample_controller []
           false _ []).
  vm_compute. reflexivity.
Defined.

(** X15: an entry the constructor builds has one volume slot. The slot
    holds a texture only when the GL reported no error for the upload, and
    then the staging buffer [vData] is empty; otherwise the slot is
    null. *)
Theorem new_entry_texture (host : bool) (ds : Dataset) (key : BrickKey)
  (bPow2 b8Bit bBorder b2D : bool) (intra frame : Z) (mc : MasterController)
  (hub : list byte) (glerr : bool) (e : GLVolumeListElem)
  (hub' : list byte) :
  GLVolumeListElem_new host ds key bPow2 b8Bit bBorder b2D
    intra frame mc hub glerr = Constructed e hub' ->
  volumes e = [None] \/
  (exists v, volumes e = [Some v]) /\ glerr = false /\ vData e = [].
Proof.
  unfold GLVolumeListElem_new.
  match goal with
  | |- context [CreateTexture host ?e0 hub true glerr] =>
    destruct (CreateTexture_ends host e0 hub true glerr) as [_ H];
    destruct (CreateTexture host e0 hub true glerr) as [ok e1 hub1 | |]
  end; try discriminate.
  cbn [FreeTexture volumes] in H.
  inversion H as [e' h' _ Hv _ | | | e' h' _ Hv | e' h' vol Hd Hv];
    subst; cbn [volumes] in Hv.
  - cbn [negb]. unfold volumes0. rewrite Hv. intros [= <- _]. now left.
  - cbn [negb]. unfold volumes0. rewrite Hv. intros [= <- _]. now left.
  - destruct glerr; cbn [negb]; unfold volumes0; rewrite ?Hv;
      intros [= <- _].
    + left. unfold FreeTexture. rewrite Hv. reflexivity.
    + right. rewrite Hv. split; [now exists vol | auto].
Qed.

Lemma new_entry_texture_witness :
  exists (e : GLVolumeListElem) (hub' : list byte),
    GLVolumeListElem_new true
      (sample_dataset (1, 1, 1) 8 1 (0, 255)%float true [7])
      (0%nat, 0%nat) false false false false 0 0 sample_controller [] false
    = Constructed e hub' /\
    (volumes e = [None] \/
     (exists v, volumes e = [Some v]) /\ false = false /\ vData e = []).
Proof.
  eexists. eexists. split; [vm_compute; reflexivity |].
  apply (new_entry_texture true
           (sample_dataset (1, 1, 1) 8 1 (0, 255)%float true [7])
           (0%nat, 0%nat) false false false false 0 0 sample_controller []
           false _ []).
  vm_compute. reflexivity.
Defined.

(** ** What reaches the texture *)

Lemma peek_poke_other (buf : list byte) : forall (i j : nat) (b : byte),
  j <> i -> peek (poke buf i b) j = peek buf j.
Proof.
  unfold peek.
  induction buf as [| h t IH]; intros [| i] [| j] b Hne; simpl;
    try reflexivity; try congruence.
  apply IH. congruence.
Qed.

(** A write at byte [i] leaves the 16-bit elements above [i] alone. *)
Lemma load_ushort_poke (host : bool) (buf : list byte) (i j : nat) (b : byte) :
  (i < j)%nat ->
  load_ushort host (poke buf i b) j = load_ushort host buf j.
Proof.
  intros H. unfold load_ushort. now rewrite !peek_poke_other by lia.
Qed.

(** The quantization loop reads every 16-bit element before the bytes it
    occupies are written: the writes so far lie below index [i], the reads
    at [2*i] and [2*i+1]. So byte [j] of the result is the quantized value
    of the element [j] the buffer held when the loop began. *)
Lemma quantize_loop_bytes (host : bool) (fMin fMax : float) (n : nat) :
  forall (i : nat) (buf out : list byte),
    (i + n <= length buf)%nat ->
    quantize_loop host fMin fMax n i buf = Some out ->
    length out = length buf /\
    (forall j, (i <= j < i + n)%nat ->
       Quantize fMin fMax (load_ushort host buf j) = Some (peek out j)) /\
    (forall j, ~ (i <= j < i + n)%nat -> peek out j = peek buf j).
Proof.
  induction n as [| n IH]; intros i buf out Hlen; cbn [quantize_loop].
  - intros [= <-]. split; [reflexivity |]. split; [lia | reflexivity].
  - destruct (Quantize fMin fMax (load_ushort host buf i)) as [q |] eqn:Eq;
      [| discriminate].
    intros Hout.
    assert (Hl : length (poke buf i q) = length buf) by apply length_poke.
    destruct (IH (S i) (poke buf i q) out ltac:(lia) Hout)
      as (Hlen' & Hin & Hout').
    split; [lia |]. split.
    + intros j Hj. destruct (Nat.eq_dec j i) as [-> | Hne].
      * rewrite (Hout' i) by lia. rewrite peek_poke by lia.
        rewrite Nat.eqb_refl. exact Eq.
      * rewrite <- (Hin j) by lia. now rewrite load_ushort_poke by lia.
    + intros j Hj. rewrite (Hout' j) by lia.
      apply peek_poke_other. lia.
Qed.

(** The loop has a result exactly when every element it reads has a
    quantized value. *)
Lemma quantize_loop_defined (host : bool) (fMin fMax : float) (n : nat) :
  forall (i : nat) (buf : list byte),
    quantize_loop host fMin fMax n i buf <> None <->
    forall j, (i <= j < i + n)%nat ->
              Quantize fMin fMax (load_ushort host buf j) <> None.
Proof.
  induction n as [| n IH]; intros i buf; cbn [quantize_loop].
  - split; [intros _ j Hj; lia | discriminate].
  - destruct (Quantize fMin fMax (load_ushort host buf i)) as [q |] eqn:Eq.
    + rewrite IH. split; intros H j Hj.
      * destruct (Nat.eq_dec j i) as [-> | Hne]; [congruence |].
        rewrite <- (load_ushort_poke host buf i j q) by lia.
        apply H. lia.
      * rewrite load_ushort_poke by lia. apply H. lia.
    + split; [congruence |]. intros H. exfalso.
      apply (H i); [lia | exact Eq].
Qed.

Section Upload.

Variable host : bool.
Variables (ds : Dataset) (key : BrickKey).
Variables (intra frame : Z) (mc : MasterController) (hub raw : list byte).

(** The dataset delivers the brick's bytes [raw], at least one. *)
Hypothesis Hfetch : forall buf, GetBrick ds key buf = (true, raw).
Hypothesis Hraw : raw <> [].

Hypothesis Hcc : GetComponentCount ds = 1 \/ GetComponentCount ds = 3 \/
                 GetComponentCount ds = 4.

(** X17: a brick whose elements are 8 bits wide, or 32 bits, or 16 bits
    with the byte order of the host, that is not downsampled and not
    padded reaches the texture with exactly the bytes the dataset
    delivered, under the brick's own extents; the staging buffer is empty
    afterwards. *)
Theorem upload_unchanged (b8Bit bBorder b2D : bool) :
  (b8Bit = false \/ GetBitWidth ds = 8) ->
  (GetBitWidth ds = 8 \/ GetBitWidth ds = 32 \/
   (GetBitWidth ds = 16 /\ IsSameEndianness ds = true)) ->
  exists e hub',
    GLVolumeListElem_new host ds key false b8Bit bBorder b2D
      intra frame mc hub false = Constructed e hub' /\
    vData e = [] /\
    exists v, volumes e = [Some v] /\ vol_data v = raw /\
              vol_size v = GetBrickVoxelCounts ds key /\
              vol_sizePerElement v =
                wrap32 (wrap64 (GetBitWidth ds / 8 * GetComponentCount ds)).
Proof.
  intros Hds Hbw.
  unfold GLVolumeListElem_new, CreateTexture, CreateTexture_fetch.
  cbn [FreeTexture volumes vData is_empty]. unfold LoadData.
  destruct (uses_hub _ hub); rewrite !Hfetch;
    cbn [fst snd negb set_buffers m_bUsingHub vData pDataset m_Key
         m_bIsDownsampledTo8Bits];
    rewrite (is_empty_false raw Hraw);
    unfold CreateTexture_format, CreateTexture_upload;
    cbn [fst snd negb set_buffers m_bUsingHub vData pDataset m_Key
         m_bIsPaddedToPowerOfTwo orb];
    destruct Hcc as [C | [C | C]];
    destruct Hbw as [B | [B | [B S]]];
    rewrite ?C, ?B, ?S;
    destruct Hds as [D | D]; rewrite ?D; try rewrite D in B; try discriminate;
    destruct b8Bit; try discriminate; cbn;
    eexists; eexists; (split; [reflexivity |]); (split; [reflexivity |]);
    eexists; repeat split.
Qed.

(** X18: a brick of 16-bit elements from a dataset whose byte order
    differs from the host's, not downsampled and not padded, reaches the
    texture with the two bytes of every element exchanged and nothing else
    changed. *)
Theorem upload_swaps_16bit (bBorder b2D : bool) :
  GetBitWidth ds = 16 -> IsSameEndianness ds = false ->
  let n := Z.to_nat (wrap64 (GetComponentCount ds
                             * voxel_count (GetBrickVoxelCounts ds key))) in
  (2 * n <= length raw)%nat ->
  exists e hub' v,
    GLVolumeListElem_new host ds key false false bBorder b2D
      intra frame mc hub false = Constructed e hub' /\
    volumes e = [Some v] /\ vol_type v = GL_UNSIGNED_SHORT /\
    length (vol_data v) = length raw /\
    forall j, peek (vol_data v) j =
              if (j <? 2 * n)%nat then peek raw (partner j)
              else peek raw j.
Proof.
  intros B S n Hlen.
  assert (Hsw : forall j,
            length (swap_loop n 0 raw) = length raw /\
            peek (swap_loop n 0 raw) j =
            if (j <? 2 * n)%nat then peek raw (partner j) else peek raw j).
  { intros j. destruct (swap_loop_bytes n 0 raw j ltac:(lia)) as [A P].
    split; [exact A |]. rewrite P. cbn [Nat.mul Nat.leb andb].
    reflexivity. }
  unfold GLVolumeListElem_new, CreateTexture, CreateTexture_fetch.
  cbn [FreeTexture volumes vData is_empty]. unfold LoadData.
  destruct (uses_hub _ hub); rewrite !Hfetch;
    cbn [fst snd negb set_buffers m_bUsingHub vData pDataset m_Key
         m_bIsDownsampledTo8Bits andb];
    rewrite (is_empty_false raw Hraw);
    unfold CreateTexture_format, CreateTexture_upload;
    cbn [fst snd negb set_buffers m_bUsingHub vData pDataset m_Key
         m_bIsPaddedToPowerOfTwo orb];
    rewrite B, S; fold n;
    destruct Hcc as [C | [C | C]]; rewrite ?C; cbn;
    eexists; eexists; eexists; (split; [reflexivity |]);
    (split; [reflexivity |]); (split; [reflexivity |]);
    (split; [apply (Hsw 0%nat) | intros j; apply (Hsw j)]).
Qed.

(** X19: a brick of 16-bit elements that is downsampled, and not padded,
    every element of which has a quantized value, reaches the texture as
    8-bit data: byte [j] of the uploaded buffer is the quantized value of
    element [j], read in the host's byte order, for each of the brick's
    elements, and the buffer keeps its raw bytes beyond them. *)
Theorem upload_quantizes_16bit (bBorder b2D : bool) :
  GetBitWidth ds = 16 ->
  let n := Z.to_nat (wrap64 (voxel_count (GetBrickVoxelCounts ds key)
                             * GetComponentCount ds)) in
  let quantized j := Quantize (fst (GetRange ds)) (snd (GetRange ds))
                              (load_ushort host raw j) in
  (2 * n <= length raw)%nat ->
  (forall j, (j < n)%nat -> quantized j <> None) ->
  exists e hub' v,
    GLVolumeListElem_new host ds key false true bBorder b2D
      intra frame mc hub false = Constructed e hub' /\
    volumes e = [Some v] /\ vol_type v = GL_UNSIGNED_BYTE /\
    vol_sizePerElement v = GetComponentCount ds /\
    length (vol_data v) = length raw /\
    (forall j, (j < n)%nat -> quantized j = Some (peek (vol_data v) j)) /\
    (forall j, (n <= j)%nat -> peek (vol_data v) j = peek raw j).
Proof.
  intros B n quantized Hlen Hdef.
  destruct (quantize_loop host (fst (GetRange ds)) (snd (GetRange ds))
              n 0 raw) as [out |] eqn:Eq.
  2:{ exfalso. revert Eq. apply quantize_loop_defined.
      intros j Hj. apply Hdef. lia. }
  destruct (quantize_loop_bytes host _ _ n 0 raw out ltac:(lia) Eq)
    as (Hl & Hin & Hout).
  unfold GLVolumeListElem_new, CreateTexture, CreateTexture_fetch.
  cbn [FreeTexture volumes vData is_empty]. unfold LoadData.
  destruct (uses_hub _ hub); rewrite !Hfetch;
    cbn [fst snd negb set_buffers m_bUsingHub vData pDataset m_Key
         m_bIsDownsampledTo8Bits andb];
    rewrite (is_empty_false raw Hraw);
    rewrite B; cbn [Z.eqb Pos.eqb negb andb]; fold n; rewrite Eq;
    unfold CreateTexture_format, CreateTexture_upload;
    cbn [fst snd negb set_buffers m_bUsingHub vData pDataset m_Key
         m_bIsPaddedToPowerOfTwo orb];
    destruct Hcc as [C | [C | C]]; rewrite ?C; cbn;
    eexists; eexists; eexists; (split; [reflexivity |]);
    (split; [reflexivity |]); (split; [reflexivity |]);
    (split; [reflexivity |]); (split; [exact Hl |]);
    (split; [intros j Hj; apply Hin; lia | intros j Hj; apply Hout; lia]).
Qed.

End Upload.

(** ** Unsupported bit widths, and the hub *)

(** X16: when the dataset's bit width is none of 8, 16 and 32, or is 32
    while downsampling to 8 bits is requested, an entry the constructor
    builds has a null [volumes[0]], and its staging buffer is empty once
    the brick was fetched; and the constructor does build an entry when
    the fetch delivers at least one byte. *)
Theorem bad_bit_width_leaves_no_texture (host : bool) (ds : Dataset)
  (key : BrickKey) (bPow2 b8Bit bBorder b2D : bool) (intra frame : Z)
  (mc : MasterController) (hub : list byte) (glerr : bool) :
  GetBitWidth ds <> 8 -> GetBitWidth ds <> 16 ->
  (GetBitWidth ds <> 32 \/ b8Bit = true) ->
  let new := GLVolumeListElem_new host ds key bPow2 b8Bit bBorder b2D
               intra frame mc hub glerr in
  (forall e hub', new = Constructed e hub' ->
     volumes e = [None] /\
     ((forall buf, fst (GetBrick ds key buf) = true) -> vData e = [])) /\
  (forall raw, raw <> [] ->
     (forall buf, GetBrick ds key buf = (true, raw)) ->
     exists e hub', new = Constructed e hub').
Proof.
  intros H8 H16 H32 new.
  unfold new, GLVolumeListElem_new, CreateTexture, CreateTexture_fetch.
  cbn [FreeTexture volumes vData is_empty]. unfold LoadData.
  split.
  - intros e hub'.
    destruct (uses_hub _ hub); cbn [pDataset m_Key vData];
      match goal with
      | |- context [GetBrick ds key ?b] =>
        pose proof (fun H : forall buf, fst (GetBrick ds key buf) = true => H b)
          as Hf;
        destruct (GetBrick ds key b) as [ok data]
      end;
      cbn [fst snd] in Hf |- *;
      (destruct ok; cbn [negb fst snd set_buffers m_bUsingHub vData pDataset
                         m_Key m_bIsDownsampledTo8Bits volumes volumes0];
       [| intros [= <- _];
          split; [reflexivity | intros H; specialize (Hf H); discriminate]]);
      (destruct data as [| d0 data]; cbn [is_empty]; [discriminate |]);
      unfold CreateTexture_format;
      cbn [fst snd set_buffers m_bUsingHub vData pDataset m_Key];
      destruct (Z.eqb_spec (GetBitWidth ds) 8); try contradiction;
      destruct (Z.eqb_spec (GetBitWidth ds) 16); try contradiction;
      cbn [negb andb];
      (destruct b8Bit; cbn [andb negb fst snd volumes0 FreeData set_buffers
                            volumes vData];
       [intros [= <- _]; split; reflexivity |]);
      destruct H32 as [H32 | H32]; try discriminate;
      destruct (Z.eqb_spec (GetBitWidth ds) 32); try contradiction;
      destruct (select_format _);
      cbn [returned negb fst snd volumes0 FreeData set_buffers volumes vData];
      intros [= <- _]; split; reflexivity.
  - intros raw Hraw Hfetch.
    destruct (uses_hub _ hub); cbn [pDataset m_Key vData];
      rewrite !Hfetch;
      cbn [negb fst snd set_buffers m_bUsingHub vData pDataset
           m_Key m_bIsDownsampledTo8Bits volumes volumes0];
      rewrite (is_empty_false raw Hraw);
      unfold CreateTexture_format;
      cbn [fst snd set_buffers m_bUsingHub vData pDataset m_Key];
      destruct (Z.eqb_spec (GetBitWidth ds) 8); try contradiction;
      destruct (Z.eqb_spec (GetBitWidth ds) 16); try contradiction;
      cbn [negb andb];
      (destruct b8Bit; cbn [andb negb fst snd volumes0 FreeData set_buffers
                            volumes vData];
       [eauto |]);
      destruct H32 as [H32 | H32]; try discriminate;
      destruct (Z.eqb_spec (GetBitWidth ds) 32); try contradiction;
      destruct (select_format _);
      cbn [returned negb fst snd volumes0 FreeData set_buffers volumes vData];
      eauto.
Qed.

Lemma bad_bit_width_leaves_no_texture_witness :
  exists (e : GLVolumeListElem) (hub' : list byte),
    GLVolumeListElem_new true
      (sample_dataset (1, 1, 1) 64 1 (0, 255)%float true [1; 2; 3; 4])
      (0%nat, 0%nat) false false false false 0 0 sample_controller [] false
    = Constructed e hub' /\
    volumes e = [None] /\ vData e = [].
Proof.
  pose proof (bad_bit_width_leaves_no_texture true
                (sample_dataset (1, 1, 1) 64 1 (0, 255)%float true
                   [1; 2; 3; 4])
                (0%nat, 0%nat) false false false false 0 0
                sample_controller [] false
                ltac:(simpl; lia) ltac:(simpl; lia)
                ltac:(left; simpl; lia)) as [H1 H2].
  destruct (H2 [1; 2; 3; 4] ltac:(discriminate) (fun _ => eq_refl))
    as (e & hub' & E).
  exists e, hub'. split; [exact E |].
  destruct (H1 e hub' E) as [Hv Hd].
  split; [exact Hv | apply Hd; reflexivity].
Defined.

Lemma CreateTexture_upload_hub (e : GLVolumeListElem) (hub raw : list byte)
  (bw cc : Z) (fi : GLInternalFormat) (f : GLFormat) (t : GLType)
  (glerr : bool) :
  let r := CreateTexture_upload e hub raw bw cc fi f t glerr in
  m_bUsingHub (snd (fst r)) = m_bUsingHub e /\
  vData (snd (fst r)) = [] /\
  (m_bUsingHub e = false -> snd r = hub).
Proof.
  unfold CreateTexture_upload, hub_after, set_volumes0. cbn [fst snd].
  repeat split.
  - destruct (volumes e); reflexivity.
  - intros ->. reflexivity.
Qed.

Lemma CreateTexture_format_hub (e : GLVolumeListElem) (hub raw : list byte)
  (bw : Z) (glerr : bool) :
  let r := CreateTexture_format e hub raw bw glerr in
  m_bUsingHub (snd (fst r)) = m_bUsingHub e /\
  vData (snd (fst r)) = [] /\
  (m_bUsingHub e = false -> snd r = hub).
Proof.
  unfold CreateTexture_format.
  assert (R : forall h,
            m_bUsingHub (snd (fst (false, FreeData e, hub_after e hub h))) =
              m_bUsingHub e /\
            vData (snd (fst (false, FreeData e, hub_after e hub h))) = [] /\
            (m_bUsingHub e = false ->
             snd (false, FreeData e, hub_after e hub h) = hub)).
  { intros h. unfold hub_after. cbn [fst snd]. repeat split.
    intros ->. reflexivity. }
  destruct (select_format _); [| apply R].
  destruct (bw =? 8).
  { destruct (select_internal8 _); [| apply R].
    apply CreateTexture_upload_hub. }
  destruct (bw =? 16).
  { destruct (select_internal16 _); [| apply R].
    apply CreateTexture_upload_hub. }
  destruct (bw =? 32); [| apply R].
  apply CreateTexture_upload_hub.
Qed.

Lemma FreeTexture_keeps_buffers (e : GLVolumeListElem) :
  m_bUsingHub (FreeTexture e) = m_bUsingHub e /\
  vData (FreeTexture e) = vData e.
Proof.
  unfold FreeTexture. destruct (volumes e) as [| [v |] rest]; auto.
Qed.

(** Where the bytes go when [CreateTexture] starts without data and
    without the hub mark. *)
Lemma CreateTexture_hub (host : bool) (e : GLVolumeListElem)
  (hub : list byte) (bDel glerr : bool) :
  vData e = [] -> m_bUsingHub e = false ->
  let c := CreateTexture host e hub bDel glerr in
  (uses_hub e hub = false ->
   (forall ok e' hub', c = Returned ok e' hub' ->
                       hub' = hub /\ m_bUsingHub e' = false) /\
   (forall e' hub', c = OutOfRange e' hub' -> hub' = hub)) /\
  (uses_hub e hub = true ->
   forall ok e' hub', c = Returned ok e' hub' ->
                      vData e' = [] /\ m_bUsingHub e' = true).
Proof.
  intros Hd0 Hh0 c. unfold c, CreateTexture, CreateTexture_fetch.
  set (e1 := if bDel then FreeTexture e else e).
  assert (K : vData e1 = [] /\ m_bUsingHub e1 = false /\
              uses_hub e1 hub = uses_hub e hub).
  { unfold e1. destruct bDel; [| auto].
    destruct (FreeTexture_keeps_buffers e) as [A B]. rewrite A, B.
    repeat split; auto.
    apply uses_hub_same_label, same_label_FreeTexture. }
  clearbody e1. destruct K as (Hd & Hh & <-).
  rewrite Hd. cbn [is_empty]. unfold LoadData.
  destruct (uses_hub e1 hub).
  - split; [discriminate |]. intros _.
    destruct (GetBrick (pDataset e1) (m_Key e1) hub) as [ok data].
    cbn [fst snd].
    set (e2 := set_buffers e1 true (vData e1) (volumes e1)).
    assert (E2 : m_bUsingHub e2 = true /\ vData e2 = []) by (cbn; auto).
    clearbody e2. destruct E2 as [Eh Ed].
    destruct ok; cbn [negb]; [| intros ok e' hub' [= _ <- _]; auto].
    rewrite Eh.
    destruct (is_empty data); [discriminate |].
    assert (T : forall raw bw ok e' hub',
              returned (CreateTexture_format e2 data raw bw glerr)
              = Returned ok e' hub' -> vData e' = [] /\ m_bUsingHub e' = true).
    { intros raw bw ok e' hub'.
      destruct (CreateTexture_format_hub e2 data raw bw glerr) as (A & B & _).
      cbn [returned]. intros [= _ <- _]. rewrite A, B. auto. }
    destruct (_ && _); [| apply T].
    destruct (negb _); [intros ok e' hub' [= _ <- _]; cbn; auto |].
    destruct (quantize_loop _ _ _ _ _ _); [apply T | discriminate].
  - split; [| discriminate]. intros _.
    destruct (GetBrick (pDataset e1) (m_Key e1) (vData e1)) as [ok data].
    cbn [fst snd].
    set (e2 := set_buffers e1 (m_bUsingHub e1) data (volumes e1)).
    assert (Eh : m_bUsingHub e2 = false) by (cbn; auto).
    clearbody e2.
    destruct ok; cbn [negb];
      [| split; [intros ok e' hub' [= _ <- <-]; auto | discriminate]].
    rewrite Eh.
    destruct (is_empty _);
      [split; [discriminate | intros e' hub' [= _ <-]; reflexivity] |].
    assert (T : forall raw bw,
              (forall ok e' hub',
                 returned (CreateTexture_format e2 hub raw bw glerr)
                 = Returned ok e' hub' ->
                 hub' = hub /\ m_bUsingHub e' = false) /\
              (forall e' hub',
                 returned (CreateTexture_format e2 hub raw bw glerr)
                 = OutOfRange e' hub' -> hub' = hub)).
    { intros raw bw.
      destruct (CreateTexture_format_hub e2 hub raw bw glerr) as (A & _ & C).
      cbn [returned]. split; [| discriminate].
      intros ok e' hub' [= _ <- <-]. rewrite A, C by assumption. auto. }
    destruct (_ && _); [| apply T].
    destruct (negb _);
      [split; [intros ok e' hub' [= _ <- <-]; cbn; auto | discriminate] |].
    destruct (quantize_loop _ _ _ _ _ _); [apply T | split; discriminate].
Qed.

(** X20: the constructor writes to the upload hub only when [LoadData]
    chooses it. When the hub is empty or the brick too large for it, the
    hub comes back as it went in, whether an entry is built or the
    constructor throws; when the hub is used, the entry's own [vData]
    stays empty and the entry is marked as using the hub. *)
Theorem new_entry_hub (host : bool) (ds : Dataset) (key : BrickKey)
  (bPow2 b8Bit bBorder b2D : bool) (intra frame : Z) (mc : MasterController)
  (hub : list byte) (glerr : bool) (e0 : GLVolumeListElem) :
  pDataset e0 = ds -> m_Key e0 = key -> m_pMasterController e0 = mc ->
  let new := GLVolumeListElem_new host ds key bPow2 b8Bit bBorder b2D
               intra frame mc hub glerr in
  (uses_hub e0 hub = false ->
   (forall e hub', new = Constructed e hub' ->
                   hub' = hub /\ m_bUsingHub e = false) /\
   (forall hub', new = NotConstructed hub' -> hub' = hub)) /\
  (uses_hub e0 hub = true ->
   forall e hub', new = Constructed e hub' ->
                  vData e = [] /\ m_bUsingHub e = true).
Proof.
  intros Hd Hk Hm new. unfold new, GLVolumeListElem_new.
  match goal with
  | |- context [CreateTexture host ?e hub true glerr] => set (e1 := e)
  end.
  assert (HU : uses_hub e1 hub = uses_hub e0 hub).
  { unfold uses_hub, iBrickSize. cbn [e1 pDataset m_Key m_pMasterController].
    now rewrite Hd, Hk, Hm. }
  destruct (CreateTexture_hub host e1 hub true glerr eq_refl eq_refl)
    as [HC0 HC1].
  rewrite HU in HC0, HC1.
  destruct (CreateTexture host e1 hub true glerr) as [ok e2 hub2 | e2 hub2 |].
  - destruct (FreeTexture_keeps_buffers e2) as [F1 F2].
    assert (K : forall e hub',
              match negb ok, volumes0 e2 with
              | true, Some _ => Constructed (FreeTexture e2) hub2
              | _, _ => Constructed e2 hub2
              end = Constructed e hub' ->
              hub' = hub2 /\ m_bUsingHub e = m_bUsingHub e2 /\
              vData e = vData e2).
    { intros e hub'. destruct (negb ok); [| intros [= <- <-]; auto].
      destruct (volumes0 e2); intros [= <- <-]; auto. }
    split.
    + intros U. destruct (HC0 U) as [R _].
      destruct (R ok e2 hub2 eq_refl) as [-> Rh].
      split.
      * intros e hub' E. destruct (K e hub' E) as (-> & -> & _). auto.
      * intros hub' E. destruct (negb ok); [destruct (volumes0 e2) |];
          discriminate E.
    + intros U e hub' E. destruct (HC1 U ok e2 hub2 eq_refl) as [Rd Rh].
      destruct (K e hub' E) as (_ & -> & ->). auto.
  - split.
    + intros U. destruct (HC0 U) as [_ R]. split; [discriminate |].
      intros hub' [= <-]. apply (R e2 hub2 eq_refl).
    + discriminate.
  - split; [split |]; discriminate.
Qed.

Lemma new_entry_hub_witness :
  exists (e : GLVolumeListElem) (hub' : list byte),
    GLVolumeListElem_new true
      (sample_dataset (1, 1, 1) 8 1 (0, 255)%float true [7])
      (0%nat, 0%nat) false false false false 0 0 sample_controller [] false
    = Constructed e hub' /\
    hub' = [] /\ m_bUsingHub e = false.
Proof.
  eexists. eexists. split; [vm_compute; reflexivity |].
  refine (proj1 (proj1 (new_entry_hub true
           (sample_dataset (1, 1, 1) 8 1 (0, 255)%float true [7])
           (0%nat, 0%nat) false false false false 0 0 sample_controller []
           false
           (blank_entry (sample_dataset (1, 1, 1) 8 1 (0, 255)%float true [7])
              false)
           eq_refl eq_refl eq_refl) eq_refl) _ _ _).
  vm_compute. reflexivity.
Defined.

(** ** Padding with a hard edge, and replacement in place *)

(** X21: with the border disabled [PadData] leaves a hard edge: the
    padded array holds the source voxels at their coordinates and zero
    everywhere else. *)
Theorem PadData_hard_edge (raw : list byte)
  (sx sy sz iBitWidth iCompCount x y z b : nat) :
  (1 <= sx)%nat -> (1 <= sy)%nat -> (1 <= sz)%nat ->
  (sx * (iBitWidth / 8 * iCompCount) * sy * sz <= length raw)%nat ->
  (x < NextPow2 sx)%nat -> (y < NextPow2 sy)%nat -> (z < NextPow2 sz)%nat ->
  (b < iBitWidth / 8 * iCompCount)%nat ->
  peek (fst (PadData true raw (sx, sy, sz) iBitWidth iCompCount))
       (voxel_offset (NextPow2 sx) (NextPow2 sy)
                     (iBitWidth / 8 * iCompCount) x y z b) =
  if (x <? sx)%nat && (y <? sy)%nat && (z <? sz)%nat
  then peek raw (voxel_offset sx sy (iBitWidth / 8 * iCompCount) x y z b)
  else 0.
Proof.
  intros Hsx Hsy Hsz Hraw Hx Hy Hz Hb.
  destruct (PadData_bytes true raw sx sy sz iBitWidth iCompCount
              Hsx Hsy Hsz Hraw) as (_ & _ & Hpk).
  rewrite (Hpk x y z b Hx Hy Hz Hb).
  unfold padded_byte, replicated. cbn [negb andb].
  destruct (x <? sx)%nat, (y <? sy)%nat, (z <? sz)%nat; reflexivity.
Qed.

Lemma PadData_hard_edge_witness :
  peek (fst (PadData true [1; 2; 3] (3, 1, 1)%nat 8 1))
       (voxel_offset (NextPow2 3) (NextPow2 1) (8 / 8 * 1) 3 0 0 0) = 0.
Proof.
  apply (PadData_hard_edge [1; 2; 3] 3 1 1 8 1 3 0 0 0); vm_compute; lia.
Defined.

(** X22: for either border flag [PadData] returns the padded extents with
    an array of exactly that many elements, and every source voxel is
    found in it unchanged at its own coordinates. *)
Theorem PadData_keeps_source (bDisableBorder : bool) (raw : list byte)
  (sx sy sz iBitWidth iCompCount : nat) :
  (1 <= sx)%nat -> (1 <= sy)%nat -> (1 <= sz)%nat ->
  (sx * (iBitWidth / 8 * iCompCount) * sy * sz <= length raw)%nat ->
  let es := (iBitWidth / 8 * iCompCount)%nat in
  let out := PadData bDisableBorder raw (sx, sy, sz) iBitWidth iCompCount in
  let '(px, py, pz) := snd out in
  (sx <= px)%nat /\ (sy <= py)%nat /\ (sz <= pz)%nat /\
  length (fst out) = (px * py * pz * es)%nat /\
  forall x y z b : nat,
    (x < sx)%nat -> (y < sy)%nat -> (z < sz)%nat -> (b < es)%nat ->
    peek (fst out) (voxel_offset px py es x y z b) =
    peek raw (voxel_offset sx sy es x y z b).
Proof.
  intros Hsx Hsy Hsz Hraw es out.
  destruct (PadData_bytes bDisableBorder raw sx sy sz iBitWidth iCompCount
              Hsx Hsy Hsz Hraw) as (Hdim & Hlen & Hpk).
  fold es out in Hdim, Hlen, Hpk. rewrite Hdim.
  pose proof (NextPow2_ge sx). pose proof (NextPow2_ge sy).
  pose proof (NextPow2_ge sz).
  repeat split; try assumption.
  - rewrite Hlen. ring.
  - intros x y z b Hx Hy Hz Hb.
    rewrite Hpk by lia.
    unfold padded_byte. now rewrite !replicated_inside by assumption.
Qed.

Lemma PadData_keeps_source_witness :
  peek (fst (PadData false [1; 2; 3] (3, 1, 1)%nat 8 1))
       (voxel_offset 4 1 1 2 0 0 0) = 3.
Proof.
  pose proof (PadData_keeps_source false [1; 2; 3] 3 1 1 8 1
                ltac:(lia) ltac:(lia) ltac:(lia) ltac:(simpl; lia)) as H.
  cbv zeta in H. vm_compute (snd _) in H.
  destruct H as (_ & _ & _ & _ & H).
  apply (H 2 0 0 0)%nat; vm_compute; lia.
Defined.

Lemma relabel_Equals (e : GLVolumeListElem) (ds : Dataset) (key : BrickKey)
  (bPow2 b8Bit bBorder b2D : bool) (intra frame : Z) (e' : GLVolumeListElem) :
  same_label (relabel e ds key bPow2 b8Bit bBorder b2D intra frame) e' ->
  Equals e' ds key bPow2 b8Bit bBorder b2D = true /\
  m_iIntraFrameCounter e' = intra /\ m_iFrameCounter e' = frame /\
  iUserCount e' = iUserCount e.
Proof.
  intros (A1 & A2 & A3 & A4 & A5 & A6 & A7 & A8 & A9 & _).
  cbn in A1, A2, A3, A4, A5, A6, A7, A8, A9.
  split; [| auto]. apply Equals_true_iff. rewrite A1. repeat split; auto.
Qed.

(** X23: [Replace] relabels the entry before it fetches. On an entry with
    a volume slot, whether the call returns or throws, the entry afterwards
    answers [Equals] for the new dataset, key and flags, carries the new
    stamps and keeps its user count; and when the fetch fails the call
    returns [false] with the volumes, the old texture included, as they
    were. *)
Theorem Replace_relabels (e : GLVolumeListElem) (ds : Dataset)
  (key : BrickKey) (bPow2 b8Bit bBorder b2D : bool) (intra frame : Z)
  (hub : list byte) (glerr : bool) (e' : GLVolumeListElem) :
  volumes e <> [] ->
  let r := Replace e ds key bPow2 b8Bit bBorder b2D intra frame hub glerr in
  entry_of r = Some e' ->
  Equals e' ds key bPow2 b8Bit bBorder b2D = true /\
  m_iIntraFrameCounter e' = intra /\ m_iFrameCounter e' = frame /\
  iUserCount e' = iUserCount e /\
  (fst (fst (LoadData (relabel e ds key bPow2 b8Bit bBorder b2D intra frame)
                      hub)) = false ->
   (exists hub', r = Returned false e' hub') /\ volumes e' = volumes e).
Proof.
  intros Hv r. unfold r, Replace.
  destruct (volumes e) as [| v0 rest] eqn:Ev; [congruence |].
  cbn [is_empty].
  set (e1 := relabel e ds key bPow2 b8Bit bBorder b2D intra frame) in *.
  pose proof (same_label_LoadData e1 hub) as L.
  assert (V : volumes (snd (fst (LoadData e1 hub))) = v0 :: rest).
  { unfold LoadData. destruct (uses_hub e1 hub); cbn; exact Ev. }
  destruct (LoadData e1 hub) as [[loaded e2] hub2]. cbn [fst snd] in L, V |- *.
  destruct loaded; cbn [negb].
  - destruct (is_empty _).
    + cbn [entry_of]. intros [= <-].
      destruct (relabel_Equals e ds key bPow2 b8Bit bBorder b2D intra frame
                  _ L) as (A & B & C & D).
      repeat split; auto; discriminate.
    + rewrite V. destruct v0 as [v |]; [| discriminate].
      cbn [entry_of]. intros [= <-].
      match goal with
      | |- Equals ?x _ _ _ _ _ _ = _ /\ _ =>
        assert (L' : same_label e1 x)
          by (eapply same_label_trans;
              [exact L | apply same_label_set_buffers])
      end.
      destruct (relabel_Equals e ds key bPow2 b8Bit bBorder b2D intra frame
                  _ L') as (A & B & C & D).
      repeat split; auto; discriminate.
  - cbn [entry_of]. intros [= <-].
    destruct (relabel_Equals e ds key bPow2 b8Bit bBorder b2D intra frame _ L)
      as (A & B & C & D).
    repeat split; eauto.
Qed.

(** When [NextPow2] leaves the three extents alone, [PadData] hands the
    bytes back as they are. *)
Lemma PadData_fixed_extents (bDisableBorder : bool) (raw : list byte)
  (sx sy sz iBitWidth iCompCount : nat) :
  (1 <= sx)%nat -> (1 <= sy)%nat -> (1 <= sz)%nat ->
  NextPow2 sx = sx -> NextPow2 sy = sy -> NextPow2 sz = sz ->
  length raw = (sx * sy * sz * (iBitWidth / 8 * iCompCount))%nat ->
  PadData bDisableBorder raw (sx, sy, sz) iBitWidth iCompCount =
  (raw, (sx, sy, sz)).
Proof.
  intros Hsx Hsy Hsz Fx Fy Fz Hlen.
  set (es := (iBitWidth / 8 * iCompCount)%nat) in *.
  destruct (PadData_bytes bDisableBorder raw sx sy sz iBitWidth iCompCount
              Hsx Hsy Hsz) as (Hdim & Hl & Hpk).
  { fold es. rewrite Hlen. apply Nat.eq_le_incl. ring. }
  fold es in Hl, Hpk. rewrite Fx, Fy, Fz in Hdim, Hl, Hpk.
  rewrite (surjective_pairing (PadData _ _ _ _ _)), Hdim. f_equal.
  apply (nth_ext _ _ 0 0).
  - rewrite Hl, Hlen. ring.
  - intros i Hi. rewrite Hl in Hi.
    destruct (flat_decompose (sx * es) sy sz i Hi)
      as (z & y & xb & Hz & Hy & Hxb & ->).
    destruct (flat_decompose es sx 1 xb ltac:(lia))
      as (z0 & x & b & Hz0 & Hx & Hb & ->).
    assert (z0 = 0)%nat by lia. subst z0. simpl (0 * sx + x)%nat.
    specialize (Hpk x y z b Hx Hy Hz Hb).
    unfold padded_byte in Hpk. rewrite !replicated_inside in Hpk by assumption.
    unfold peek, voxel_offset in Hpk.
    replace ((z * sy + y) * (sx * es) + (x * es + b))%nat
      with (((z * sy + y) * sx + x) * es + b)%nat by ring.
    exact Hpk.
Qed.

(** X24: [Replace] on an entry that holds a texture and does not carry
    the hub mark, for a brick whose extents are powers of two and whose
    bytes, at least one, the dataset delivers, re-uploads exactly these
    bytes into the texture it already has and returns whether the GL
    reported no error. This holds whatever the downsampling flag and the
    dataset's byte order: [Replace] neither quantizes nor swaps. *)
Theorem Replace_uploads_raw (e : GLVolumeListElem) (ds : Dataset)
  (key : BrickKey) (bPow2 b8Bit bBorder b2D : bool) (intra frame : Z)
  (hub raw : list byte) (glerr : bool) (v : GLVolume)
  (rest : list (option GLVolume)) (kx ky kz : nat) :
  volumes e = Some v :: rest ->
  m_bUsingHub e = false ->
  (forall buf, GetBrick ds key buf = (true, raw)) ->
  raw <> [] ->
  GetBrickVoxelCounts ds key =
    (Z.of_nat (2 ^ kx), Z.of_nat (2 ^ ky), Z.of_nat (2 ^ kz)) ->
  length raw =
    (2 ^ kx * 2 ^ ky * 2 ^ kz
     * (Z.to_nat (GetBitWidth ds) / 8 * Z.to_nat (GetComponentCount ds)))%nat ->
  exists e' hub',
    Replace e ds key bPow2 b8Bit bBorder b2D intra frame hub glerr
    = Returned (negb glerr) e' hub' /\
    volumes e' = Some (SetData v raw) :: rest /\
    iUserCount e' = iUserCount e.
Proof.
  intros Hv Hh Hfetch Hraw Hdim Hlen.
  assert (Hpos : forall k, (1 <= 2 ^ k)%nat).
  { intros k. assert (2 ^ k <> 0)%nat by (apply Nat.pow_nonzero; lia). lia. }
  assert (Hpad : forall b,
            PadData b raw (2 ^ kx, 2 ^ ky, 2 ^ kz)%nat
              (Z.to_nat (GetBitWidth ds)) (Z.to_nat (GetComponentCount ds))
            = (raw, (2 ^ kx, 2 ^ ky, 2 ^ kz)%nat)).
  { intros b. apply PadData_fixed_extents; auto using NextPow2_pow. }
  unfold Replace. rewrite Hv. cbn [is_empty]. unfold LoadData.
  destruct (uses_hub _ hub); cbn [relabel pDataset m_Key vData];
    rewrite Hfetch;
    cbn [fst snd negb set_buffers m_bUsingHub vData pDataset m_Key volumes
         relabel m_bDisableBorder];
    rewrite ?Hh, (is_empty_false raw Hraw), Hv, Hdim;
    unfold to_nat3, vx, vy, vz; cbn [fst snd];
    rewrite !Nat2Z.id, Hpad; cbn [fst];
    eexists; eexists; (split; [reflexivity |]); split; reflexivity.
Qed.

Lemma Replace_uploads_raw_witness :
  exists e' hub',
    Replace (sample_entry 0 0 0)
      (sample_dataset (2, 2, 2) 8 1 (0, 255)%float false
         [1; 2; 3; 4; 5; 6; 7; 8])
      (0%nat, 1%nat) true true false false 3 9 [] false
    = Returned true e' hub' /\
    volumes e' = [Some (SetData sample_volume [1; 2; 3; 4; 5; 6; 7; 8])] /\
    iUserCount e' = 0.
Proof.
  apply (Replace_uploads_raw (sample_entry 0 0 0)
           (sample_dataset (2, 2, 2) 8 1 (0, 255)%float false
              [1; 2; 3; 4; 5; 6; 7; 8])
           (0%nat, 1%nat) true true false false 3 9 []
           [1; 2; 3; 4; 5; 6; 7; 8] false sample_volume [] 1 1 1);
    try reflexivity; discriminate.
Defined.

Lemma Replace_relabels_witness :
  exists e',
    entry_of
      (Replace (sample_entry 0 0 0)
         (sample_dataset (2, 2, 2) 8 1 (0, 255)%float false
            [1; 2; 3; 4; 5; 6; 7; 8])
         (0%nat, 1%nat) false false false false 3 9 [] false) = Some e' /\
    Equals e'
      (sample_dataset (2, 2, 2) 8 1 (0, 255)%float false
         [1; 2; 3; 4; 5; 6; 7; 8])
      (0%nat, 1%nat) false false false false = true /\
    m_iIntraFrameCounter e' = 3 /\ m_iFrameCounter e' = 9 /\
    iUserCount e' = 0.
Proof.
  eexists. split; [vm_compute; reflexivity |].
  pose proof (Replace_relabels (sample_entry 0 0 0)
                (sample_dataset (2, 2, 2) 8 1 (0, 255)%float false
                   [1; 2; 3; 4; 5; 6; 7; 8])
                (0%nat, 1%nat) false false false false 3 9 [] false _
                ltac:(discriminate) ltac:(vm_compute; reflexivity))
    as (A & B & C & D & _).
  auto.
Defined.

Lemma upload_unchanged_witness :
  exists e hub',
    GLVolumeListElem_new true
      (sample_dataset (1, 1, 1) 32 1 (0, 1)%float false [1; 2; 3; 4])
      (0%nat, 0%nat) false false false false 0 0 sample_controller [] false
    = Constructed e hub' /\
    vData e = [] /\
    exists v, volumes e = [Some v] /\ vol_data v = [1; 2; 3; 4] /\
              vol_size v = (1, 1, 1) /\
              vol_sizePerElement v = wrap32 (wrap64 (32 / 8 * 1)).
Proof.
  exact (upload_unchanged true
           (sample_dataset (1, 1, 1) 32 1 (0, 1)%float false [1; 2; 3; 4])
           (0%nat, 0%nat) 0 0 sample_controller [] [1; 2; 3; 4]
           (fun _ => eq_refl) ltac:(discriminate) (or_introl eq_refl)
           false false false
           (or_introl eq_refl) (or_intror (or_introl eq_refl))).
Defined.

Lemma upload_swaps_16bit_witness :
  exists e hub' v,
    GLVolumeListElem_new true
      (sample_dataset (2, 1, 1) 16 1 (0, 1)%float false [1; 2; 3; 4])
      (0%nat, 0%nat) false false false false 0 0 sample_controller [] false
    = Constructed e hub' /\
    volumes e = [Some v] /\ vol_type v = GL_UNSIGNED_SHORT /\
    length (vol_data v) = 4%nat /\
    forall j, peek (vol_data v) j =
              if (j <? 2 * 2)%nat
              then peek [1; 2; 3; 4] (partner j)
              else peek [1; 2; 3; 4] j.
Proof.
  exact (upload_swaps_16bit true
           (sample_dataset (2, 1, 1) 16 1 (0, 1)%float false [1; 2; 3; 4])
           (0%nat, 0%nat) 0 0 sample_controller [] [1; 2; 3; 4]
           (fun _ => eq_refl) ltac:(discriminate) (or_introl eq_refl)
           false false eq_refl eq_refl (Nat.le_refl 4)).
Defined.

Lemma upload_quantizes_16bit_witness :
  exists e hub' v,
    GLVolumeListElem_new true
      (sample_dataset (2, 1, 1) 16 1 (0, 65535)%float true
         [0; 128; 255; 255])
      (0%nat, 0%nat) false true false false 0 0 sample_controller [] false
    = Constructed e hub' /\
    volumes e = [Some v] /\ vol_type v = GL_UNSIGNED_BYTE /\
    vol_sizePerElement v = 1 /\
    length (vol_data v) = 4%nat /\
    peek (vol_data v) 0 = 127 /\ peek (vol_data v) 1 = 255 /\
    peek (vol_data v) 2 = 255 /\ peek (vol_data v) 3 = 255.
Proof.
  destruct (upload_quantizes_16bit true
              (sample_dataset (2, 1, 1) 16 1 (0, 65535)%float true
                 [0; 128; 255; 255])
              (0%nat, 0%nat) 0 0 sample_controller [] [0; 128; 255; 255]
              (fun _ => eq_refl) ltac:(discriminate) (or_introl eq_refl)
              false false eq_refl (Nat.le_refl 4)
              ltac:(intros [| [| j]] Hj; [vm_compute; discriminate
                                         | vm_compute; discriminate
                                         | vm_compute in Hj; lia]))
    as (e & hub' & v & E & Hv & Ht & Hs & Hl & Hin & Hout).
  assert (Q : forall x y : Z, Some x = Some y -> y = x)
    by (intros x y [= <-]; reflexivity).
  exists e, hub', v. repeat split; auto;
    try (apply Q; rewrite <- Hin by (vm_compute; lia);
         vm_compute; reflexivity);
    try (rewrite Hout by (vm_compute; lia); reflexivity).
Defined.

(** ** The hub rule in range, empty bricks, and values without a byte *)

(** X25: as long as the voxel count fits [unsigned int] and the two byte
    counts fit [UINT64], [LoadData] hands the hub to the fetch exactly
    when the hub is not empty and the brick's byte size is at most four
    times the in-core size: then the hub receives what the fetch delivers,
    [vData] is untouched and the entry is marked; otherwise [vData]
    receives it and the hub and the mark are untouched. *)
Theorem LoadData_hub_in_range (e : GLVolumeListElem)
  (vUploadHub : list byte) :
  let v := GetBrickVoxelCounts (pDataset e) (m_Key e) in
  let bytes := vx v * vy v * vz v * (GetBitWidth (pDataset e) / 8)
               * GetComponentCount (pDataset e) in
  let incore := GetIncoresize (m_pMasterController e) in
  0 <= vx v * vy v * vz v < 2 ^ 32 ->
  0 <= bytes < 2 ^ 64 ->
  0 <= incore * 4 < 2 ^ 64 ->
  let r := LoadData e vUploadHub in
  let fetch := GetBrick (pDataset e) (m_Key e) in
  (vUploadHub <> [] /\ bytes <= 4 * incore ->
   fst (fst r) = fst (fetch vUploadHub) /\
   snd r = snd (fetch vUploadHub) /\
   vData (snd (fst r)) = vData e /\
   m_bUsingHub (snd (fst r)) = true) /\
  (vUploadHub = [] \/ 4 * incore < bytes ->
   fst (fst r) = fst (fetch (vData e)) /\
   vData (snd (fst r)) = snd (fetch (vData e)) /\
   snd r = vUploadHub /\
   m_bUsingHub (snd (fst r)) = m_bUsingHub e).
Proof.
  intros v bytes incore Hv Hb Hi r fetch.
  assert (U : uses_hub e vUploadHub = true <->
              vUploadHub <> [] /\ bytes <= 4 * incore).
  { unfold uses_hub. rewrite (iBrickSize_exact e Hv Hb). fold v bytes incore.
    unfold wrap64. rewrite (Z.mod_small _ _ Hi).
    rewrite andb_true_iff, negb_true_iff, Z.leb_le.
    destruct vUploadHub; cbn [is_empty]; split; intros [A B]; split;
      try lia; try congruence; try discriminate. }
  unfold r, fetch, LoadData. split.
  - intros H. apply U in H. rewrite H. cbn. auto.
  - intros H. destruct (uses_hub e vUploadHub) eqn:E.
    + destruct (proj1 U eq_refl) as [A B]. destruct H; [congruence | lia].
    + cbn. auto.
Qed.

Lemma LoadData_hub_in_range_witness :
  (let r := LoadData
              (blank_entry
                 (sample_dataset (16, 16, 16) 8 1 (0, 255)%float true [7])
                 false) [0] in
   fst (fst r) = true /\ snd r = [7] /\
   vData (snd (fst r)) = [] /\ m_bUsingHub (snd (fst r)) = true) /\
  (let r := LoadData
              (blank_entry
                 (sample_dataset (17, 16, 16) 8 1 (0, 255)%float true [7])
                 false) [0] in
   fst (fst r) = true /\ vData (snd (fst r)) = [7] /\
   snd r = [0] /\ m_bUsingHub (snd (fst r)) = false).
Proof.
  split.
  - apply (LoadData_hub_in_range
             (blank_entry
                (sample_dataset (16, 16, 16) 8 1 (0, 255)%float true [7])
                false) [0]);
      vm_compute; split; congruence.
  - apply (LoadData_hub_in_range
             (blank_entry
                (sample_dataset (17, 16, 16) 8 1 (0, 255)%float true [7])
                false) [0]);
      vm_compute; try (split; congruence). right. reflexivity.
Defined.

(** X26: a fetch that succeeds without delivering a byte makes
    [&vData.at(0)] (or [&vUploadHub.at(0)]) throw. The constructor then
    builds no entry; [Replace] on an entry with a volume slot and without
    the hub mark throws after it has relabelled the entry, with the
    volumes as they were. *)
Theorem empty_brick_throws (host : bool) (ds : Dataset) (key : BrickKey)
  (bPow2 b8Bit bBorder b2D : bool) (intra frame : Z) (mc : MasterController)
  (hub : list byte) (glerr : bool) :
  (forall buf, GetBrick ds key buf = (true, [])) ->
  (exists hub', GLVolumeListElem_new host ds key bPow2 b8Bit bBorder b2D
                  intra frame mc hub glerr = NotConstructed hub') /\
  (forall e, volumes e <> [] -> m_bUsingHub e = false ->
     exists e' hub',
       Replace e ds key bPow2 b8Bit bBorder b2D intra frame hub glerr
       = OutOfRange e' hub' /\
       volumes e' = volumes e /\
       Equals e' ds key bPow2 b8Bit bBorder b2D = true).
Proof.
  intros Hfetch. split.
  - unfold GLVolumeListElem_new, CreateTexture.
    match goal with
    | |- context [CreateTexture_fetch ?e0 hub true] =>
      destruct (CreateTexture_fetch_delivers e0 hub [] true eq_refl eq_refl
                  Hfetch) as (e2 & hub2 & -> & Hp & _)
    end.
    cbn [negb]. rewrite Hp. cbn [is_empty]. eauto.
  - intros e Hv Hh. unfold Replace.
    destruct (volumes e) as [| v0 rest] eqn:Ev; [congruence |].
    cbn [is_empty].
    set (e1 := relabel e ds key bPow2 b8Bit bBorder b2D intra frame).
    pose proof (same_label_LoadData e1 hub) as L.
    assert (K : fst (fst (LoadData e1 hub)) = true /\
                volumes (snd (fst (LoadData e1 hub))) = v0 :: rest /\
                (if m_bUsingHub (snd (fst (LoadData e1 hub)))
                 then snd (LoadData e1 hub)
                 else vData (snd (fst (LoadData e1 hub)))) = []).
    { unfold LoadData.
      destruct (uses_hub e1 hub); cbn [e1 relabel pDataset m_Key vData];
        rewrite Hfetch; cbn; rewrite ?Hh; auto. }
    destruct (LoadData e1 hub) as [[loaded e2] hub2].
    cbn [fst snd] in L, K. destruct K as (-> & V & ->).
    cbn [negb is_empty]. exists e2, hub2.
    destruct (relabel_Equals e ds key bPow2 b8Bit bBorder b2D intra frame
                _ L) as (A & _).
    auto.
Qed.

Lemma empty_brick_throws_witness :
  GLVolumeListElem_new true
    (sample_dataset (1, 1, 1) 8 0 (0, 255)%float true [])
    (0%nat, 0%nat) false false false false 0 0 sample_controller [] false
  = NotConstructed [].
Proof.
  destruct (empty_brick_throws true
              (sample_dataset (1, 1, 1) 8 0 (0, 255)%float true [])
              (0%nat, 0%nat) false false false false 0 0 sample_controller
              [] false (fun _ => eq_refl)) as [[hub' E] _].
  rewrite E. f_equal. vm_compute in E. congruence.
Defined.

(** X27: when a 16-bit brick is to be downsampled and one of the elements
    the loop reads has no quantized value (the quotient, cut off, is not
    one of 0..255, or is no number), the construction has no defined
    behaviour. With the range [100, 200] the range's own top value is such
    an element: (255 * 200 - 100) / 100 = 509. *)
Theorem quantization_without_byte (host : bool) (ds : Dataset)
  (key : BrickKey) (bPow2 bBorder b2D : bool) (intra frame : Z)
  (mc : MasterController) (hub raw : list byte) (glerr : bool) (j : nat) :
  GetBitWidth ds = 16 ->
  (forall buf, GetBrick ds key buf = (true, raw)) ->
  raw <> [] ->
  (j < Z.to_nat (wrap64 (voxel_count (GetBrickVoxelCounts ds key)
                         * GetComponentCount ds)))%nat ->
  Quantize (fst (GetRange ds)) (snd (GetRange ds)) (load_ushort host raw j)
  = None ->
  GLVolumeListElem_new host ds key bPow2 true bBorder b2D
    intra frame mc hub glerr = ConstructionUndefined.
Proof.
  intros B Hfetch Hraw Hj Hq.
  unfold GLVolumeListElem_new, CreateTexture.
  match goal with
  | |- context [CreateTexture_fetch ?e0 hub true] =>
    destruct (CreateTexture_fetch_delivers e0 hub raw true eq_refl eq_refl
                Hfetch) as (e2 & hub2 & E & Hp & _ & _ & H8);
    destruct (CreateTexture_fetch_keeps e0 hub true) as (Kd & Kk & _)
  end.
  rewrite E in Kd, Kk |- *. cbn [fst snd negb] in Kd, Kk |- *.
  cbn [m_bIsDownsampledTo8Bits pDataset m_Key] in H8, Kd, Kk.
  rewrite Hp, (is_empty_false raw Hraw), H8, Kd, Kk, B.
  cbn [Z.eqb Pos.eqb negb andb].
  destruct (quantize_loop _ _ _ _ _ _) eqn:Eq; [| reflexivity].
  exfalso.
  assert (D : quantize_loop host (fst (GetRange ds)) (snd (GetRange ds))
                (Z.to_nat (wrap64 (voxel_count (GetBrickVoxelCounts ds key)
                                   * GetComponentCount ds))) 0 raw <> None)
    by (rewrite Eq; discriminate).
  rewrite quantize_loop_defined in D. apply (D j); [lia | exact Hq].
Qed.

Lemma quantization_without_byte_witness :
  GLVolumeListElem_new true
    (sample_dataset (1, 1, 1) 16 1 (100, 200)%float true [200; 0])
    (0%nat, 0%nat) false true false false 0 0 sample_controller [] false
  = ConstructionUndefined.
Proof.
  apply (quantization_without_byte true
           (sample_dataset (1, 1, 1) 16 1 (100, 200)%float true [200; 0])
           (0%nat, 0%nat) false false false 0 0 sample_controller []
           [200; 0] false 0%nat);
    try reflexivity; try discriminate. vm_compute. lia.
Defined.



